(** * nussl.core.audio_signal: the AudioSignal container

    A shallow embedding of [src/nussl/core/audio_signal.py].  NumPy arrays
    are shapes with row-major data, Python integers are [Z], Python
    exceptions are values of [exn], and the methods of [AudioSignal] are
    state-passing functions over a record that has the fields the
    constructor declares.  Objects live in a store indexed by references, so
    that "returns [self]" and "returns a deep copy" are different results. *)

From Stdlib Require Import ZArith QArith Lia List Bool.
From stdpp Require Import gmap strings list.

Local Open Scope nat_scope.

(* ===================================================================== *)
(** * Scalars held by arrays *)
(* ===================================================================== *)

(** The element type of the arrays is left open: the class lists what the
    module asks of NumPy scalars (addition, multiplication, the constant
    [np.pad] fills with, [np.isfinite], the conversion of a Python integer
    such as the [-1] of [subtract], and the reciprocal of [__idiv__]). *)
Class Scalar (A : Type) := {
  s_zero : A;
  s_add : A -> A -> A;
  s_mul : A -> A -> A;
  s_isfinite : A -> bool;
  s_of_int : Z -> A;
  s_recip : A -> option A
}.

(** Rational samples, every one of them finite; [s_recip x] is [1 / x],
    which a zero [x] does not have. *)
#[export] Instance Q_Scalar : Scalar Q := {|
  s_zero := 0%Q;
  s_add := Qplus;
  s_mul := Qmult;
  s_isfinite := fun _ => true;
  s_of_int := inject_Z;
  s_recip := fun x => if Qeq_bool x 0 then None else Some (Qinv x)
|}.

(* ===================================================================== *)
(** * Python outcomes *)
(* ===================================================================== *)

Inductive exn : Type :=
| AudioSignalException
| ValueError
| TypeError
| IndexError
| AttributeError
| ZeroDivisionError
| ReferenceError.

Inductive result (T : Type) : Type :=
| Ok (v : T)
| Raise (e : exn).
Arguments Ok {T} v.
Arguments Raise {T} e.

Definition rbind {T U : Type} (r : result T) (k : T -> result U) : result U :=
  match r with
  | Ok v => k v
  | Raise e => Raise e
  end.

Declare Scope result_scope.
Delimit Scope result_scope with res.
Notation "'let?' x ':=' r 'in' k" := (rbind r (fun x => k))
  (at level 10, x name, r at level 100, k at level 200) : result_scope.
Local Open Scope result_scope.

(* ===================================================================== *)
(** * NumPy arrays *)
(* ===================================================================== *)

Module Np.
Section Arrays.
Context {A : Type} `{Scalar A}.

(** [shape] is the tuple of dimensions, [data] the elements in row-major
    (C) order. *)
Record ndarray : Type := NdArray { shape : list nat; data : list A }.

Definition ndim (a : ndarray) : nat := length (shape a).

Fixpoint prod (s : list nat) : nat :=
  match s with
  | [] => 1
  | d :: ds => d * prod ds
  end.

Definition size (a : ndarray) : nat := prod (shape a).

(** Flat position of a multi-index, and the multi-index of a flat
    position. *)
Fixpoint ravel (s idx : list nat) : nat :=
  match s, idx with
  | _ :: ds, i :: is_ => i * prod ds + ravel ds is_
  | _, _ => 0
  end.

Fixpoint unravel (s : list nat) (k : nat) : list nat :=
  match s with
  | [] => []
  | _ :: ds => (k / prod ds) :: unravel ds (k mod prod ds)
  end.

(** [valid s idx]: [idx] addresses an element of an array of shape [s]. *)
Definition valid (s idx : list nat) : Prop := Forall2 (fun i d => i < d) idx s.

Definition get (a : ndarray) (idx : list nat) : A :=
  nth (ravel (shape a) idx) (data a) s_zero.

(** The array of shape [s] whose element at [idx] is [f idx]. *)
Definition tabulate (s : list nat) (f : list nat -> A) : ndarray :=
  NdArray s (map (fun k => f (unravel s k)) (seq 0 (prod s))).

(** [a.shape[i]]: a tuple index out of range raises [IndexError]. *)
Definition shape_at (a : ndarray) (i : nat) : result nat :=
  match shape a !! i with
  | Some d => Ok d
  | None => Raise IndexError
  end.

(** [np.isfinite(a).all()] *)
Definition isfinite_all (a : ndarray) : bool := forallb s_isfinite (data a).

(** [a.T]: the axes reversed. *)
Definition transpose (a : ndarray) : ndarray :=
  tabulate (rev (shape a)) (fun idx => get a (rev idx)).

(** [np.expand_dims(a, axis)] for [0 <= axis <= a.ndim]: a new axis of
    length one; the data are untouched. *)
Definition expand_dims (a : ndarray) (axis : nat) : ndarray :=
  NdArray (take axis (shape a) ++ 1 :: drop axis (shape a)) (data a).

(** Bounds of the Python slice [start:stop] (step one) over an axis of
    length [n]: a negative bound counts from the end, and both are
    clamped to the axis. *)
Definition slice_index (n i : Z) : Z :=
  if (i <? 0)%Z then Z.max 0 (i + n) else Z.min i n.

Definition slice_bounds (n : nat) (start stop : Z) : nat * nat :=
  let lo := slice_index (Z.of_nat n) start in
  let hi := slice_index (Z.of_nat n) stop in
  (Z.to_nat lo, Z.to_nat (Z.max 0 (hi - lo))).

(** [a[:, start:stop]] on a two-dimensional array (more indices than
    axes is an [IndexError]). *)
Definition slice_cols (a : ndarray) (start stop : Z) : result ndarray :=
  match shape a with
  | r :: n :: rest =>
      let '(lo, len) := slice_bounds n start stop in
      Ok (tabulate (r :: len :: rest)
            (fun idx =>
               match idx with
               | i :: j :: more => get a (i :: (lo + j) :: more)
               | _ => s_zero
               end))
  | _ => Raise IndexError
  end.

(** [np.concatenate((a, b), axis=1)]: every axis but the second must
    agree. *)
Definition concatenate1 (a b : ndarray) : result ndarray :=
  match shape a, shape b with
  | r :: n :: rest, r' :: n' :: rest' =>
      if decide (r = r' /\ rest = rest') then
        Ok (tabulate (r :: (n + n') :: rest)
              (fun idx =>
                 match idx with
                 | i :: j :: more =>
                     if j <? n then get a (i :: j :: more)
                     else get b (i :: (j - n) :: more)
                 | _ => s_zero
                 end))
      else Raise ValueError
  | _, _ => Raise ValueError
  end.

(** [np.pad(a, ((0, 0), (before, after)), 'constant')]: the pad widths
    must match the rank and must not be negative. *)
Definition pad_cols (a : ndarray) (before after : Z) : result ndarray :=
  match shape a with
  | [r; n] =>
      if ((before <? 0) || (after <? 0))%Z then Raise ValueError
      else
        let b := Z.to_nat before in
        Ok (tabulate [r; b + n + Z.to_nat after]
              (fun idx =>
                 match idx with
                 | [i; j] =>
                     if (j <? b) || (b + n <=? j) then s_zero
                     else get a [i; j - b]
                 | _ => s_zero
                 end))
  | _ => Raise ValueError
  end.

(** Broadcasting: shapes are aligned at their last axis; two dimensions
    are compatible when they are equal or one of them is one. *)
Fixpoint broadcast_rev (s t : list nat) : option (list nat) :=
  match s, t with
  | [], _ => Some t
  | _, [] => Some s
  | d :: ds, e :: es =>
      match broadcast_rev ds es with
      | Some r =>
          if decide (d = e) then Some (d :: r)
          else if decide (d = 1) then Some (e :: r)
          else if decide (e = 1) then Some (d :: r)
          else None
      | None => None
      end
  end.

Definition broadcast_shapes (s t : list nat) : option (list nat) :=
  match broadcast_rev (rev s) (rev t) with
  | Some r => Some (rev r)
  | None => None
  end.

(** The index of the operand of shape [s] that feeds position [idx] of
    the broadcast result. *)
Definition broadcast_index (s idx : list nat) : list nat :=
  zip_with (fun d i => if decide (d = 1) then 0 else i)
           s (drop (length idx - length s) idx).

(** An elementwise binary operation, [a + b] or [a * b]; shapes that do
    not broadcast raise [ValueError]. *)
Definition binop (f : A -> A -> A) (a b : ndarray) : result ndarray :=
  match broadcast_shapes (shape a) (shape b) with
  | Some s =>
      Ok (tabulate s (fun idx =>
            f (get a (broadcast_index (shape a) idx))
              (get b (broadcast_index (shape b) idx))))
  | None => Raise ValueError
  end.

(** [a * value] for a Python scalar [value]. *)
Definition scale (a : ndarray) (v : A) : ndarray :=
  NdArray (shape a) (map (fun x => s_mul x v) (data a)).

(** Modelled from the spec: [utils._get_axis(a, axis, n)], which is not
    among the sources: the extraction of the single sub-array at index
    [n] of [axis]. *)
Definition get_axis (a : ndarray) (axis n : nat) : result ndarray :=
  match shape a !! axis with
  | Some d =>
      if n <? d then
        Ok (tabulate (take axis (shape a) ++ drop (S axis) (shape a))
              (fun idx => get a (take axis idx ++ n :: drop axis idx)))
      else Raise IndexError
  | None => Raise IndexError
  end.

(** [np.array(rows)] for a list of one-dimensional arrays: an empty list
    gives shape [(0,)], rows of one length a matrix, and rows of
    different lengths are refused. *)
Definition array_of_rows (rows : list (list A)) : result ndarray :=
  match rows with
  | [] => Ok (NdArray [0] [])
  | r :: _ =>
      if forallb (fun x => length x =? length r) rows
      then Ok (NdArray [length rows; length r] (concat rows))
      else Raise ValueError
  end.

End Arrays.
Arguments ndarray A : clear implicits.
End Np.

(* ===================================================================== *)
(** * The AudioSignal object *)
(* ===================================================================== *)

(** Modelled from the spec: [constants.CHAN_INDEX]; the module
    [nussl.constants] is not among the sources.  Sample data have shape
    (channels, total_length). *)
Definition CHAN_INDEX : nat := 0.

(** Modelled from the spec: [constants.LEN_INDEX], the sample axis. *)
Definition LEN_INDEX : nat := 1.

(** Modelled from the spec: [constants.STFT_CHAN_INDEX]; spectral data
    have shape (freq_bins, time_frames, channels). *)
Definition STFT_CHAN_INDEX : nat := 2.

(** Modelled from the spec: [constants.DEFAULT_SAMPLE_RATE], 44.1 kHz in
    the documentation of [load_audio_from_array]. *)
Definition DEFAULT_SAMPLE_RATE : Z := 44100.

(** Modelled from the spec: [constants.WINDOW_HANN], the name SciPy gives
    the Hann window. *)
Definition WINDOW_HANN : string := "hann".

(** Modelled from the spec: [constants.WINDOW_SQRT_HANN], the
    square-root-of-Hann variant; the setter of [stft_params] spells the
    name out. *)
Definition WINDOW_SQRT_HANN : string := "sqrt_hann".

(** Modelled from the spec: [constants.WINDOW_DEFAULT]; the default
    window type is Hann. *)
Definition WINDOW_DEFAULT : string := WINDOW_HANN.

(** The [STFTParams] named tuple; every field defaults to [None]. *)
Record STFTParams : Type := mkSTFTParams {
  window_length : option Z;
  hop_length : option Z;
  window_type : option string
}.

Definition loc : Type := nat.

Section AudioSignal.
Context {A : Type} `{Scalar A}.
Import Np.

(** The Python values the methods are called with.
    Modelled from the spec: [masks.MaskBase] is not among the sources;
    [VMask m] is an object derived from it, [m] is the array it carries
    ([mask.mask]) and [shape m] its shape ([mask.shape]). *)
Inductive pyobj : Type :=
| VNone
| VInt (n : Z)
| VFloat (x : A)
| VArray (a : ndarray A)
| VMask (m : ndarray A)
| VRef (l : loc)
| VOther.

(** What [stft_params] may be assigned: [None], an [STFTParams] tuple, or
    anything else, of which only the truth value matters. *)
Inductive params_arg : Type :=
| PNone
| PParams (p : STFTParams)
| PFalsy
| PTruthy.

(** What the module takes from SciPy.  [check_COLA window nperseg
    noverlap] answers whether the constant-overlap-add constraint is met
    and raises [ValueError] on arguments it refuses; [get_window] builds
    a window; [sp_istft fs window nperseg noverlap Zxx] is the inverse
    transform of one channel. *)
Record SciPy : Type := {
  check_COLA : string -> Z -> Z -> result bool;
  get_window_ : string -> Z -> result (list A);
  sp_sqrt : A -> A;
  sp_istft : option Z -> list A -> Z -> Z -> ndarray A -> result (list A)
}.

(** The attributes [__init__] declares. *)
Record AudioSignal : Type := mkAudioSignal {
  path_to_input_file : option string;
  _audio_data : option (ndarray A);
  original_signal_length : option Z;
  _stft_data : option (ndarray A);
  _sample_rate : option Z;
  _active_start : option Z;
  _active_end : option Z;
  label : option string;
  _stft_params : option STFTParams
}.

Definition with_audio_data (v : option (ndarray A)) (s : AudioSignal) :=
  mkAudioSignal (path_to_input_file s) v (original_signal_length s)
    (_stft_data s) (_sample_rate s) (_active_start s) (_active_end s)
    (label s) (_stft_params s).
Definition with_original_signal_length (v : option Z) (s : AudioSignal) :=
  mkAudioSignal (path_to_input_file s) (_audio_data s) v
    (_stft_data s) (_sample_rate s) (_active_start s) (_active_end s)
    (label s) (_stft_params s).
Definition with_stft_data (v : option (ndarray A)) (s : AudioSignal) :=
  mkAudioSignal (path_to_input_file s) (_audio_data s)
    (original_signal_length s) v (_sample_rate s) (_active_start s)
    (_active_end s) (label s) (_stft_params s).
Definition with_sample_rate (v : option Z) (s : AudioSignal) :=
  mkAudioSignal (path_to_input_file s) (_audio_data s)
    (original_signal_length s) (_stft_data s) v (_active_start s)
    (_active_end s) (label s) (_stft_params s).
Definition with_active_start (v : option Z) (s : AudioSignal) :=
  mkAudioSignal (path_to_input_file s) (_audio_data s)
    (original_signal_length s) (_stft_data s) (_sample_rate s) v
    (_active_end s) (label s) (_stft_params s).
Definition with_active_end (v : option Z) (s : AudioSignal) :=
  mkAudioSignal (path_to_input_file s) (_audio_data s)
    (original_signal_length s) (_stft_data s) (_sample_rate s)
    (_active_start s) v (label s) (_stft_params s).
Definition with_path (v : option string) (s : AudioSignal) :=
  mkAudioSignal v (_audio_data s)
    (original_signal_length s) (_stft_data s) (_sample_rate s)
    (_active_start s) (_active_end s) (label s) (_stft_params s).
Definition with_stft_params (v : option STFTParams) (s : AudioSignal) :=
  mkAudioSignal (path_to_input_file s) (_audio_data s)
    (original_signal_length s) (_stft_data s) (_sample_rate s)
    (_active_start s) (_active_end s) (label s) v.

(** A method body: it runs on the object's attributes, may assign them,
    and returns or raises.  Assignments made before an exception stay. *)
Definition M (T : Type) : Type := AudioSignal -> AudioSignal * result T.

Definition ret {T} (v : T) : M T := fun s => (s, Ok v).
Definition raise {T} (e : exn) : M T := fun s => (s, Raise e).
Definition lift {T} (r : result T) : M T := fun s => (s, r).
Definition read {T} (f : AudioSignal -> result T) : M T := fun s => (s, f s).
Definition assign (f : AudioSignal -> AudioSignal) : M unit :=
  fun s => (f s, Ok tt).
Definition bind {T U} (m : M T) (k : T -> M U) : M U :=
  fun s =>
    match m s with
    | (s', Ok v) => k v s'
    | (s', Raise e) => (s', Raise e)
    end.

Notation "'let*' x ':=' m 'in' k" := (bind m (fun x => k))
  (at level 10, x name, m at level 100, k at level 200).
Notation "m ';;' k" := (bind m (fun _ => k))
  (at level 100, k at level 200, right associativity).

(* ------------------------------------------------------------------- *)
(** ** Properties *)
(* ------------------------------------------------------------------- *)

(** [_signal_length]: the length of the full signal, not just of the
    active region. *)
Definition _signal_length (s : AudioSignal) : result (option Z) :=
  match _audio_data s with
  | None => Ok None
  | Some a => let? n := shape_at a LEN_INDEX in Ok (Some (Z.of_nat n))
  end.

(** The [audio_data] getter: only the active region is returned. *)
Definition audio_data (s : AudioSignal) : result (option (ndarray A)) :=
  match _audio_data s with
  | None => Ok None
  | Some a =>
      let start := 0%Z in
      let? n := shape_at a LEN_INDEX in
      let end_ := Z.of_nat n in
      let end_ :=
        match _active_end s with
        | Some e => if (e <? end_)%Z then e else end_
        | None => end_
        end in
      let start :=
        match _active_start s with
        | Some b => if (0 <? b)%Z then b else start
        | None => start
        end in
      let? v := slice_cols a start end_ in
      Ok (Some v)
  end.

Definition signal_length (s : AudioSignal) : result (option Z) :=
  let? a := audio_data s in
  match a with
  | None => Ok (original_signal_length s)
  | Some v => let? n := shape_at v LEN_INDEX in Ok (Some (Z.of_nat n))
  end.

Definition stft_data (s : AudioSignal) : option (ndarray A) := _stft_data s.

Definition num_channels (s : AudioSignal) : result (option Z) :=
  let? a := audio_data s in
  match a with
  | Some v => let? c := shape_at v CHAN_INDEX in Ok (Some (Z.of_nat c))
  | None =>
      match stft_data s with
      | Some d =>
          let? c := shape_at d STFT_CHAN_INDEX in Ok (Some (Z.of_nat c))
      | None => Ok None
      end
  end.

Definition sample_rate (s : AudioSignal) : option Z := _sample_rate s.

(** [self._active_start == 0 and self._active_end == self._signal_length] *)
Definition active_region_is_default (s : AudioSignal) : result bool :=
  if bool_decide (_active_start s = Some 0%Z) then
    let? n := _signal_length s in
    Ok (bool_decide (_active_end s = n))
  else Ok false.

(* ------------------------------------------------------------------- *)
(** ** Active region *)
(* ------------------------------------------------------------------- *)

(** [end < self._signal_length] compares an integer with [None] when
    there is no audio data, a [TypeError]. *)
Definition set_active_region (start end_ : Z) : M unit :=
  assign (with_active_start (Some (if (0 <=? start)%Z then start else 0%Z))) ;;
  let* n := read _signal_length in
  match n with
  | Some len =>
      assign (with_active_end
                (Some (if (end_ <? len)%Z then end_ else len)))
  | None => raise TypeError
  end.

Definition set_active_region_to_default : M unit :=
  assign (with_active_start (Some 0%Z)) ;;
  let* n := read _signal_length in
  assign (with_active_end n).

(* ------------------------------------------------------------------- *)
(** ** Setters *)
(* ------------------------------------------------------------------- *)

Definition audio_data_setter (value : pyobj) : M unit :=
  match value with
  | VNone => assign (with_audio_data None)
  | VArray value =>
      if negb (isfinite_all value) then raise AudioSignalException
      else
        let value :=
          match shape value with
          | c :: l :: _ => if l <? c then transpose value else value
          | _ => value
          end in
        if 2 <? ndim value then raise AudioSignalException
        else
          let value :=
            if ndim value <? 2 then expand_dims value CHAN_INDEX
            else value in
          assign (with_audio_data (Some value)) ;;
          set_active_region_to_default
  | _ => raise AudioSignalException
  end.

Definition stft_data_setter (value : pyobj) : M unit :=
  match value with
  | VNone => assign (with_stft_data None)
  | VArray value =>
      if decide (ndim value = 1) then raise AudioSignalException
      else
        let value :=
          if decide (ndim value = 2) then expand_dims value STFT_CHAN_INDEX
          else value in
        if 3 <? ndim value then raise AudioSignalException
        else assign (with_stft_data (Some value))
  | _ => raise AudioSignalException
  end.


(* ------------------------------------------------------------------- *)
(** ** STFT parameters *)
(* ------------------------------------------------------------------- *)

(** Modelled from the spec: [constants.DEFAULT_WIN_LEN_PARAM] is 32 ms.
    With it, [int(2 ** np.ceil(np.log2(DEFAULT_WIN_LEN_PARAM *
    sample_rate)))] in exact arithmetic is the least power of two that is
    at least [4 * sr / 125].  Below 16 Hz the power is a fraction and
    [int] gives zero; the logarithm of a negative number is [nan], which
    [int] refuses. *)
Definition default_win_len (sr : Z) : result Z :=
  if (sr <? 0)%Z then Raise ValueError
  else if (sr <=? 15)%Z then Ok 0%Z
  else Ok (2 ^ Z.log2_up ((4 * sr + 124) / 125))%Z.

Definition default_stft_params (s : AudioSignal) : result STFTParams :=
  match sample_rate s with
  | None => Raise TypeError
  | Some sr =>
      let? default_win_len := default_win_len sr in
      let default_hop_len := (default_win_len / 4)%Z in
      Ok (mkSTFTParams (Some default_win_len) (Some default_hop_len)
                       (Some WINDOW_DEFAULT))
  end.

Definition fill {T} (v d : option T) : option T :=
  match v with
  | None => d
  | Some _ => v
  end.

(** The [stft_params] setter.  The value [check_COLA] returns is not
    bound to anything; only an exception it raises gets out. *)
Definition stft_params_setter (sp : SciPy) (value : params_arg) : M unit :=
  match value with
  | PTruthy => raise ValueError
  | _ =>
      let* d := read default_stft_params in
      let value :=
        match value with
        | PParams p => p
        | _ => d
        end in
      let value :=
        mkSTFTParams (fill (window_length value) (window_length d))
                     (fill (hop_length value) (hop_length d))
                     (fill (window_type value) (window_type d)) in
      assign (with_stft_params (Some value)) ;;
      match window_type value, window_length value, hop_length value with
      | Some wt, Some wl, Some hl =>
          let window_type :=
            if String.eqb wt "sqrt_hann" then WINDOW_HANN else wt in
          let* _ := lift (check_COLA sp window_type wl hl) in
          ret tt
      | _, _, _ => raise TypeError
      end
  end.

(** [get_window]: SciPy's windows and the square root of the Hann
    window. *)
Definition get_window (sp : SciPy) (window_type : string) (window_length : Z)
  : result (list A) :=
  if String.eqb window_type WINDOW_SQRT_HANN then
    let? w := get_window_ sp "hann" window_length in
    Ok (map (sp_sqrt sp) w)
  else get_window_ sp window_type window_length.

(* ------------------------------------------------------------------- *)
(** ** Channels *)
(* ------------------------------------------------------------------- *)

Definition _verify_get_channel (n : Z) (s : AudioSignal) : result unit :=
  let? nc := num_channels s in
  match nc with
  | None => Raise TypeError
  | Some nc =>
      if (nc <=? n)%Z then Raise AudioSignalException
      else if (n <? 0)%Z then Raise AudioSignalException
      else Ok tt
  end.

Definition get_stft_channel (n : Z) (s : AudioSignal) : result (ndarray A) :=
  match stft_data s with
  | None => Raise AudioSignalException
  | Some d =>
      let? _ := _verify_get_channel n s in
      get_axis d STFT_CHAN_INDEX (Z.to_nat n)
  end.

(** [range(self.num_channels)] *)
Definition channel_range (s : AudioSignal) : result (list Z) :=
  let? nc := num_channels s in
  match nc with
  | None => Raise TypeError
  | Some nc => Ok (map Z.of_nat (seq 0 (Z.to_nat nc)))
  end.

(** A [for] loop that appends one result per element and stops at the
    first exception. *)
Fixpoint for_each {T U} (f : T -> result U) (l : list T) : result (list U) :=
  match l with
  | [] => Ok []
  | x :: xs =>
      let? y := f x in
      let? ys := for_each f xs in
      Ok (y :: ys)
  end.

(* ------------------------------------------------------------------- *)
(** ** Inverse STFT *)
(* ------------------------------------------------------------------- *)

Definition param {T} (arg : option T) (field : STFTParams -> option T)
  (s : AudioSignal) : result T :=
  match arg with
  | Some v => Ok v
  | None =>
      match _stft_params s with
      | None => Raise AttributeError
      | Some p =>
          match field p with
          | Some v => Ok v
          | None => Raise TypeError
          end
      end
  end.

(** The length [istft] cuts its result to. *)
Definition istft_truncate_to_length (truncate_to_length : option Z)
  (s : AudioSignal) : result (option Z) :=
  match truncate_to_length with
  | None =>
      let truncate_to_length := original_signal_length s in
      let? sl := signal_length s in
      match sl with
      | Some _ => Ok sl
      | None => Ok truncate_to_length
      end
  | Some _ => Ok truncate_to_length
  end.

(** The first part of [istft], which only reads: every channel of
    [stft_data] goes through the inverse transform and the results are
    stacked. *)
Definition istft_calculate (sp : SciPy) (wl hl : option Z)
  (wt : option string) (s : AudioSignal) : result (ndarray A) :=
  let? _ :=
    match stft_data s with
    | None => Raise AudioSignalException
    | Some d => if size d =? 0 then Raise AudioSignalException else Ok tt
    end in
  let? window_length := param wl window_length s in
  let? hop_length := param hl hop_length s in
  let? window_type := param wt window_type s in
  let signals := @nil (list A) in
  let? window := get_window sp window_type window_length in
  let? chans := channel_range s in
  let? signals :=
    for_each (fun i =>
      let? stft := get_stft_channel i s in
      sp_istft sp (sample_rate s) window window_length
               (window_length - hop_length)%Z stft) chans in
  let? calculated_signal := array_of_rows signals in
  Ok (if decide (ndim calculated_signal = 1)
      then expand_dims calculated_signal (ndim calculated_signal)
      else calculated_signal).

Definition istft (sp : SciPy) (wl hl : option Z) (wt : option string)
  (overwrite : bool) (truncate_to_length : option Z) : M (ndarray A) :=
  let* calculated_signal := read (istft_calculate sp wl hl wt) in
  let* truncate_to_length :=
    read (istft_truncate_to_length truncate_to_length) in
  let* calculated_signal := lift
    match truncate_to_length with
    | Some t =>
        if (0 <? t)%Z then slice_cols calculated_signal 0 t
        else Ok calculated_signal
    | None => Ok calculated_signal
    end in
  let* a := read audio_data in
  (if overwrite || bool_decide (a = None)
   then audio_data_setter (VArray calculated_signal)
   else ret tt) ;;
  ret calculated_signal.


(* ------------------------------------------------------------------- *)
(** ** Utilities that reshape the audio data *)
(* ------------------------------------------------------------------- *)

Definition _verify_audio (other : AudioSignal) : M unit :=
  let* n := read num_channels in
  let* m := lift (num_channels other) in
  if negb (bool_decide (n = m)) then raise AudioSignalException
  else
    let* r := read (fun s => Ok (sample_rate s)) in
    if negb (bool_decide (r = sample_rate other))
    then raise AudioSignalException
    else ret tt.

Definition _verify_audio_arithmetic (other : AudioSignal) : M unit :=
  _verify_audio other ;;
  let* n := read signal_length in
  let* m := lift (signal_length other) in
  if negb (bool_decide (n = m)) then raise AudioSignalException
  else ret tt.

(** [np.concatenate] refuses [None] in place of an array. *)
Definition concat (other : AudioSignal) : M unit :=
  _verify_audio other ;;
  let* a := read audio_data in
  let* b := lift (audio_data other) in
  match a, b with
  | Some a, Some b =>
      let* c := lift (concatenate1 a b) in
      audio_data_setter (VArray c)
  | _, _ => raise ValueError
  end.

Definition truncate_samples (n_samples : Z) : M unit :=
  let* d := read active_region_is_default in
  if negb d then raise AudioSignalException
  else
    let* sl := read signal_length in
    match sl with
    | None => raise TypeError
    | Some len =>
        let n_samples := if (len <? n_samples)%Z then len else n_samples in
        let* a := read audio_data in
        match a with
        | None => raise TypeError
        | Some a =>
            let* v := lift (slice_cols a 0 n_samples) in
            audio_data_setter (VArray v)
        end
    end.

(** [int(n_seconds * self.sample_rate)]: the product, in exact
    arithmetic, rounded towards zero. *)
Definition truncate_seconds (n_seconds : Q) : M unit :=
  let* sr := read (fun s => Ok (sample_rate s)) in
  match sr with
  | None => raise TypeError
  | Some sr =>
      let n_samples := (Qnum n_seconds * sr ÷ Zpos (Qden n_seconds))%Z in
      truncate_samples n_samples
  end.

Definition crop_signal (before after : Z) : M unit :=
  let* d := read active_region_is_default in
  if negb d then raise AudioSignalException
  else
    let* num_samples := read signal_length in
    let* a := read audio_data in
    match a, num_samples with
    | Some a, Some num_samples =>
        let* v := lift (slice_cols a before (num_samples - after)) in
        audio_data_setter (VArray v) ;;
        set_active_region_to_default
    | _, _ => raise TypeError
    end.

Definition zero_pad (before after : Z) : M unit :=
  let* d := read active_region_is_default in
  if negb d then raise AudioSignalException
  else
    let* a := read audio_data in
    match a with
    | Some a =>
        let* v := lift (pad_cols a before after) in
        audio_data_setter (VArray v)
    | None => raise ValueError
    end.

(** [isinstance(value, numbers.Real)]: integers and floats are. *)
Definition as_real (value : pyobj) : option A :=
  match value with
  | VInt n => Some (s_of_int n)
  | VFloat x => Some x
  | _ => None
  end.

(** [apply_gain] returns [self]; here it returns nothing and the caller
    keeps the reference. *)
Definition apply_gain (value : pyobj) : M unit :=
  match as_real value with
  | None => raise AudioSignalException
  | Some g =>
      let* a := read audio_data in
      match a with
      | None => raise TypeError
      | Some a => audio_data_setter (VArray (scale a g))
      end
  end.

(** [__imul__] and [__idiv__]; [float(value)] refuses what is not a
    number, and [1 / 0.0] is a [ZeroDivisionError]. *)
Definition __imul__ (value : pyobj) : M unit := apply_gain value.

Definition __idiv__ (value : pyobj) : M unit :=
  match as_real value with
  | None => raise TypeError
  | Some x =>
      match s_recip x with
      | None => raise ZeroDivisionError
      | Some r => apply_gain (VFloat r)
      end
  end.

Definition __itruediv__ (value : pyobj) : M unit := __idiv__ value.

(* ------------------------------------------------------------------- *)
(** ** Construction *)
(* ------------------------------------------------------------------- *)

(** [load_audio_from_array] for an array of floats (the conversion from
    fixed point is for integer arrays). *)
Definition load_audio_from_array (signal : ndarray A) (sr : option Z)
  : M unit :=
  assign (with_path None) ;;
  audio_data_setter (VArray signal) ;;
  let* sl := read signal_length in
  assign (with_original_signal_length sl) ;;
  assign (with_sample_rate
            (Some (match sr with
                   | Some r => r
                   | None => DEFAULT_SAMPLE_RATE
                   end))) ;;
  set_active_region_to_default.

(** [__init__] without a path to a file. *)
Definition __init__ (sp : SciPy) (audio_data_array stft : option (ndarray A))
  (label_ : option string) (sr : option Z) (stft_params : params_arg)
  : M unit :=
  match audio_data_array, stft with
  | Some _, Some _ => raise AudioSignalException
  | _, _ =>
      match audio_data_array with
      | Some a => load_audio_from_array a sr
      | None => ret tt
      end ;;
      let* r := read (fun s => Ok (_sample_rate s)) in
      match r with
      | None =>
          assign (with_sample_rate
                    (Some (match sr with
                           | Some r => r
                           | None => DEFAULT_SAMPLE_RATE
                           end)))
      | Some _ => ret tt
      end ;;
      stft_data_setter (match stft with
                        | Some d => VArray d
                        | None => VNone
                        end) ;;
      stft_params_setter sp stft_params
  end.

Definition blank (label_ : option string) : AudioSignal :=
  mkAudioSignal None None None None None None None label_ None.

End AudioSignal.

Arguments AudioSignal A : clear implicits.
Arguments pyobj A : clear implicits.
Arguments SciPy A : clear implicits.
Arguments M A T : clear implicits.

(* ===================================================================== *)
(** * Objects in a store *)
(* ===================================================================== *)

Section Store.
Context {A : Type} `{Scalar A}.
Import Np.

(** Methods that take another [AudioSignal], or return one, run on the
    store: a reference names an object, [copy.deepcopy] allocates. *)
Definition St (T : Type) : Type :=
  gmap loc (AudioSignal A) -> gmap loc (AudioSignal A) * result T.

Definition st_ret {T} (v : T) : St T := fun h => (h, Ok v).
Definition st_raise {T} (e : exn) : St T := fun h => (h, Raise e).
Definition st_bind {T U} (m : St T) (k : T -> St U) : St U :=
  fun h =>
    match m h with
    | (h', Ok v) => k v h'
    | (h', Raise e) => (h', Raise e)
    end.

Notation "'let*' x ':=' m 'in' k" := (st_bind m (fun x => k))
  (at level 10, x name, m at level 100, k at level 200).
Notation "m ';;' k" := (st_bind m (fun _ => k))
  (at level 100, k at level 200, right associativity).

(** The object a reference names. *)
Definition deref (l : loc) : St (AudioSignal A) :=
  fun h =>
    match h !! l with
    | Some s => (h, Ok s)
    | None => (h, Raise ReferenceError)
    end.

(** Run a method body on the object at [l]. *)
Definition on {T} (l : loc) (m : M A T) : St T :=
  fun h =>
    match h !! l with
    | Some s => let '(s', r) := m s in (<[l := s']> h, r)
    | None => (h, Raise ReferenceError)
    end.

(** [copy.deepcopy(obj)]: a new object with the same attributes. *)
Definition deepcopy (l : loc) : St loc :=
  fun h =>
    match h !! l with
    | Some s => let l' := fresh (dom h) in (<[l' := s]> h, Ok l')
    | None => (h, Raise ReferenceError)
    end.

(** An operand that must be an [AudioSignal]: anything else has none of
    its attributes. *)
Definition signal_of (other : pyobj A) : St (AudioSignal A) :=
  match other with
  | VRef o => deref o
  | _ => st_raise AttributeError
  end.

Definition concat_ (self : loc) (other : pyobj A) : St unit :=
  let* o := signal_of other in
  on self (concat o).

(** [self.audio_data + other.audio_data]; [None] cannot be added. *)
Definition sum_audio_data (s o : AudioSignal A) : result (ndarray A) :=
  let? a := audio_data s in
  let? b := audio_data o in
  match a, b with
  | Some a, Some b => binop s_add a b
  | _, _ => Raise TypeError
  end.

Definition add (self : loc) (other : pyobj A) : St (pyobj A) :=
  match other with
  | VInt _ => st_ret (VRef self)
  | _ =>
      let* o := signal_of other in
      on self (_verify_audio_arithmetic o) ;;
      let* new_signal := deepcopy self in
      let* s := deref self in
      let* o := signal_of other in
      let* v := (fun h => (h, sum_audio_data s o)) in
      on new_signal (audio_data_setter (VArray v)) ;;
      st_ret (VRef new_signal)
  end.

Definition subtract (self : loc) (other : pyobj A) : St (pyobj A) :=
  let* o := signal_of other in
  on self (_verify_audio_arithmetic o) ;;
  let* other_copy :=
    match other with
    | VRef o => deepcopy o
    | _ => st_raise AttributeError
    end in
  on other_copy (__imul__ (VInt (-1))) ;;
  add self (VRef other_copy).

Definition __add__ (self : loc) (other : pyobj A) := add self other.
Definition __radd__ (self : loc) (other : pyobj A) := add self other.
Definition __sub__ (self : loc) (other : pyobj A) := subtract self other.

(** The warnings of the verbose mode change nothing; reading the shape
    of a missing array is an [AttributeError]. *)
Definition make_copy_with_stft_data (self : loc) (stft_data_ : pyobj A)
  (verbose : bool) : St (pyobj A) :=
  (if verbose then
     let* s := deref self in
     let* _ := (fun h => (h, active_region_is_default s)) in
     match stft_data_, stft_data s with
     | VArray _, Some _ | VMask _, Some _ => st_ret tt
     | _, _ => st_raise AttributeError
     end
   else st_ret tt) ;;
  let* new_signal := deepcopy self in
  on new_signal (stft_data_setter stft_data_) ;;
  let* s := deref self in
  on new_signal (assign (with_original_signal_length
                           (original_signal_length s))) ;;
  on new_signal (audio_data_setter VNone) ;;
  st_ret (VRef new_signal).

Definition make_copy_with_audio_data (self : loc) (audio_data_ : pyobj A)
  (verbose : bool) : St (pyobj A) :=
  (if verbose then
     let* s := deref self in
     let* _ := (fun h => (h, active_region_is_default s)) in
     let* a := (fun h => (h, audio_data s)) in
     match audio_data_, a with
     | VArray _, Some _ | VMask _, Some _ => st_ret tt
     | _, _ => st_raise AttributeError
     end
   else st_ret tt) ;;
  let* new_signal := deepcopy self in
  on new_signal (audio_data_setter audio_data_) ;;
  on new_signal (stft_data_setter VNone) ;;
  st_ret (VRef new_signal).

(** [apply_mask]: the two shapes are compared as tuples; when they
    differ, it is the mask's shape that loses its last entry before the
    second comparison. *)
Definition apply_mask (self : loc) (mask : pyobj A) (overwrite : bool)
  : St (pyobj A) :=
  match mask with
  | VMask m =>
      let* s := deref self in
      match stft_data s with
      | None => st_raise AudioSignalException
      | Some d =>
          if negb (bool_decide (shape m = shape d))
             && negb (bool_decide
                        (take (length (shape m) - 1) (shape m) = shape d))
          then st_raise AudioSignalException
          else
            let* masked_stft := (fun h => (h, binop s_mul d m)) in
            if overwrite then
              on self (stft_data_setter (VArray masked_stft)) ;;
              st_ret VNone
            else make_copy_with_stft_data self (VArray masked_stft) false
      end
  | _ => st_raise AudioSignalException
  end.

(** The compound assignments hand back what [apply_gain] returns,
    [self]. *)
Definition imul (self : loc) (value : pyobj A) : St (pyobj A) :=
  on self (__imul__ value) ;; st_ret (VRef self).

Definition itruediv (self : loc) (value : pyobj A) : St (pyobj A) :=
  on self (__itruediv__ value) ;; st_ret (VRef self).


End Store.

(* ===================================================================== *)
(** * Sessions: what a caller can do to one object *)
(* ===================================================================== *)

Section Sessions.
Context {A : Type} `{Scalar A}.
Import Np.

(** The calls that write to an object.  [Call_concat] carries the
    attributes of the other signal as they are when the call is made. *)
Inductive call : Type :=
| Call_audio_data_setter (value : pyobj A)
| Call_stft_data_setter (value : pyobj A)
| Call_stft_params_setter (value : params_arg)
| Call_set_active_region (start end_ : Z)
| Call_set_active_region_to_default
| Call_load_audio_from_array (signal : ndarray A) (sr : option Z)
| Call_istft (wl hl : option Z) (wt : option string) (overwrite : bool)
             (truncate_to_length : option Z)
| Call_concat (other : AudioSignal A)
| Call_truncate_samples (n_samples : Z)
| Call_truncate_seconds (n_seconds : Q)
| Call_crop_signal (before after : Z)
| Call_zero_pad (before after : Z)
| Call_apply_gain (value : pyobj A)
| Call_imul (value : pyobj A)
| Call_itruediv (value : pyobj A).

Definition run (sp : SciPy A) (c : call) : M A unit :=
  match c with
  | Call_audio_data_setter v => audio_data_setter v
  | Call_stft_data_setter v => stft_data_setter v
  | Call_stft_params_setter v => stft_params_setter sp v
  | Call_set_active_region b e => set_active_region b e
  | Call_set_active_region_to_default => set_active_region_to_default
  | Call_load_audio_from_array a sr => load_audio_from_array a sr
  | Call_istft wl hl wt ow t =>
      bind (istft sp wl hl wt ow t) (fun _ => ret tt)
  | Call_concat o => concat o
  | Call_truncate_samples n => truncate_samples n
  | Call_truncate_seconds q => truncate_seconds q
  | Call_crop_signal b a => crop_signal b a
  | Call_zero_pad b a => zero_pad b a
  | Call_apply_gain v => apply_gain v
  | Call_imul v => __imul__ v
  | Call_itruediv v => __itruediv__ v
  end.

(** The states of an object: what the constructor returns, and what a
    call leaves behind, whether it returns or raises. *)
Inductive reachable (sp : SciPy A) : AudioSignal A -> Prop :=
| reachable_init audio_data_array stft label_ sr stft_params s :
    __init__ sp audio_data_array stft label_ sr stft_params (blank label_)
      = (s, Ok tt) ->
    reachable sp s
| reachable_call s c s' r :
    reachable sp s -> run sp c s = (s', r) -> reachable sp s'.

(** The bounds of the active region, when there is audio data of total
    length [n]: as the data model words them, and as
    [set_active_region] keeps them. *)
Definition region_ordered (s : AudioSignal A) : Prop :=
  forall n, _signal_length s = Ok (Some n) ->
    exists b e, _active_start s = Some b /\ _active_end s = Some e /\
                (0 <= b)%Z /\ (b <= e)%Z /\ (e <= n)%Z.

Definition region_clamped (s : AudioSignal A) : Prop :=
  forall n, _signal_length s = Ok (Some n) ->
    exists b e, _active_start s = Some b /\ _active_end s = Some e /\
                (0 <= b)%Z /\ (e <= n)%Z.

(** A method body that keeps the bounds clamped, whether it returns or
    raises. *)
Definition preserves {T} (m : M A T) : Prop :=
  forall s s' r, region_clamped s -> m s = (s', r) -> region_clamped s'.

(** An assignment that touches neither the audio data nor the bounds. *)
Definition frame (f : AudioSignal A -> AudioSignal A) : Prop :=
  forall s, _audio_data (f s) = _audio_data s /\
            _active_start (f s) = _active_start s /\
            _active_end (f s) = _active_end s.

(** An array whose data fill its shape. *)
Definition well_formed (a : ndarray A) : Prop :=
  length (data a) = prod (shape a).

End Sessions.

(* ===================================================================== *)
(** * Stand-ins and sample objects *)
(* ===================================================================== *)

Module Examples.
Import Np.
Local Open Scope Z_scope.

(** [check_COLA] on the rectangular window, whose samples are all one:
    the overlapped sum is constant exactly when the step divides the
    segment length.  No other window is known to this stand-in. *)
Definition boxcar_check_COLA (window : string) (nperseg noverlap : Z)
  : result bool :=
  if nperseg <? 1 then Raise ValueError
  else if nperseg <=? noverlap then Raise ValueError
  else if negb (String.eqb window "boxcar") then Raise ValueError
  else if noverlap <? 0 then Raise TypeError
  else Ok (nperseg mod (nperseg - noverlap) =? 0).

Definition boxcar_get_window (window : string) (n : Z) : result (list Q) :=
  if String.eqb window "boxcar" then Ok (repeat 1%Q (Z.to_nat n))
  else Raise ValueError.

(** An inverse transform that hands back the coefficients of the channel
    in row-major order. *)
Definition flat_istft (fs : option Z) (window : list Q) (nperseg noverlap : Z)
  (Zxx : ndarray Q) : result (list Q) :=
  Ok (data Zxx).

Definition scipy_boxcar : SciPy Q :=
  {| check_COLA := boxcar_check_COLA;
     get_window_ := boxcar_get_window;
     sp_sqrt := fun x => x;
     sp_istft := flat_istft |}.

Definition boxcar_4_2 : STFTParams :=
  mkSTFTParams (Some 4) (Some 2) (Some "boxcar"%string).

Definition boxcar_5_2 : STFTParams :=
  mkSTFTParams (Some 5) (Some 2) (Some "boxcar"%string).

Definition q (n : Z) : Q := inject_Z n.

Definition row (l : list Z) : ndarray Q :=
  NdArray [1%nat; length l] (map q l).

(** [AudioSignal(audio_data_array=a, sample_rate=44100,
    stft_params=STFTParams(4, 2, 'boxcar'))], and the same object after
    [set_active_region(b, e)]. *)
Definition signal_of_array (a : ndarray Q) : AudioSignal Q :=
  fst (__init__ scipy_boxcar (Some a) None None (Some 44100)
         (PParams boxcar_4_2) (blank None)).

Definition with_region (b e : Z) (s : AudioSignal Q) : AudioSignal Q :=
  fst (set_active_region b e s).

(** One channel, four samples. *)
Definition mono4 : AudioSignal Q := signal_of_array (row [1; 2; 3; 4]).

(** One channel, two samples. *)
Definition mono2 : AudioSignal Q := signal_of_array (row [10; 20]).

(** Two channels, four samples. *)
Definition stereo4 : AudioSignal Q :=
  signal_of_array (NdArray [2%nat; 4%nat] (map q [1; 2; 3; 4; 5; 6; 7; 8])).

(** [AudioSignal(stft=d, sample_rate=44100, stft_params=...)] *)
Definition signal_of_stft (d : ndarray Q) : AudioSignal Q :=
  fst (__init__ scipy_boxcar None (Some d) None (Some 44100)
         (PParams boxcar_4_2) (blank None)).

(** A spectrogram of two bins, three hops and two channels. *)
Definition stft_2_3_2 : ndarray Q :=
  NdArray [2%nat; 3%nat; 2%nat] (map q [1; 2; 3; 4; 5; 6; 7; 8; 9; 10; 11; 12]).

Definition ones (s : list nat) : ndarray Q :=
  NdArray s (repeat 1%Q (prod s)).

(** A spectrogram of two bins, three hops and one channel, from which
    [flat_istft] makes six samples. *)
Definition stft_2_3_1 : ndarray Q :=
  NdArray [2%nat; 3%nat; 1%nat] (map q [1; 2; 3; 4; 5; 6]).

(** The signal of four samples once it has been given that
    spectrogram. *)
Definition mono4_stft : AudioSignal Q :=
  fst (stft_data_setter (VArray stft_2_3_1) mono4).

(** An object made from the spectrogram alone. *)
Definition stft_only : AudioSignal Q := signal_of_stft stft_2_3_1.

End Examples.

(* ===================================================================== *)
(** * Channels, the forward transform, copies and equality *)
(* ===================================================================== *)

Module Np2.
Section MoreArrays.
Context {A : Type} `{Scalar A}.
Import Np.

(** [np.array(arrays)] for a list of arrays: an empty list gives shape
    [(0,)], arrays of one shape are stacked along a new first axis, and
    arrays of different shapes are refused. *)
Definition stack (arrays : list (ndarray A)) : result (ndarray A) :=
  match arrays with
  | [] => Ok (NdArray [0] [])
  | a :: _ =>
      if forallb (fun x => bool_decide (shape x = shape a)) arrays
      then Ok (NdArray (length arrays :: shape a) (List.concat (map data arrays)))
      else Raise ValueError
  end.

(** [a.transpose((1, 2, 0))]: the axes must be those of the array. *)
Definition transpose_120 (a : ndarray A) : result (ndarray A) :=
  match shape a with
  | [c; f; t] =>
      Ok (tabulate [f; t; c]
            (fun idx =>
               match idx with
               | [i; j; k] => get a [k; i; j]
               | _ => s_zero
               end))
  | _ => Raise ValueError
  end.

(** [np.array_equal(a, b)] over an equality test of scalars: the shapes
    agree and so does every pair of elements. *)
Fixpoint list_eqb (eqb : A -> A -> bool) (l l' : list A) : bool :=
  match l, l' with
  | [], [] => true
  | x :: xs, y :: ys => eqb x y && list_eqb eqb xs ys
  | _, _ => false
  end.

Definition array_equal (eqb : A -> A -> bool) (a b : ndarray A) : bool :=
  bool_decide (shape a = shape b) && list_eqb eqb (data a) (data b).

(** [np.mean(a, axis=0, keepdims=keepdims)]: [avg] is the mean of the
    values met along the first axis; an array of no axes has no first
    axis. *)
Definition mean_axis0 (avg : list A -> A) (a : ndarray A) (keepdims : bool)
  : result (ndarray A) :=
  match shape a with
  | c :: rest =>
      Ok (tabulate (if keepdims then 1 :: rest else rest)
            (fun idx =>
               avg (map (fun i =>
                           get a (i :: (if keepdims then tl idx else idx)))
                        (seq 0 c))))
  | [] => Raise IndexError
  end.

End MoreArrays.
End Np2.

(** Modelled from the spec: [constants.STFT_LEN_INDEX], the axis of the
    hops; spectral data have shape (freq_bins, time_frames, channels). *)
Definition STFT_LEN_INDEX : nat := 1.

(** Two [STFTParams] tuples are equal or not. *)
#[export] Instance STFTParams_eq_dec : EqDecision STFTParams.
Proof. solve_decision. Defined.

Section MoreMethods.
Context {A : Type} `{Scalar A}.
Import Np Np2.

Notation "'let*' x ':=' m 'in' k" := (bind m (fun x => k))
  (at level 10, x name, m at level 100, k at level 200).
Notation "m ';;' k" := (bind m (fun _ => k))
  (at level 100, k at level 200, right associativity).

(** [has_data]: there are audio data or STFT data, and they are not
    empty. *)
Definition has_data (s : AudioSignal A) : result bool :=
  let? a := audio_data s in
  let has_audio_data :=
    match a with
    | Some v => negb (size v =? 0)
    | None => false
    end in
  let has_stft_data :=
    match stft_data s with
    | Some d => negb (size d =? 0)
    | None => false
    end in
  Ok (has_audio_data || has_stft_data).

Definition is_mono (s : AudioSignal A) : result bool :=
  let? n := num_channels s in Ok (bool_decide (n = Some 1%Z)).

Definition is_stereo (s : AudioSignal A) : result bool :=
  let? n := num_channels s in Ok (bool_decide (n = Some 2%Z)).

(** [stft_length]: the number of hops. *)
Definition stft_length (s : AudioSignal A) : result Z :=
  match stft_data s with
  | None => Raise AudioSignalException
  | Some d => let? n := shape_at d STFT_LEN_INDEX in Ok (Z.of_nat n)
  end.

(** [__len__]: [len(signal)] wants an integer. *)
Definition __len__ (s : AudioSignal A) : result Z :=
  let? n := signal_length s in
  match n with
  | Some n => Ok n
  | None => Raise TypeError
  end.

(** [get_channel(n)]: the checked index, then the row of the active
    slice.  Without audio data the index is looked up in an array of no
    axes. *)
Definition get_channel (n : Z) (s : AudioSignal A) : result (ndarray A) :=
  let? _ := _verify_get_channel n s in
  let? a := audio_data s in
  match a with
  | Some v => get_axis v CHAN_INDEX (Z.to_nat n)
  | None => Raise IndexError
  end.

(** [get_channels()] and [get_stft_channels()], run to the end. *)
Definition get_channels (s : AudioSignal A) : result (list (ndarray A)) :=
  let? r := channel_range s in
  for_each (fun i => get_channel i s) r.

Definition get_stft_channels (s : AudioSignal A) : result (list (ndarray A)) :=
  let? r := channel_range s in
  for_each (fun i => get_stft_channel i s) r.

(** The forward transform of one channel, taken from SciPy:
    [kernel fs window nperseg noverlap x] is the array of coefficients
    that [scipy.signal.stft] returns for the samples [x]. *)
Definition stft_kernel : Type :=
  option Z -> list A -> Z -> Z -> ndarray A -> result (ndarray A).

(** The part of [stft] that only reads. *)
Definition stft_calculate (sp : SciPy A) (kernel : stft_kernel)
  (wl hl : option Z) (wt : option string) (s : AudioSignal A)
  : result (ndarray A) :=
  let? a := audio_data s in
  let? _ :=
    match a with
    | None => Raise AudioSignalException
    | Some v => if size v =? 0 then Raise AudioSignalException else Ok tt
    end in
  let? window_length := param wl window_length s in
  let? hop_length := param hl hop_length s in
  let? window_type := param wt window_type s in
  let? window := get_window sp window_type window_length in
  let? chans := channel_range s in
  let? stft_data :=
    for_each (fun i =>
      let? chan := get_channel i s in
      kernel (sample_rate s) window window_length
             (window_length - hop_length)%Z chan) chans in
  let? stacked := stack stft_data in
  transpose_120 stacked.

Definition stft (sp : SciPy A) (kernel : stft_kernel) (wl hl : option Z)
  (wt : option string) (overwrite : bool) : M A (ndarray A) :=
  let* stft_data := read (stft_calculate sp kernel wl hl wt) in
  (if overwrite then stft_data_setter (VArray stft_data) else ret tt) ;;
  ret stft_data.

(** [to_mono]: the mean over the channels of the active slice, stored
    when [overwrite] is set; [np.mean] finds no axis in [None]. *)
Definition to_mono (avg : list A -> A) (overwrite keep_dims : bool)
  : M A (ndarray A) :=
  let* a := read audio_data in
  let* mono := lift
    match a with
    | Some v => mean_axis0 avg v keep_dims
    | None => Raise IndexError
    end in
  (if overwrite then audio_data_setter (VArray mono) else ret tt) ;;
  ret mono.

(** [__eq__] over an equality test [eqb] of scalars: the attributes are
    gone through in the order [__init__] creates them.  An attribute of
    [self] that holds an array is compared with [np.array_equal]; any
    other with [!=], whose result, when the other side is an array, is
    an array of [True] of that shape: false when empty, true when it has
    one element, and of no truth value otherwise. *)
Definition array_field_differs (eqb : A -> A -> bool)
  (v w : option (ndarray A)) : result bool :=
  match v, w with
  | Some a, Some b => Ok (negb (array_equal eqb a b))
  | Some _, None => Ok true
  | None, Some b =>
      if size b =? 0 then Ok false
      else if size b =? 1 then Ok true
      else Raise ValueError
  | None, None => Ok false
  end.

Definition __eq__ (eqb : A -> A -> bool) (self other : AudioSignal A)
  : result bool :=
  if negb (bool_decide (path_to_input_file self = path_to_input_file other))
  then Ok false
  else
    let? d := array_field_differs eqb (_audio_data self) (_audio_data other) in
    if d then Ok false
    else if negb (bool_decide (original_signal_length self
                               = original_signal_length other))
    then Ok false
    else
      let? d := array_field_differs eqb (_stft_data self) (_stft_data other) in
      if d then Ok false
      else if negb (bool_decide (_sample_rate self = _sample_rate other))
      then Ok false
      else if negb (bool_decide (_active_start self = _active_start other))
      then Ok false
      else if negb (bool_decide (_active_end self = _active_end other))
      then Ok false
      else if negb (bool_decide (label self = label other))
      then Ok false
      else if negb (bool_decide (_stft_params self = _stft_params other))
      then Ok false
      else Ok true.

Definition __ne__ (eqb : A -> A -> bool) (self other : AudioSignal A)
  : result bool :=
  let? e := __eq__ eqb self other in Ok (negb e).

End MoreMethods.

Section MoreStore.
Context {A : Type} `{Scalar A}.
Import Np.

Notation "'let*' x ':=' m 'in' k" := (st_bind m (fun x => k))
  (at level 10, x name, m at level 100, k at level 200).
Notation "m ';;' k" := (st_bind m (fun _ => k))
  (at level 100, k at level 200, right associativity).

(** [make_audio_signal_from_channel(n)]: [copy.copy] makes a new object
    with the same attributes (the arrays they hold are never written in
    place), and the channel becomes its audio data. *)
Definition make_audio_signal_from_channel (self : loc) (n : Z)
  : St (pyobj A) :=
  let* new_signal := deepcopy self in
  let* s := deref self in
  let* chan := (fun h => (h, get_channel n s)) in
  on new_signal (audio_data_setter (VArray chan)) ;;
  st_ret (VRef new_signal).

(** [__mul__]: a copy with the gained audio data; [np.multiply] refuses
    [None]. *)
Definition __mul__ (self : loc) (value : pyobj A) : St (pyobj A) :=
  match as_real value with
  | None => st_raise AudioSignalException
  | Some g =>
      let* s := deref self in
      let* a := (fun h => (h, audio_data s)) in
      match a with
      | None => st_raise TypeError
      | Some a => make_copy_with_audio_data self (VArray (scale a g)) false
      end
  end.

(** [__iadd__] and [__isub__] hand back what [+] and [-] return. *)
Definition __iadd__ (self : loc) (other : pyobj A) := __add__ self other.
Definition __isub__ (self : loc) (other : pyobj A) := __sub__ self other.

End MoreStore.

Section Invariants.
Context {A : Type} `{Scalar A}.
Import Np.

(** A method body that keeps [P], whether it returns or raises. *)
Definition keeps (P : AudioSignal A -> Prop) {T} (m : M A T) : Prop :=
  forall s s' r, P s -> m s = (s', r) -> P s'.

(** What holds of the stored arrays and of the sample rate: the audio
    data are a matrix with no more channels than samples (a single
    channel may be empty), or the one vector that a scalar becomes; the
    STFT data have three axes, or none; the sample rate is set. *)
Definition audio_oriented (s : AudioSignal A) : Prop :=
  forall a, _audio_data s = Some a ->
    (exists c n, shape a = [c; n] /\ (c <= n \/ c = 1)) \/ shape a = [1].

Definition stft_ranked (s : AudioSignal A) : Prop :=
  forall d, _stft_data s = Some d -> ndim d = 3 \/ ndim d = 0.

Definition rate_set (s : AudioSignal A) : Prop := _sample_rate s <> None.

Definition well_kept (s : AudioSignal A) : Prop :=
  audio_oriented s /\ stft_ranked s /\ rate_set s.

End Invariants.

Module MoreExamples.
Import Np Examples.
Local Open Scope Z_scope.

(** A forward transform that hands back the samples of the channel as a
    spectrogram of one bin, with two zeros appended; together with
    [flat_istft] it reconstructs the channel followed by padding. *)
Definition padded_stft (fs : option Z) (window : list Q) (nperseg noverlap : Z)
  (x : ndarray Q) : result (ndarray Q) :=
  Ok (NdArray [1%nat; (length (data x) + 2)%nat] (data x ++ [0%Q; 0%Q])).

(** What [padded_stft] makes of the two channels of [stereo4]. *)
Definition stereo4_transforms (n : nat) : ndarray Q :=
  match n with
  | O => NdArray [1%nat; 6%nat] (map q [1; 2; 3; 4; 0; 0])
  | _ => NdArray [1%nat; 6%nat] (map q [5; 6; 7; 8; 0; 0])
  end.

(** The two channels of [stereo4] as a matrix. *)
Definition stereo4_data : ndarray Q :=
  NdArray [2%nat; 4%nat] (map q [1; 2; 3; 4; 5; 6; 7; 8]).

(** [AudioSignal()]: neither audio data nor STFT data. *)
Definition empty_signal : AudioSignal Q :=
  fst (__init__ scipy_boxcar None None None None
         (PParams boxcar_4_2) (blank None)).

(** The mean of a list of fractions. *)
Definition Q_mean (l : list Q) : Q :=
  (fold_right Qplus 0%Q l / inject_Z (Z.of_nat (length l)))%Q.

(** Two fractions are the same when numerators and denominators are. *)
Definition Q_eqb (x y : Q) : bool :=
  (Qnum x =? Qnum y) && (Qden x =? Qden y)%positive.

End MoreExamples.
(** Unfolding the combinators of method bodies. *)
Ltac unfold_m :=
  unfold bind, read, assign, ret, raise, lift in *.

Ltac unfold_st :=
  unfold st_bind, st_ret, st_raise, deref, signal_of in *.

(* ===================================================================== *)
(** * Facts about arrays *)
(* ===================================================================== *)

Section ArrayFacts.
Context {A : Type} `{Scalar A}.
Import Np.

Lemma ravel_lt (s idx : list nat) : valid s idx -> ravel s idx < prod s.
Proof.
  unfold valid. induction 1 as [|i d is_ ds Hi _ IH]; simpl; [lia|nia].
Qed.

Lemma unravel_ravel (s idx : list nat) :
  valid s idx -> unravel s (ravel s idx) = idx.
Proof.
  unfold valid. induction 1 as [|i d is_ ds Hi Hv IH]; simpl; [reflexivity|].
  pose proof (ravel_lt ds is_ Hv) as Hlt.
  assert (prod ds <> 0) by lia.
  rewrite Nat.div_add_l by assumption.
  rewrite (Nat.div_small (ravel ds is_)) by assumption.
  rewrite (Nat.add_comm (i * prod ds)), Nat.Div0.mod_add.
  rewrite Nat.mod_small by assumption.
  rewrite IH. f_equal. lia.
Qed.

Lemma unravel_valid (s : list nat) (k : nat) :
  k < prod s -> valid s (unravel s k).
Proof.
  unfold valid. revert k. induction s as [|d ds IH]; simpl; intros k Hk.
  - constructor.
  - assert (prod ds <> 0) by nia.
    constructor.
    + apply Nat.Div0.div_lt_upper_bound. lia.
    + apply IH. apply Nat.mod_upper_bound. assumption.
Qed.

Lemma tabulate_well_formed (s : list nat) (f : list nat -> A) :
  well_formed (tabulate s f).
Proof. unfold well_formed. simpl. rewrite length_map, length_seq. reflexivity. Qed.

(** Reading back what [tabulate] wrote. *)
Lemma get_tabulate (s idx : list nat) (f : list nat -> A) :
  valid s idx -> get (tabulate s f) idx = f idx.
Proof.
  intros Hv. unfold get, tabulate. simpl.
  pose proof (ravel_lt s idx Hv) as Hlt.
  rewrite (nth_indep _ s_zero (f (unravel s 0)))
    by (rewrite length_map, length_seq; assumption).
  rewrite (map_nth (fun k => f (unravel s k))).
  rewrite seq_nth by assumption. simpl.
  rewrite unravel_ravel by assumption. reflexivity.
Qed.

Lemma Forall_tabulate (P : A -> Prop) (s : list nat) (f : list nat -> A) :
  (forall idx, valid s idx -> P (f idx)) -> Forall P (data (tabulate s f)).
Proof.
  intros Hf. simpl. apply List.Forall_forall. intros x Hx.
  apply in_map_iff in Hx. destruct Hx as [k [<- Hk]].
  apply in_seq in Hk. apply Hf, unravel_valid. lia.
Qed.

(** An element at a valid index is one of the data. *)
Lemma get_In (a : ndarray A) (idx : list nat) :
  well_formed a -> valid (shape a) idx -> In (get a idx) (data a).
Proof.
  intros Hwf Hv. unfold get. apply nth_In.
  rewrite Hwf. apply ravel_lt, Hv.
Qed.

Lemma valid2 (r c i j : nat) : i < r -> j < c -> valid [r; c] [i; j].
Proof. intros. repeat constructor; assumption. Qed.

(** The transpose of a matrix, entry by entry. *)
Lemma transpose_matrix (a : ndarray A) (r c : nat) :
  shape a = [r; c] ->
  shape (transpose a) = [c; r] /\
  forall i j, i < r -> j < c -> get (transpose a) [j; i] = get a [i; j].
Proof.
  intros Hs. unfold transpose. rewrite Hs. simpl. split; [reflexivity|].
  intros i j Hi Hj. rewrite get_tabulate by (apply valid2; assumption).
  reflexivity.
Qed.

Lemma slice_bounds_within (n : nat) (b e : Z) :
  (0 <= b)%Z -> (b <= e)%Z -> (e <= Z.of_nat n)%Z ->
  slice_bounds n b e = (Z.to_nat b, Z.to_nat (e - b)).
Proof.
  intros Hb Hbe He. unfold slice_bounds, slice_index.
  destruct (Z.ltb_spec b 0); [lia|].
  destruct (Z.ltb_spec e 0); [lia|].
  f_equal; f_equal; lia.
Qed.

Lemma slice_bounds_le (n : nat) (b e : Z) :
  fst (slice_bounds n b e) + snd (slice_bounds n b e) <= n.
Proof.
  unfold slice_bounds, slice_index. simpl.
  destruct (Z.ltb_spec b 0); destruct (Z.ltb_spec e 0); lia.
Qed.

End ArrayFacts.

(* ===================================================================== *)
(** * Facts about one object *)
(* ===================================================================== *)

Section ObjectFacts.
Context {A : Type} `{Scalar A}.
Import Np.

(** Storing a matrix: the active region becomes the whole of it. *)
Lemma store_matrix (s : AudioSignal A) (v : ndarray A) (c n : nat) :
  shape v = [c; n] ->
  bind (assign (with_audio_data (Some v)))
       (fun _ => set_active_region_to_default) s
  = (with_active_end (Some (Z.of_nat n))
       (with_active_start (Some 0%Z) (with_audio_data (Some v) s)), Ok tt).
Proof.
  intros Hs. unfold set_active_region_to_default. unfold_m. simpl.
  unfold _signal_length, shape_at. simpl. rewrite Hs. reflexivity.
Qed.

(** What the [audio_data] setter does with a finite array of rank one
    or two. *)
Lemma audio_data_setter_matrix (s : AudioSignal A) (v : ndarray A) (c n : nat) :
  isfinite_all v = true -> shape v = [c; n] ->
  audio_data_setter (VArray v) s =
    if n <? c
    then (with_active_end (Some (Z.of_nat c))
            (with_active_start (Some 0%Z)
               (with_audio_data (Some (transpose v)) s)), Ok tt)
    else (with_active_end (Some (Z.of_nat n))
            (with_active_start (Some 0%Z)
               (with_audio_data (Some v) s)), Ok tt).
Proof.
  intros Hfin Hs. unfold audio_data_setter. rewrite Hfin, Hs. simpl.
  destruct (n <? c) eqn:Hnc.
  - destruct (transpose_matrix v c n Hs) as [Ht _].
    unfold ndim. rewrite Ht. simpl.
    apply (store_matrix s (transpose v) n c Ht).
  - unfold ndim. rewrite Hs. simpl.
    apply (store_matrix s v c n Hs).
Qed.

Lemma audio_data_setter_vector (s : AudioSignal A) (v : ndarray A) (n : nat) :
  isfinite_all v = true -> shape v = [n] ->
  audio_data_setter (VArray v) s =
    (with_active_end (Some (Z.of_nat n))
       (with_active_start (Some 0%Z)
          (with_audio_data (Some (NdArray [1; n] (data v))) s)), Ok tt).
Proof.
  intros Hfin Hs. unfold audio_data_setter. rewrite Hfin, Hs. simpl.
  unfold ndim. rewrite Hs. simpl.
  unfold expand_dims. rewrite Hs. simpl.
  apply (store_matrix s (NdArray [1; n] (data v)) 1 n). reflexivity.
Qed.

(** C7. Assigning [audio_data] a finite matrix whose first axis is the
    longer one stores its transpose; a matrix whose first axis is not
    longer is stored as it is; a vector of length [n] is stored as the
    one-row matrix of shape [(1, n)] with the same samples. *)
Theorem audio_data_setter_orientation (s : AudioSignal A) (value : ndarray A) :
  isfinite_all value = true ->
  (forall r c, shape value = [r; c] -> c < r ->
     exists s', audio_data_setter (VArray value) s = (s', Ok tt) /\
       _audio_data s' = Some (transpose value) /\
       shape (transpose value) = [c; r] /\
       forall i j, i < r -> j < c ->
         get (transpose value) [j; i] = get value [i; j]) /\
  (forall r c, shape value = [r; c] -> r <= c ->
     exists s', audio_data_setter (VArray value) s = (s', Ok tt) /\
       _audio_data s' = Some value) /\
  (forall n, shape value = [n] ->
     exists s', audio_data_setter (VArray value) s = (s', Ok tt) /\
       _audio_data s' = Some (NdArray [1; n] (data value))).
Proof.
  intros Hfin. repeat split.
  - intros r c Hs Hlt.
    rewrite (audio_data_setter_matrix s value r c Hfin Hs).
    destruct (Nat.ltb_spec c r); [|lia].
    destruct (transpose_matrix value r c Hs) as [Ht Hg].
    eexists. split; [reflexivity|]. simpl. auto.
  - intros r c Hs Hle.
    rewrite (audio_data_setter_matrix s value r c Hfin Hs).
    destruct (Nat.ltb_spec c r); [lia|].
    eexists. split; reflexivity.
  - intros n Hs.
    rewrite (audio_data_setter_vector s value n Hfin Hs).
    eexists. split; reflexivity.
Qed.

(** C9. Adding any integer, zero or not, returns the reference it was
    given and leaves every object as it was; the integer is not looked
    at.  [self + n] and [n + self] are the same call. *)
Theorem add_integer_returns_self (h : gmap loc (AudioSignal A))
  (self : loc) (n : Z) :
  add self (VInt n) h = (h, Ok (VRef self)) /\
  __add__ self (VInt n) h = (h, Ok (VRef self)) /\
  __radd__ self (VInt n) h = (h, Ok (VRef self)).
Proof. repeat split. Qed.

Lemma signal_length_no_audio (s : AudioSignal A) :
  _audio_data s = None -> signal_length s = Ok (original_signal_length s).
Proof.
  intros Hn. unfold signal_length, audio_data. rewrite Hn. reflexivity.
Qed.

(** The getter on a stored matrix: the rows are kept, the columns are
    those of the slice. *)
Lemma audio_data_matrix (s : AudioSignal A) (a : ndarray A) (c n : nat) :
  _audio_data s = Some a -> shape a = [c; n] ->
  exists v k, audio_data s = Ok (Some v) /\ shape v = [c; k] /\ k <= n /\
              signal_length s = Ok (Some (Z.of_nat k)).
Proof.
  intros Ha Hs. unfold signal_length, audio_data. rewrite Ha.
  unfold shape_at. rewrite Hs. simpl.
  unfold slice_cols. rewrite Hs.
  match goal with
  | |- context [slice_bounds n ?b ?e] =>
      pose proof (slice_bounds_le n b e) as Hle;
      destruct (slice_bounds n b e) as [lo len]
  end.
  simpl in *. eexists _, len. repeat split. lia.
Qed.

Lemma signal_length_window (s : AudioSignal A) (a : ndarray A) (c n : nat)
  (b e : Z) :
  _audio_data s = Some a -> shape a = [c; n] ->
  _active_start s = Some b -> _active_end s = Some e ->
  (0 <= b)%Z -> (b <= e)%Z -> (e <= Z.of_nat n)%Z ->
  signal_length s = Ok (Some (e - b)%Z).
Proof.
  intros Ha Hs Hb He H0 Hbe Hen.
  unfold signal_length, audio_data. rewrite Ha, Hb, He.
  unfold shape_at. rewrite Hs. simpl.
  unfold slice_cols. rewrite Hs.
  replace (if (e <? Z.of_nat n)%Z then e else Z.of_nat n) with e
    by (destruct (Z.ltb_spec e (Z.of_nat n)); lia).
  replace (if (0 <? b)%Z then b else 0%Z) with b
    by (destruct (Z.ltb_spec 0 b); lia).
  rewrite slice_bounds_within by assumption. simpl.
  do 2 f_equal. lia.
Qed.

End ObjectFacts.

Section StoreFacts.
Context {A : Type} `{Scalar A}.
Import Np.

Lemma fresh_loc_ne (h : gmap loc (AudioSignal A)) (l : loc) (s : AudioSignal A) :
  h !! l = Some s -> l <> fresh (dom h).
Proof.
  intros Hl Heq. pose proof (is_fresh (dom h)) as Hf.
  rewrite <- Heq in Hf. apply Hf. apply elem_of_dom. eauto.
Qed.

Lemma on_lookup {T} (h : gmap loc (AudioSignal A)) (l : loc)
  (s : AudioSignal A) (m : M A T) :
  h !! l = Some s -> on l m h = (<[l := fst (m s)]> h, snd (m s)).
Proof. intros Hl. unfold on. rewrite Hl. destruct (m s). reflexivity. Qed.

Lemma deepcopy_lookup (h : gmap loc (AudioSignal A)) (l : loc)
  (s : AudioSignal A) :
  h !! l = Some s ->
  deepcopy l h = (<[fresh (dom h) := s]> h, Ok (fresh (dom h))).
Proof. intros Hl. unfold deepcopy. rewrite Hl. reflexivity. Qed.

(** The copy [make_copy_with_stft_data] returns has no audio data and
    keeps the recorded length of the original. *)
Lemma make_copy_with_stft_data_result (h h' : gmap loc (AudioSignal A))
  (self l : loc) (s : AudioSignal A) (d : pyobj A) (verbose : bool) :
  h !! self = Some s ->
  make_copy_with_stft_data self d verbose h = (h', Ok (VRef l)) ->
  exists s1,
    stft_data_setter d s = (s1, Ok tt) /\
    l = fresh (dom h) /\
    h' = <[l := with_audio_data None
                  (with_original_signal_length (original_signal_length s) s1)]>
           (<[l := with_original_signal_length (original_signal_length s) s1]>
              (<[l := s1]> (<[l := s]> h))).
Proof.
  intros Hself Hrun. unfold make_copy_with_stft_data in Hrun.
  pose proof (fresh_loc_ne h self s Hself) as Hne.
  unfold st_bind at 1 in Hrun.
  assert (Hpre : exists r, (if verbose
            then st_bind (deref self) (fun s0 =>
                   st_bind (fun h0 => (h0, active_region_is_default s0))
                     (fun _ => match d with
                               | VArray _ | VMask _ =>
                                   match stft_data s0 with
                                   | Some _ => st_ret tt
                                   | None => st_raise AttributeError
                                   end
                               | _ => st_raise AttributeError
                               end))
            else st_ret tt) h = (h, r)).
  { destruct verbose; [|eexists; reflexivity].
    unfold_st. rewrite Hself.
    destruct (active_region_is_default s); [|eexists; reflexivity].
    destruct d; try (eexists; reflexivity);
      destruct (stft_data s); eexists; reflexivity. }
  destruct Hpre as [r Hpre].
  match type of Hrun with
  | context [match ?m h with _ => _ end] =>
      replace (m h) with (h, r) in Hrun
        by (symmetry; etransitivity; [|exact Hpre];
            destruct verbose; [|reflexivity];
            unfold_st; rewrite Hself;
            destruct (active_region_is_default s); [|reflexivity];
            destruct d; try reflexivity; destruct (stft_data s); reflexivity)
  end.
  destruct r as [[]|e]; [|discriminate].
  unfold st_bind in Hrun. rewrite (deepcopy_lookup h self s Hself) in Hrun.
  set (l' := fresh (dom h)) in *.
  rewrite (on_lookup _ l' s) in Hrun by apply lookup_insert_eq.
  destruct (stft_data_setter d s) as [s1 [[]|e]] eqn:Hset; simpl in Hrun;
    [|discriminate].
  unfold deref in Hrun.
  rewrite !lookup_insert_ne in Hrun by (intro; subst; congruence).
  rewrite Hself in Hrun.
  rewrite (on_lookup _ l' s1) in Hrun by apply lookup_insert_eq.
  unfold assign in Hrun. simpl in Hrun.
  rewrite (on_lookup _ l' (with_original_signal_length
                             (original_signal_length s) s1)) in Hrun
    by apply lookup_insert_eq.
  simpl in Hrun. unfold assign, st_ret in Hrun. simpl in Hrun.
  inversion Hrun; subst. exists s1. repeat split.
Qed.

(** C10. Without audio data [signal_length] is
    [original_signal_length], whatever that holds; the copy that
    [make_copy_with_stft_data] returns is such an object.  With audio
    data it is the number of samples the getter lets through, which for
    a window [0 <= b <= e <= n] is [e - b]. *)
Theorem signal_length_cases :
  (forall s : AudioSignal A,
     _audio_data s = None ->
     signal_length s = Ok (original_signal_length s)) /\
  (forall (h h' : gmap loc (AudioSignal A)) self l s d verbose,
     h !! self = Some s ->
     make_copy_with_stft_data self d verbose h = (h', Ok (VRef l)) ->
     exists s', h' !! l = Some s' /\ _audio_data s' = None /\
                signal_length s' = Ok (original_signal_length s)) /\
  (forall (s : AudioSignal A) a c n,
     _audio_data s = Some a -> shape a = [c; n] ->
     exists v k, audio_data s = Ok (Some v) /\ shape v = [c; k] /\
                 signal_length s = Ok (Some (Z.of_nat k))) /\
  (forall (s : AudioSignal A) a c n b e,
     _audio_data s = Some a -> shape a = [c; n] ->
     _active_start s = Some b -> _active_end s = Some e ->
     (0 <= b)%Z -> (b <= e)%Z -> (e <= Z.of_nat n)%Z ->
     signal_length s = Ok (Some (e - b)%Z)).
Proof.
  split; [exact signal_length_no_audio|].
  split.
  - intros h h' self l s d verbose Hself Hrun.
    destruct (make_copy_with_stft_data_result h h' self l s d verbose
                Hself Hrun) as [s1 [Hset [Hl Hh]]].
    eexists. split; [rewrite Hh; apply lookup_insert_eq|].
    split; [reflexivity|].
    rewrite signal_length_no_audio by reflexivity. reflexivity.
  - split.
    + intros s a c n Ha Hs.
      destruct (audio_data_matrix s a c n Ha Hs) as [v [k [Hv [Hk [_ Hl]]]]].
      eauto.
    + intros s a c n b e. apply signal_length_window.
Qed.

End StoreFacts.

(* ===================================================================== *)
(** * The active region *)
(* ===================================================================== *)

Section RegionFacts.
Context {A : Type} `{Scalar A}.
Import Np.

Lemma preserves_ret {T} (v : T) : preserves (ret (A := A) v).
Proof. intros s s' r Hs Hr. inversion Hr; subst. assumption. Qed.

Lemma preserves_raise {T} (e : exn) : preserves (raise (A := A) (T := T) e).
Proof. intros s s' r Hs Hr. inversion Hr; subst. assumption. Qed.

Lemma preserves_lift {T} (x : result T) : preserves (lift (A := A) x).
Proof. intros s s' r Hs Hr. inversion Hr; subst. assumption. Qed.

Lemma preserves_read {T} (f : AudioSignal A -> result T) : preserves (read f).
Proof. intros s s' r Hs Hr. inversion Hr; subst. assumption. Qed.

Lemma preserves_bind {T U} (m : M A T) (k : T -> M A U) :
  preserves m -> (forall v, preserves (k v)) -> preserves (bind m k).
Proof.
  intros Hm Hk s s' r Hs Hr. unfold bind in Hr.
  destruct (m s) as [s1 [v|e]] eqn:Hms.
  - eapply Hk; [|exact Hr]. eapply Hm; eassumption.
  - inversion Hr; subst. eapply Hm; eassumption.
Qed.

Lemma preserves_assign (f : AudioSignal A -> AudioSignal A) :
  frame f -> preserves (assign f).
Proof.
  intros Hf s s' r Hs Hr. inversion Hr; subst.
  destruct (Hf s) as [Ha [Hb He]].
  unfold region_clamped, _signal_length in *. rewrite Ha, Hb, He. exact Hs.
Qed.

(** Resetting the region makes the bounds clamped, whatever they were. *)
Lemma set_active_region_to_default_clamped (s s' : AudioSignal A)
  (r : result unit) :
  set_active_region_to_default s = (s', r) -> region_clamped s'.
Proof.
  unfold set_active_region_to_default. unfold_m. simpl.
  destruct (_signal_length (with_active_start (Some 0%Z) s)) as [n|e] eqn:Hn;
    intros Hr; inversion Hr; subst; clear Hr; intros m Hm.
  - change (_signal_length (with_active_end n (with_active_start (Some 0%Z) s)))
      with (_signal_length (with_active_start (Some 0%Z) s)) in Hm.
    rewrite Hn in Hm. inversion Hm; subst. simpl.
    exists 0%Z, m. repeat split; lia.
  - rewrite Hn in Hm. discriminate.
Qed.

Lemma preserves_set_active_region_to_default :
  preserves (set_active_region_to_default (A := A)).
Proof. intros s s' r _. apply set_active_region_to_default_clamped. Qed.

Lemma set_active_region_clamped (start end_ : Z) (s s' : AudioSignal A)
  (r : result unit) :
  set_active_region start end_ s = (s', r) -> region_clamped s'.
Proof.
  unfold set_active_region. unfold_m. simpl.
  destruct (_signal_length (with_active_start
              (Some (if (0 <=? start)%Z then start else 0%Z)) s))
    as [[n|]|e] eqn:Hn;
    intros Hr; inversion Hr; subst; clear Hr; intros m Hm.
  - change (_signal_length (with_active_end ?x ?y))
      with (_signal_length y) in Hm.
    rewrite Hn in Hm. inversion Hm; subst. simpl.
    eexists _, _. repeat split.
    + destruct (Z.leb_spec 0 start); lia.
    + destruct (Z.ltb_spec end_ m); lia.
  - rewrite Hn in Hm. discriminate.
  - rewrite Hn in Hm. discriminate.
Qed.

Lemma preserves_set_active_region (start end_ : Z) :
  preserves (set_active_region (A := A) start end_).
Proof. intros s s' r _. apply set_active_region_clamped. Qed.

Lemma preserves_audio_data_setter (value : pyobj A) :
  preserves (audio_data_setter value).
Proof.
  unfold audio_data_setter.
  destruct value; try apply preserves_raise.
  - intros s s' r Hs Hr. inversion Hr; subst. intros n Hn. discriminate.
  - destruct (negb (isfinite_all a)); [apply preserves_raise|].
    match goal with
    | |- preserves (if ?c then _ else _) => destruct c
    end; [apply preserves_raise|].
    intros s s' r _ Hr. unfold bind at 1 in Hr. unfold assign at 1 in Hr.
    eapply set_active_region_to_default_clamped. exact Hr.
Qed.

Create HintDb pres.
Hint Resolve preserves_ret preserves_raise preserves_lift preserves_read
  preserves_set_active_region_to_default preserves_set_active_region
  preserves_audio_data_setter : pres.

Ltac frame_assign :=
  apply preserves_assign; intros ?; repeat split.

(** One step through a method body. *)
Ltac pres_step :=
  match goal with
  | |- preserves (bind _ _) => apply preserves_bind; [|intros ?]
  | |- preserves (assign _) => frame_assign
  | |- preserves (match ?x with _ => _ end) => destruct x
  | |- preserves _ => solve [auto with pres]
  end.

Ltac pres := repeat pres_step.

Lemma preserves_stft_data_setter (value : pyobj A) :
  preserves (stft_data_setter value).
Proof. unfold stft_data_setter. pres. Qed.

Lemma preserves_stft_params_setter (sp : SciPy A) (value : params_arg) :
  preserves (stft_params_setter sp value).
Proof. unfold stft_params_setter. destruct value; pres. Qed.

Lemma preserves_load_audio_from_array (a : ndarray A) (sr : option Z) :
  preserves (load_audio_from_array a sr).
Proof. unfold load_audio_from_array. pres. Qed.

Lemma preserves_istft (sp : SciPy A) (wl hl : option Z) (wt : option string)
  (overwrite : bool) (t : option Z) :
  preserves (bind (istft sp wl hl wt overwrite t) (fun _ => ret tt)).
Proof. unfold istft. pres. Qed.

Lemma preserves_concat (o : AudioSignal A) : preserves (concat o).
Proof. unfold concat, _verify_audio. pres. Qed.

Lemma preserves_truncate_samples (n : Z) : preserves (truncate_samples (A := A) n).
Proof. unfold truncate_samples. pres. Qed.

Lemma preserves_truncate_seconds (x : Q) : preserves (truncate_seconds (A := A) x).
Proof.
  unfold truncate_seconds. pres. apply preserves_truncate_samples.
Qed.

Lemma preserves_crop_signal (b a : Z) : preserves (crop_signal (A := A) b a).
Proof. unfold crop_signal. pres. Qed.

Lemma preserves_zero_pad (b a : Z) : preserves (zero_pad (A := A) b a).
Proof. unfold zero_pad. pres. Qed.

Lemma preserves_apply_gain (v : pyobj A) : preserves (apply_gain v).
Proof. unfold apply_gain. pres. Qed.

Lemma preserves_itruediv (v : pyobj A) : preserves (__itruediv__ v).
Proof.
  unfold __itruediv__, __idiv__. pres. apply preserves_apply_gain.
Qed.

Lemma preserves_run (sp : SciPy A) (c : call) : preserves (run sp c).
Proof.
  destruct c; simpl;
    auto using preserves_stft_data_setter, preserves_stft_params_setter,
      preserves_load_audio_from_array, preserves_istft, preserves_concat,
      preserves_truncate_samples, preserves_truncate_seconds,
      preserves_crop_signal, preserves_zero_pad, preserves_apply_gain,
      preserves_itruediv with pres.
Qed.

Lemma preserves_init (sp : SciPy A) (a d : option (ndarray A))
  (l : option string) (sr : option Z) (p : params_arg) :
  preserves (__init__ sp a d l sr p).
Proof.
  unfold __init__.
  destruct a, d; pres;
    auto using preserves_load_audio_from_array, preserves_stft_data_setter,
      preserves_stft_params_setter.
Qed.

Lemma blank_clamped (l : option string) : region_clamped (blank (A := A) l).
Proof. intros n Hn. discriminate. Qed.

(** The clamped bounds hold in every state an object can be in. *)
Lemma reachable_clamped (sp : SciPy A) (s : AudioSignal A) :
  reachable sp s -> region_clamped s.
Proof.
  induction 1 as [a d l sr p s Hinit | s c s' r _ IH Hrun].
  - eapply preserves_init; [apply blank_clamped | exact Hinit].
  - eapply preserves_run; eassumption.
Qed.

(** What [set_active_region] stores when there is audio data. *)
Lemma set_active_region_stores (s : AudioSignal A) (a : ndarray A)
  (c n : nat) (start end_ : Z) :
  _audio_data s = Some a -> shape a = [c; n] ->
  set_active_region start end_ s =
    (with_active_end (Some (Z.min end_ (Z.of_nat n)))
       (with_active_start (Some (Z.max 0 start)) s), Ok tt).
Proof.
  intros Ha Hs. unfold set_active_region. unfold_m. simpl.
  unfold _signal_length. simpl. rewrite Ha. unfold shape_at. rewrite Hs. simpl.
  replace (if (0 <=? start)%Z then start else 0%Z) with (Z.max 0 start)
    by (destruct (Z.leb_spec 0 start); lia).
  replace (if (end_ <? Z.of_nat n)%Z then end_ else Z.of_nat n)
    with (Z.min end_ (Z.of_nat n))
    by (destruct (Z.ltb_spec end_ (Z.of_nat n)); lia).
  reflexivity.
Qed.

(** C5, as the code has it. In every state an object can reach, if there
    is audio data of total length [n] then [0 <= _active_start] and
    [_active_end <= n].  [set_active_region(start, end)] stores
    [max(0, start)] and [min(end, n)] and leaves the audio data alone;
    the two bounds it stores are in order exactly when
    [max(0, start) <= min(end, n)], which nothing enforces. *)
Theorem active_region_clamped (sp : SciPy A) :
  (forall s, reachable sp s -> region_clamped s) /\
  (forall (s : AudioSignal A) a c n start end_,
     _audio_data s = Some a -> shape a = [c; n] ->
     exists s', set_active_region start end_ s = (s', Ok tt) /\
       _active_start s' = Some (Z.max 0 start) /\
       _active_end s' = Some (Z.min end_ (Z.of_nat n)) /\
       _audio_data s' = Some a /\
       (region_ordered s' <->
          (Z.max 0 start <= Z.min end_ (Z.of_nat n))%Z)).
Proof.
  split; [apply reachable_clamped|].
  intros s a c n start end_ Ha Hs.
  rewrite (set_active_region_stores s a c n start end_ Ha Hs).
  eexists. split; [reflexivity|]. simpl. repeat split; [assumption| |].
  - intros Hord. destruct (Hord (Z.of_nat n)) as [b [e [Hb [He Hr]]]].
    + unfold _signal_length. simpl. rewrite Ha. unfold shape_at.
      rewrite Hs. reflexivity.
    + simpl in Hb, He. inversion Hb; inversion He; subst. lia.
  - intros Hle m Hm. unfold _signal_length in Hm. simpl in Hm.
    rewrite Ha in Hm. unfold shape_at in Hm. rewrite Hs in Hm. simpl in Hm.
    inversion Hm; subst. simpl. eexists _, _. repeat split; lia.
Qed.

End RegionFacts.

(* ===================================================================== *)
(** * Gain *)
(* ===================================================================== *)

Section GainFacts.
Context {A : Type} `{Scalar A}.
Import Np.

Lemma default_region_is_default (s : AudioSignal A) (v : ndarray A)
  (c n : nat) :
  shape v = [c; n] ->
  active_region_is_default
    (with_active_end (Some (Z.of_nat n))
       (with_active_start (Some 0%Z) (with_audio_data (Some v) s)))
  = Ok true.
Proof.
  intros Hs. unfold active_region_is_default, _signal_length. simpl.
  unfold shape_at. rewrite Hs. simpl.
  rewrite bool_decide_eq_true_2 by reflexivity. reflexivity.
Qed.

(** C8, as the code has it. [apply_gain] multiplies what the getter
    returns, the active slice of [c] channels and [k] samples, and hands
    the product to the setter: the samples outside the region are gone
    and the region is the default one again.  When [c <= k] the product
    is stored as it is and the total length is [k], the length of the
    former region; when [k < c] the setter stores the transpose and the
    total length is [c]. *)
Theorem apply_gain_keeps_active_slice (s : AudioSignal A) (value : pyobj A)
  (g : A) (v : ndarray A) (c k : nat) :
  audio_data s = Ok (Some v) -> shape v = [c; k] ->
  as_real value = Some g ->
  isfinite_all (scale v g) = true ->
  exists s', apply_gain value s = (s', Ok tt) /\
    active_region_is_default s' = Ok true /\
    (c <= k ->
       _audio_data s' = Some (scale v g) /\
       _signal_length s' = Ok (Some (Z.of_nat k))) /\
    (k < c ->
       _audio_data s' = Some (transpose (scale v g)) /\
       _signal_length s' = Ok (Some (Z.of_nat c))).
Proof.
  intros Hv Hs Hg Hfin. unfold apply_gain. rewrite Hg.
  unfold bind at 1. unfold read at 1. rewrite Hv.
  assert (Hs' : shape (scale v g) = [c; k]) by exact Hs.
  rewrite (audio_data_setter_matrix s (scale v g) c k Hfin Hs').
  destruct (Nat.ltb_spec k c) as [Hlt|Hle].
  - destruct (transpose_matrix (scale v g) c k Hs') as [Ht _].
    eexists. split; [reflexivity|].
    split; [apply (default_region_is_default s _ k c Ht)|].
    split; [lia|]. intros _. split; [reflexivity|].
    unfold _signal_length, shape_at. simpl. rewrite Hs. reflexivity.
  - eexists. split; [reflexivity|].
    split; [apply (default_region_is_default s _ c k Hs')|].
    split; [|lia]. intros _. split; [reflexivity|].
    unfold _signal_length, shape_at. simpl. rewrite Hs. reflexivity.
Qed.

End GainFacts.

(* ===================================================================== *)
(** * The inverse transform *)
(* ===================================================================== *)

Section InverseFacts.
Context {A : Type} `{Scalar A}.
Import Np.

Lemma length_concat_rows (rows : list (list A)) (n : nat) :
  forallb (fun x => length x =? n) rows = true ->
  length (List.concat rows) = length rows * n.
Proof.
  induction rows as [|r rows IH]; simpl; [reflexivity|].
  intros Hall. apply andb_true_iff in Hall. destruct Hall as [Hr Hall].
  apply Nat.eqb_eq in Hr. rewrite length_app, IH by assumption. lia.
Qed.

(** What [np.array] makes of the channels, after the axis that an empty
    list lacks has been added: a well-formed matrix. *)
Lemma array_of_rows_matrix (rows : list (list A)) (c : ndarray A) :
  array_of_rows rows = Ok c ->
  exists r n,
    shape (if decide (ndim c = 1) then expand_dims c (ndim c) else c)
      = [r; n] /\
    well_formed (if decide (ndim c = 1) then expand_dims c (ndim c) else c).
Proof.
  unfold array_of_rows. destruct rows as [|r rows].
  - intros Hc. inversion Hc; subst. exists 0, 1. split; reflexivity.
  - destruct (forallb _ _) eqn:Hall; [|discriminate].
    intros Hc. inversion Hc; subst.
    pose proof (length_concat_rows (r :: rows) (length r) Hall) as Hlen.
    simpl in Hlen |- *.
    exists (S (length rows)), (length r). split; [reflexivity|].
    unfold well_formed. simpl. lia.
Qed.

Lemma istft_calculate_matrix (sp : SciPy A) (wl hl : option Z)
  (wt : option string) (s : AudioSignal A) (c : ndarray A) :
  istft_calculate sp wl hl wt s = Ok c ->
  exists r n, shape c = [r; n] /\ well_formed c.
Proof.
  unfold istft_calculate, rbind.
  repeat match goal with
         | |- context [match ?x with _ => _ end] =>
             match x with
             | array_of_rows _ => fail 1
             | _ => destruct x; try discriminate
             end
         end.
  destruct (array_of_rows _) as [c0|] eqn:Hrows; [|discriminate].
  intros Hc. inversion Hc; subst. eapply array_of_rows_matrix; eassumption.
Qed.

(** The first [t] columns of a matrix, for a positive [t]. *)
Lemma slice_cols_prefix (c : ndarray A) (r n : nat) (t : Z) :
  shape c = [r; n] -> (0 < t)%Z ->
  exists v, slice_cols c 0 t = Ok v /\
    shape v = [r; Nat.min (Z.to_nat t) n] /\
    forall i j, i < r -> j < Nat.min (Z.to_nat t) n ->
      get v [i; j] = get c [i; j].
Proof.
  intros Hs Ht. unfold slice_cols. rewrite Hs.
  assert (Hb : slice_bounds n 0 t = (0, Nat.min (Z.to_nat t) n)).
  { unfold slice_bounds, slice_index. simpl.
    destruct (Z.ltb_spec t 0); [lia|]. f_equal; lia. }
  rewrite Hb. eexists. split; [reflexivity|]. split; [reflexivity|].
  intros i j Hi Hj. rewrite get_tabulate by (apply valid2; assumption).
  reflexivity.
Qed.

Lemma slice_cols_finite (c v : ndarray A) (r n : nat) (b e : Z) :
  shape c = [r; n] -> well_formed c -> isfinite_all c = true ->
  slice_cols c b e = Ok v -> isfinite_all v = true.
Proof.
  intros Hs Hwf Hfin. unfold slice_cols. rewrite Hs.
  pose proof (slice_bounds_le n b e) as Hle.
  destruct (slice_bounds n b e) as [lo len]. simpl in Hle.
  intros Hv. inversion Hv; subst. unfold isfinite_all.
  apply forallb_forall. apply List.Forall_forall. apply Forall_tabulate.
  intros idx Hidx. unfold valid in Hidx.
  inversion Hidx as [|i d is_ ds Hi Hrest]; subst.
  inversion Hrest as [|j d' js ds' Hj Hnil]; subst.
  inversion Hnil; subst.
  unfold isfinite_all in Hfin.
  apply (proj1 (forallb_forall _ _) Hfin).
  apply get_In; [assumption|]. rewrite Hs. apply valid2; lia.
Qed.

Lemma audio_data_setter_finite_matrix (s : AudioSignal A) (v : ndarray A)
  (r n : nat) :
  isfinite_all v = true -> shape v = [r; n] ->
  snd (audio_data_setter (VArray v) s) = Ok tt.
Proof.
  intros Hfin Hs. rewrite (audio_data_setter_matrix s v r n Hfin Hs).
  destruct (n <? r); reflexivity.
Qed.

Lemma signal_length_None_original (s : AudioSignal A) (len : option Z) :
  signal_length s = Ok len ->
  match len with
  | Some _ => Ok (T := option Z) len
  | None => Ok (original_signal_length s)
  end = Ok len.
Proof.
  destruct len; [reflexivity|].
  unfold signal_length. destruct (audio_data s) as [[v|]|]; simpl;
    try discriminate.
  - destruct (shape_at v LEN_INDEX); discriminate.
  - intros Hn. exact Hn.
Qed.

(** [istft] with no length given, once the length [len] it settles on
    is known. *)
Lemma istft_returns (sp : SciPy A) (wl hl : option Z) (wt : option string)
  (overwrite : bool) (s : AudioSignal A) (c out : ndarray A)
  (len : option Z) :
  istft_calculate sp wl hl wt s = Ok c ->
  isfinite_all c = true ->
  signal_length s = Ok len ->
  match len with
  | Some t => if (0 <? t)%Z then slice_cols c 0 t else Ok c
  | None => Ok c
  end = Ok out ->
  snd (istft sp wl hl wt overwrite None s) = Ok out.
Proof.
  intros Hc Hfin Hlen Hout.
  destruct (istft_calculate_matrix sp wl hl wt s c Hc) as [r [n [Hs Hwf]]].
  assert (Hofin : isfinite_all out = true /\ exists r' n', shape out = [r'; n']).
  { destruct len as [t|]; [destruct (0 <? t)%Z eqn:Ht|].
    - split; [eapply slice_cols_finite; eassumption|].
      unfold slice_cols in Hout. rewrite Hs in Hout.
      destruct (slice_bounds n 0 t). inversion Hout; subst.
      eexists _, _. reflexivity.
    - inversion Hout; subst. eauto.
    - inversion Hout; subst. eauto. }
  destruct Hofin as [Hofin [r' [n' Hos]]].
  unfold istft. unfold_m. rewrite Hc.
  unfold istft_truncate_to_length. rewrite Hlen.
  cbn -[audio_data_setter slice_cols].
  rewrite (signal_length_None_original s len Hlen).
  rewrite Hout.
  destruct (audio_data s) as [a|e] eqn:Ha.
  - destruct (overwrite || bool_decide (a = None)).
    + pose proof (audio_data_setter_finite_matrix s out r' n' Hofin Hos) as Hset.
      destruct (audio_data_setter (VArray out) s) as [s1 res].
      simpl in Hset. subst res. reflexivity.
    + reflexivity.
  - unfold signal_length in Hlen. rewrite Ha in Hlen. discriminate.
Qed.

Lemma istft_cut (sp : SciPy A) (wl hl : option Z) (wt : option string)
  (overwrite : bool) (s : AudioSignal A) (c : ndarray A) (r n : nat) (t : Z) :
  istft_calculate sp wl hl wt s = Ok c -> shape c = [r; n] ->
  isfinite_all c = true ->
  signal_length s = Ok (Some t) ->
  ((0 < t)%Z ->
     exists v, snd (istft sp wl hl wt overwrite None s) = Ok v /\
       shape v = [r; Nat.min (Z.to_nat t) n] /\
       forall i j, i < r -> j < Nat.min (Z.to_nat t) n ->
         get v [i; j] = get c [i; j]) /\
  ((t <= 0)%Z -> snd (istft sp wl hl wt overwrite None s) = Ok c).
Proof.
  intros Hc Hs Hfin Hlen. split; intros Ht.
  - destruct (slice_cols_prefix c r n t Hs Ht) as [v [Hv [Hvs Hvg]]].
    exists v. split; [|split; assumption].
    apply (istft_returns sp wl hl wt overwrite s c v (Some t)); try assumption.
    destruct (Z.ltb_spec 0 t); [assumption|lia].
  - apply (istft_returns sp wl hl wt overwrite s c c (Some t)); try assumption.
    destruct (Z.ltb_spec 0 t); [lia|reflexivity].
Qed.

(** C6, as the code has it. With no length given, [istft] cuts the
    reconstructed signal [c] (finite, [r] channels of [n] samples) to the
    number of samples the [audio_data] getter lets through when there is
    audio data, and to [original_signal_length] when there is none and
    that length is recorded; but only when the length is positive.  A
    length of zero, like no length at all, leaves the signal uncut. *)
Theorem istft_truncation_policy (sp : SciPy A) (wl hl : option Z)
  (wt : option string) (overwrite : bool) (s : AudioSignal A)
  (c : ndarray A) (r n : nat) :
  istft_calculate sp wl hl wt s = Ok c -> shape c = [r; n] ->
  isfinite_all c = true ->
  (forall a k,
     _audio_data s = Some a -> signal_length s = Ok (Some k) ->
     ((0 < k)%Z ->
        exists v, snd (istft sp wl hl wt overwrite None s) = Ok v /\
          shape v = [r; Nat.min (Z.to_nat k) n] /\
          forall i j, i < r -> j < Nat.min (Z.to_nat k) n ->
            get v [i; j] = get c [i; j]) /\
     ((k <= 0)%Z -> snd (istft sp wl hl wt overwrite None s) = Ok c)) /\
  (forall l,
     _audio_data s = None -> original_signal_length s = Some l ->
     ((0 < l)%Z ->
        exists v, snd (istft sp wl hl wt overwrite None s) = Ok v /\
          shape v = [r; Nat.min (Z.to_nat l) n] /\
          forall i j, i < r -> j < Nat.min (Z.to_nat l) n ->
            get v [i; j] = get c [i; j]) /\
     ((l <= 0)%Z -> snd (istft sp wl hl wt overwrite None s) = Ok c)) /\
  (_audio_data s = None -> original_signal_length s = None ->
   snd (istft sp wl hl wt overwrite None s) = Ok c).
Proof.
  intros Hc Hs Hfin. split; [|split].
  - intros a k _ Hlen. apply (istft_cut sp wl hl wt overwrite s c r n k);
      assumption.
  - intros l Hnone Hl. apply (istft_cut sp wl hl wt overwrite s c r n l);
      try assumption.
    rewrite (signal_length_no_audio s Hnone). f_equal. assumption.
  - intros Hnone Hl.
    apply (istft_returns sp wl hl wt overwrite s c c None); try assumption.
    + rewrite (signal_length_no_audio s Hnone). f_equal. assumption.
    + reflexivity.
Qed.

End InverseFacts.

(* ===================================================================== *)
(** * Checks that are made, and checks that are not *)
(* ===================================================================== *)

Section CheckFacts.
Context {A : Type} `{Scalar A}.
Import Np.

(** C1. The setter stores the filled triple and then calls
    [check_COLA]; when the answer is that the triple is not COLA, the
    assignment succeeds all the same. *)
Theorem stft_params_setter_accepts_non_cola (sp : SciPy A)
  (s : AudioSignal A) (d p : STFTParams) (wl hl : Z) (wt : string) :
  default_stft_params s = Ok d ->
  fill (window_length p) (window_length d) = Some wl ->
  fill (hop_length p) (hop_length d) = Some hl ->
  fill (window_type p) (window_type d) = Some wt ->
  check_COLA sp (if String.eqb wt "sqrt_hann" then WINDOW_HANN else wt)
    wl hl = Ok false ->
  stft_params_setter sp (PParams p) s =
    (with_stft_params (Some (mkSTFTParams (Some wl) (Some hl) (Some wt))) s,
     Ok tt).
Proof.
  intros Hd Hwl Hhl Hwt Hcola. unfold stft_params_setter. unfold_m.
  rewrite Hd. simpl. rewrite Hwl, Hhl, Hwt.
  rewrite Hcola. reflexivity.
Qed.

(** [a * b] on arrays of one shape. *)
Lemma broadcast_rev_same (s : list nat) : broadcast_rev s s = Some s.
Proof.
  induction s as [|d ds IH]; simpl; [reflexivity|].
  rewrite IH. destruct (decide (d = d)); [reflexivity|congruence].
Qed.

Lemma broadcast_shapes_same (s : list nat) : broadcast_shapes s s = Some s.
Proof.
  unfold broadcast_shapes. rewrite broadcast_rev_same, rev_involutive.
  reflexivity.
Qed.

Lemma broadcast_index_same (s idx : list nat) :
  valid s idx -> broadcast_index s idx = idx.
Proof.
  intros Hv. unfold broadcast_index.
  assert (Hlen : length idx = length s) by (eapply Forall2_length; exact Hv).
  rewrite Hlen, Nat.sub_diag, drop_0.
  unfold valid in Hv. induction Hv as [|i d is_ ds Hi _ IH]; simpl;
    [reflexivity|].
  rewrite IH by (simpl in Hlen; lia).
  destruct (decide (d = 1)); [f_equal; lia|reflexivity].
Qed.

Lemma binop_same_shape (f : A -> A -> A) (a b : ndarray A) :
  shape a = shape b ->
  exists v, binop f a b = Ok v /\ shape v = shape a /\
    forall idx, valid (shape a) idx ->
      get v idx = f (get a idx) (get b idx).
Proof.
  intros Hs. unfold binop. rewrite <- Hs, broadcast_shapes_same.
  eexists. split; [reflexivity|]. split; [reflexivity|].
  intros idx Hv. rewrite get_tabulate by assumption.
  rewrite broadcast_index_same by assumption. reflexivity.
Qed.

End CheckFacts.

Section MaskFacts.
Context {A : Type} `{Scalar A}.
Import Np.

Lemma stft_data_setter_spectrogram (s : AudioSignal A) (v : ndarray A)
  (F T C : nat) :
  shape v = [F; T; C] ->
  stft_data_setter (VArray v) s = (with_stft_data (Some v) s, Ok tt).
Proof.
  intros Hs. unfold stft_data_setter, ndim. rewrite Hs. simpl.
  destruct (decide (3 = 1)); [lia|].
  destruct (decide (3 = 2)); [lia|].
  rewrite Hs. reflexivity.
Qed.

(** A mask of the shape of the spectrogram is applied: with
    [overwrite], the object keeps its place and its spectrogram becomes
    the product, entry by entry. *)
Lemma apply_mask_same_shape (h : gmap loc (AudioSignal A)) (self : loc)
  (s : AudioSignal A) (d m : ndarray A) (F T C : nat) :
  h !! self = Some s -> stft_data s = Some d ->
  shape d = [F; T; C] -> shape m = [F; T; C] ->
  exists v, binop s_mul d m = Ok v /\ shape v = [F; T; C] /\
    (forall idx, valid [F; T; C] idx ->
       get v idx = s_mul (get d idx) (get m idx)) /\
    apply_mask self (VMask m) true h =
      (<[self := with_stft_data (Some v) s]> h, Ok VNone).
Proof.
  intros Hself Hd Hsd Hsm.
  destruct (binop_same_shape s_mul d m) as [v [Hv [Hvs Hvg]]];
    [congruence|].
  exists v. rewrite Hsd in Hvs, Hvg. repeat split; try assumption.
  unfold apply_mask. unfold_st. rewrite Hself, Hd.
  rewrite Hsm, Hsd. rewrite bool_decide_eq_true_2 by reflexivity.
  cbn [negb andb]. rewrite Hv.
  rewrite (on_lookup h self s) by assumption.
  rewrite (stft_data_setter_spectrogram s v F T C Hvs). reflexivity.
Qed.

(** A mask with one channel too many is refused. *)
Lemma apply_mask_extra_channel (h : gmap loc (AudioSignal A)) (self : loc)
  (s : AudioSignal A) (d m : ndarray A) (F T C : nat) (overwrite : bool) :
  h !! self = Some s -> stft_data s = Some d ->
  shape d = [F; T; C] -> shape m = [F; T; S C] ->
  apply_mask self (VMask m) overwrite h = (h, Raise AudioSignalException).
Proof.
  intros Hself Hd Hsd Hsm. unfold apply_mask. unfold_st.
  rewrite Hself, Hd, Hsm, Hsd. simpl.
  rewrite !bool_decide_eq_false_2; [reflexivity| |]; intros Heq;
    inversion Heq; lia.
Qed.

(** So is a mask of a single channel against a spectrogram of several,
    which is what a mask of shape [(F, T)] becomes if its class adds the
    channel axis. *)
Lemma apply_mask_single_channel (h : gmap loc (AudioSignal A)) (self : loc)
  (s : AudioSignal A) (d m : ndarray A) (F T C : nat) (overwrite : bool) :
  h !! self = Some s -> stft_data s = Some d ->
  shape d = [F; T; C] -> shape m = [F; T; 1] -> C <> 1 ->
  apply_mask self (VMask m) overwrite h = (h, Raise AudioSignalException).
Proof.
  intros Hself Hd Hsd Hsm HC. unfold apply_mask. unfold_st.
  rewrite Hself, Hd, Hsm, Hsd. simpl.
  rewrite !bool_decide_eq_false_2; [reflexivity| |]; intros Heq;
    inversion Heq; congruence.
Qed.

(** C2. A mask that matches the spectrogram in all but the channel axis
    is refused as well: the second comparison drops the last entry of
    the mask's shape, not of the spectrogram's. *)
Theorem apply_mask_rejects_channel_broadcast (h : gmap loc (AudioSignal A))
  (self : loc) (s : AudioSignal A) (d m : ndarray A) (F T C : nat)
  (overwrite : bool) :
  h !! self = Some s -> stft_data s = Some d ->
  shape d = [F; T; C] -> shape m = [F; T] ->
  apply_mask self (VMask m) overwrite h = (h, Raise AudioSignalException).
Proof.
  intros Hself Hd Hsd Hsm. unfold apply_mask. unfold_st.
  rewrite Hself, Hd, Hsm, Hsd. simpl.
  rewrite !bool_decide_eq_false_2; [reflexivity| |]; intros Heq;
    inversion Heq.
Qed.

End MaskFacts.

(* ===================================================================== *)
(** * Mutators and the active region *)
(* ===================================================================== *)

Section GuardFacts.
Context {A : Type} `{Scalar A}.
Import Np.

(** Four of the mutators look at the active region first. *)
Lemma truncate_samples_guard (s : AudioSignal A) (n_samples : Z) :
  active_region_is_default s = Ok false ->
  truncate_samples n_samples s = (s, Raise AudioSignalException).
Proof. intros Hd. unfold truncate_samples. unfold_m. rewrite Hd. reflexivity. Qed.

Lemma truncate_seconds_guard (s : AudioSignal A) (n_seconds : Q) (sr : Z) :
  sample_rate s = Some sr ->
  active_region_is_default s = Ok false ->
  truncate_seconds n_seconds s = (s, Raise AudioSignalException).
Proof.
  intros Hsr Hd. unfold truncate_seconds. unfold_m. rewrite Hsr.
  apply truncate_samples_guard, Hd.
Qed.

Lemma crop_signal_guard (s : AudioSignal A) (before after : Z) :
  active_region_is_default s = Ok false ->
  crop_signal before after s = (s, Raise AudioSignalException).
Proof. intros Hd. unfold crop_signal. unfold_m. rewrite Hd. reflexivity. Qed.

Lemma zero_pad_guard (s : AudioSignal A) (before after : Z) :
  active_region_is_default s = Ok false ->
  zero_pad before after s = (s, Raise AudioSignalException).
Proof. intros Hd. unfold zero_pad. unfold_m. rewrite Hd. reflexivity. Qed.

(** The channel count and the length of what the getter returns. *)
Lemma num_channels_audio (s : AudioSignal A) (a : ndarray A) (c k : nat) :
  audio_data s = Ok (Some a) -> shape a = [c; k] ->
  num_channels s = Ok (Some (Z.of_nat c)) /\
  signal_length s = Ok (Some (Z.of_nat k)).
Proof.
  intros Ha Hs. unfold num_channels, signal_length. rewrite Ha.
  simpl. unfold shape_at. rewrite Hs. split; reflexivity.
Qed.

Lemma _verify_audio_ok (s o : AudioSignal A) (a b : ndarray A)
  (c k k' : nat) :
  audio_data s = Ok (Some a) -> shape a = [c; k] ->
  audio_data o = Ok (Some b) -> shape b = [c; k'] ->
  sample_rate s = sample_rate o ->
  _verify_audio o s = (s, Ok tt).
Proof.
  intros Ha Hsa Hb Hsb Hsr.
  destruct (num_channels_audio s a c k Ha Hsa) as [Hn _].
  destruct (num_channels_audio o b c k' Hb Hsb) as [Hm _].
  unfold _verify_audio. unfold_m. rewrite Hn, Hm.
  rewrite bool_decide_eq_true_2 by reflexivity. simpl.
  rewrite bool_decide_eq_true_2 by assumption. reflexivity.
Qed.

Lemma _verify_audio_arithmetic_ok (s o : AudioSignal A) (a b : ndarray A)
  (c k : nat) :
  audio_data s = Ok (Some a) -> shape a = [c; k] ->
  audio_data o = Ok (Some b) -> shape b = [c; k] ->
  sample_rate s = sample_rate o ->
  _verify_audio_arithmetic o s = (s, Ok tt).
Proof.
  intros Ha Hsa Hb Hsb Hsr.
  destruct (num_channels_audio s a c k Ha Hsa) as [_ Hn].
  destruct (num_channels_audio o b c k Hb Hsb) as [_ Hm].
  unfold _verify_audio_arithmetic. unfold bind at 1.
  rewrite (_verify_audio_ok s o a b c k k Ha Hsa Hb Hsb Hsr).
  unfold_m. rewrite Hn, Hm.
  rewrite bool_decide_eq_true_2 by reflexivity. reflexivity.
Qed.

(** Joining two matrices of [c] rows, entry by entry. *)
Lemma concatenate1_matrix (a b : ndarray A) (c k k' : nat) :
  shape a = [c; k] -> shape b = [c; k'] ->
  exists v, concatenate1 a b = Ok v /\ shape v = [c; k + k'] /\
    forall i j, i < c -> j < k + k' ->
      get v [i; j] = if j <? k then get a [i; j] else get b [i; j - k].
Proof.
  intros Ha Hb. unfold concatenate1. rewrite Ha, Hb.
  destruct (decide (c = c /\ [] = [])) as [_|Hn]; [|exfalso; auto].
  eexists. split; [reflexivity|]. split; [reflexivity|].
  intros i j Hi Hj. rewrite get_tabulate by (apply valid2; assumption).
  reflexivity.
Qed.

Lemma concatenate1_finite (a b v : ndarray A) (c k k' : nat) :
  shape a = [c; k] -> shape b = [c; k'] ->
  well_formed a -> well_formed b ->
  isfinite_all a = true -> isfinite_all b = true ->
  concatenate1 a b = Ok v -> isfinite_all v = true.
Proof.
  intros Ha Hb Hwa Hwb Hfa Hfb. unfold concatenate1. rewrite Ha, Hb.
  destruct (decide (c = c /\ [] = [])) as [_|Hn]; [|exfalso; auto].
  intros Hv. inversion Hv; subst. unfold isfinite_all in *.
  apply forallb_forall. apply List.Forall_forall. apply Forall_tabulate.
  intros idx Hidx. unfold valid in Hidx.
  inversion Hidx as [|i d is_ ds Hi Hrest]; subst.
  inversion Hrest as [|j d' js ds' Hj Hnil]; subst.
  inversion Hnil; subst.
  destruct (Nat.ltb_spec j k).
  - apply (proj1 (forallb_forall _ _) Hfa).
    apply get_In; [assumption|]. rewrite Ha. apply valid2; lia.
  - apply (proj1 (forallb_forall _ _) Hfb).
    apply get_In; [assumption|]. rewrite Hb. apply valid2; lia.
Qed.

(** Once the two signals agree on channels and rate, [concat] is the
    setter applied to the joined slices. *)
Lemma concat_run (s o : AudioSignal A) (a b v : ndarray A) (c k k' : nat) :
  audio_data s = Ok (Some a) -> shape a = [c; k] ->
  audio_data o = Ok (Some b) -> shape b = [c; k'] ->
  sample_rate s = sample_rate o ->
  concatenate1 a b = Ok v ->
  concat o s = audio_data_setter (VArray v) s.
Proof.
  intros Ha Hsa Hb Hsb Hsr Hv.
  unfold concat. unfold bind at 1.
  rewrite (_verify_audio_ok s o a b c k k' Ha Hsa Hb Hsb Hsr).
  unfold bind at 1. unfold read at 1. rewrite Ha.
  unfold bind at 1. unfold lift at 1. rewrite Hb.
  unfold bind at 1. unfold lift at 1. rewrite Hv. reflexivity.
Qed.

(** C3. [concat] does not look at the active region. On an object whose
    region is not the default one it joins what the two getters return,
    [k] and [k'] samples of [c] channels, stores the result and resets
    the region: it returns, and the total length is [k + k']. *)
Theorem concat_ignores_active_region (s o : AudioSignal A)
  (a b : ndarray A) (c k k' : nat) :
  active_region_is_default s = Ok false ->
  audio_data s = Ok (Some a) -> shape a = [c; k] ->
  audio_data o = Ok (Some b) -> shape b = [c; k'] ->
  sample_rate s = sample_rate o ->
  well_formed a -> well_formed b ->
  isfinite_all a = true -> isfinite_all b = true ->
  c <= k + k' ->
  exists s' v, concat o s = (s', Ok tt) /\
    _audio_data s' = Some v /\ shape v = [c; k + k'] /\
    (forall i j, i < c -> j < k + k' ->
       get v [i; j] = if j <? k then get a [i; j] else get b [i; j - k]) /\
    _signal_length s' = Ok (Some (Z.of_nat (k + k'))) /\
    active_region_is_default s' = Ok true.
Proof.
  intros _ Ha Hsa Hb Hsb Hsr Hwa Hwb Hfa Hfb Hck.
  destruct (concatenate1_matrix a b c k k' Hsa Hsb) as [v [Hv [Hvs Hvg]]].
  pose proof (concatenate1_finite a b v c k k' Hsa Hsb Hwa Hwb Hfa Hfb Hv)
    as Hfin.
  rewrite (concat_run s o a b v c k k' Ha Hsa Hb Hsb Hsr Hv).
  rewrite (audio_data_setter_matrix s v c (k + k') Hfin Hvs).
  destruct (Nat.ltb_spec (k + k') c); [lia|].
  eexists _, v. split; [reflexivity|]. simpl.
  repeat split; try assumption.
  - unfold _signal_length, shape_at. simpl. rewrite Hvs. reflexivity.
  - apply (default_region_is_default s v c (k + k') Hvs).
Qed.

End GuardFacts.

(* ===================================================================== *)
(** * Arithmetic *)
(* ===================================================================== *)

Section ArithmeticFacts.
Context {A : Type} `{Scalar A}.
Import Np.

Lemma deref_lookup (h : gmap loc (AudioSignal A)) (l : loc)
  (s : AudioSignal A) :
  h !! l = Some s -> deref l h = (h, Ok s).
Proof. intros Hl. unfold deref. rewrite Hl. reflexivity. Qed.

Lemma sum_audio_data_matrix (s o : AudioSignal A) (a b : ndarray A)
  (c k : nat) :
  audio_data s = Ok (Some a) -> shape a = [c; k] ->
  audio_data o = Ok (Some b) -> shape b = [c; k] ->
  exists v, sum_audio_data s o = Ok v /\ shape v = [c; k] /\
    forall i j, i < c -> j < k ->
      get v [i; j] = s_add (get a [i; j]) (get b [i; j]).
Proof.
  intros Ha Hsa Hb Hsb.
  destruct (binop_same_shape s_add a b) as [v [Hv [Hvs Hvg]]];
    [congruence|].
  exists v. unfold sum_audio_data. rewrite Ha, Hb. simpl.
  split; [assumption|]. split; [congruence|].
  intros i j Hi Hj. apply Hvg. rewrite Hsa. apply valid2; assumption.
Qed.

(** C4. [add] compares channel counts, sample rates and the lengths the
    getters return; it does not look at the active region.  On a left
    operand whose region is not the default one, with [k] samples of
    [c] channels inside the region on both sides, it returns a new
    object: a copy of the left operand whose audio data are the sum of
    the two active slices.  Both operands stay as they were. *)
Theorem add_ignores_active_region (h : gmap loc (AudioSignal A))
  (self other : loc) (s o : AudioSignal A) (a b v : ndarray A) (c k : nat) :
  h !! self = Some s -> h !! other = Some o ->
  active_region_is_default s = Ok false ->
  audio_data s = Ok (Some a) -> shape a = [c; k] ->
  audio_data o = Ok (Some b) -> shape b = [c; k] ->
  sample_rate s = sample_rate o ->
  sum_audio_data s o = Ok v -> isfinite_all v = true ->
  c <= k ->
  let l := fresh (dom h) in
  add self (VRef other) h =
    (<[l := with_active_end (Some (Z.of_nat k))
              (with_active_start (Some 0%Z) (with_audio_data (Some v) s))]> h,
     Ok (VRef l)) /\
  h !! l = None /\
  shape v = [c; k] /\
  forall i j, i < c -> j < k ->
    get v [i; j] = s_add (get a [i; j]) (get b [i; j]).
Proof.
  intros Hself Hother _ Ha Hsa Hb Hsb Hsr Hv Hfin Hck l.
  destruct (sum_audio_data_matrix s o a b c k Ha Hsa Hb Hsb)
    as [v' [Hv' [Hvs Hvg]]].
  rewrite Hv in Hv'. inversion Hv'; subst v'. clear Hv'.
  assert (Hl : h !! l = None).
  { apply not_elem_of_dom. apply is_fresh. }
  repeat split; try assumption.
  assert (Hsl : self <> l) by (intros ->; congruence).
  assert (Hol : other <> l) by (intros ->; congruence).
  unfold add, signal_of, st_bind, st_ret.
  rewrite (deref_lookup h other o Hother).
  rewrite (on_lookup h self s) by assumption.
  rewrite (_verify_audio_arithmetic_ok s o a b c k Ha Hsa Hb Hsb Hsr).
  cbv beta iota. simpl fst. simpl snd. cbv beta iota.
  rewrite (insert_id h self s Hself).
  rewrite (deepcopy_lookup h self s Hself). fold l.
  rewrite (deref_lookup _ self s) by (rewrite lookup_insert_ne; congruence).
  rewrite (deref_lookup _ other o) by (rewrite lookup_insert_ne; congruence).
  rewrite Hv.
  rewrite (on_lookup _ l s) by apply lookup_insert_eq.
  rewrite (audio_data_setter_matrix s v c k Hfin Hvs).
  destruct (Nat.ltb_spec k c); [lia|]. simpl.
  rewrite insert_insert_eq. reflexivity.
Qed.

End ArithmeticFacts.


(* ===================================================================== *)
(** * Mutators on the default region *)
(* ===================================================================== *)

Section DefaultFacts.
Context {A : Type} `{Scalar A}.
Import Np.

Lemma valid2_inv (r c : nat) (idx : list nat) :
  valid [r; c] idx -> exists i j, idx = [i; j] /\ i < r /\ j < c.
Proof.
  unfold valid. intros Hidx.
  inversion Hidx as [|i d is_ ds Hi Hrest]; subst.
  inversion Hrest as [|j d' js ds' Hj Hnil]; subst.
  inversion Hnil; subst. eauto.
Qed.

(** The columns [b, e) of a matrix. *)
Lemma slice_cols_range (a : ndarray A) (c n : nat) (b e : Z) :
  shape a = [c; n] -> (0 <= b)%Z -> (b <= e)%Z -> (e <= Z.of_nat n)%Z ->
  exists v, slice_cols a b e = Ok v /\ shape v = [c; Z.to_nat (e - b)] /\
    well_formed v /\
    forall i j, i < c -> j < Z.to_nat (e - b) ->
      get v [i; j] = get a [i; Z.to_nat b + j].
Proof.
  intros Hs Hb Hbe He. unfold slice_cols. rewrite Hs.
  rewrite slice_bounds_within by assumption.
  eexists. split; [reflexivity|]. split; [reflexivity|].
  split; [apply tabulate_well_formed|].
  intros i j Hi Hj. rewrite get_tabulate by (apply valid2; assumption).
  reflexivity.
Qed.

(** With the default region the getter returns every sample. *)
Lemma audio_data_default (s : AudioSignal A) (a : ndarray A) (c n : nat) :
  active_region_is_default s = Ok true ->
  _audio_data s = Some a -> shape a = [c; n] ->
  exists v, audio_data s = Ok (Some v) /\ shape v = [c; n] /\
    well_formed v /\
    (forall i j, i < c -> j < n -> get v [i; j] = get a [i; j]) /\
    signal_length s = Ok (Some (Z.of_nat n)).
Proof.
  intros Hd Ha Hs. unfold active_region_is_default in Hd.
  destruct (bool_decide (_active_start s = Some 0%Z)) eqn:Hstart;
    [|discriminate].
  apply bool_decide_eq_true_1 in Hstart.
  unfold _signal_length in Hd. rewrite Ha in Hd. unfold shape_at in Hd.
  rewrite Hs in Hd. simpl in Hd. inversion Hd as [Hend].
  apply bool_decide_eq_true_1 in Hend.
  destruct (slice_cols_range a c n 0 (Z.of_nat n) Hs)
    as [v [Hv [Hvs [Hwf Hvg]]]]; try lia.
  replace (Z.to_nat (Z.of_nat n - 0)) with n in * by lia.
  exists v. unfold signal_length, audio_data.
  rewrite Ha, Hstart, Hend. unfold shape_at. rewrite Hs. simpl.
  rewrite Z.ltb_irrefl. rewrite Hv. simpl. rewrite Hvs. simpl.
  repeat split; try assumption.
Qed.

Lemma ravel_unravel (s : list nat) (k : nat) :
  k < prod s -> ravel s (unravel s k) = k.
Proof.
  revert k. induction s as [|d ds IH]; simpl; intros k Hk; [lia|].
  assert (Hp : prod ds <> 0) by nia.
  rewrite IH by (apply Nat.mod_upper_bound; assumption).
  rewrite Nat.mul_comm. symmetry. apply Nat.div_mod_eq.
Qed.

(** An array is finite when its entries are. *)
Lemma finite_entries (v : ndarray A) :
  well_formed v ->
  (forall idx, valid (shape v) idx -> s_isfinite (get v idx) = true) ->
  isfinite_all v = true.
Proof.
  intros Hwf Hf. unfold isfinite_all. apply forallb_forall.
  intros x Hx. apply In_nth with (d := s_zero) in Hx.
  destruct Hx as [k [Hk <-]]. rewrite Hwf in Hk.
  specialize (Hf (unravel (shape v) k) (unravel_valid _ _ Hk)).
  unfold get in Hf. rewrite ravel_unravel in Hf by assumption. exact Hf.
Qed.

Lemma finite_entry (a : ndarray A) (r c i j : nat) :
  shape a = [r; c] -> well_formed a -> isfinite_all a = true ->
  i < r -> j < c -> s_isfinite (get a [i; j]) = true.
Proof.
  intros Hs Hwf Hfin Hi Hj. unfold isfinite_all in Hfin.
  apply (proj1 (forallb_forall _ _) Hfin).
  apply get_In; [assumption|]. rewrite Hs. apply valid2; assumption.
Qed.

Lemma finite_matrix (v : ndarray A) (r c : nat) :
  shape v = [r; c] -> well_formed v ->
  (forall i j, i < r -> j < c -> s_isfinite (get v [i; j]) = true) ->
  isfinite_all v = true.
Proof.
  intros Hs Hwf Hf. apply finite_entries; [assumption|].
  rewrite Hs. intros idx Hidx.
  destruct (valid2_inv r c idx Hidx) as [i [j [-> [Hi Hj]]]]. auto.
Qed.

(** Storing a finite matrix of [c] rows and [k >= c] columns. *)
Lemma audio_data_setter_keeps (s : AudioSignal A) (w : ndarray A) (c k : nat) :
  shape w = [c; k] -> isfinite_all w = true -> c <= k ->
  exists s', audio_data_setter (VArray w) s = (s', Ok tt) /\
    _audio_data s' = Some w /\
    _signal_length s' = Ok (Some (Z.of_nat k)) /\
    active_region_is_default s' = Ok true.
Proof.
  intros Hs Hfin Hck. rewrite (audio_data_setter_matrix s w c k Hfin Hs).
  destruct (Nat.ltb_spec k c); [lia|].
  eexists. split; [reflexivity|]. split; [reflexivity|]. split.
  - unfold _signal_length, shape_at. simpl. rewrite Hs. reflexivity.
  - apply (default_region_is_default s w c k Hs).
Qed.

(** X20. [truncate_samples(m)] on the default region, for a finite
    matrix of [c] channels and [n] samples and [0 <= m] with
    [c <= min(m, n)], leaves the first [min(m, n)] samples of every
    channel, and the region is the default one again. *)
Lemma truncate_samples_default (s : AudioSignal A) (a : ndarray A)
  (c n : nat) (m : Z) :
  active_region_is_default s = Ok true ->
  _audio_data s = Some a -> shape a = [c; n] ->
  well_formed a -> isfinite_all a = true ->
  (0 <= m)%Z -> c <= Nat.min (Z.to_nat m) n ->
  exists s' w, truncate_samples m s = (s', Ok tt) /\
    _audio_data s' = Some w /\
    shape w = [c; Nat.min (Z.to_nat m) n] /\
    (forall i j, i < c -> j < Nat.min (Z.to_nat m) n ->
       get w [i; j] = get a [i; j]) /\
    _signal_length s' = Ok (Some (Z.of_nat (Nat.min (Z.to_nat m) n))) /\
    active_region_is_default s' = Ok true.
Proof.
  intros Hd Ha Hs Hwf Hfin Hm Hc.
  destruct (audio_data_default s a c n Hd Ha Hs)
    as [v [Hv [Hvs [Hvwf [Hvg Hlen]]]]].
  set (k := Nat.min (Z.to_nat m) n) in *.
  assert (Hk : (if (Z.of_nat n <? m)%Z then Z.of_nat n else m) = Z.of_nat k).
  { destruct (Z.ltb_spec (Z.of_nat n) m); unfold k; lia. }
  destruct (slice_cols_range v c n 0 (Z.of_nat k) Hvs)
    as [w [Hw [Hws [Hwwf Hwg]]]]; try (unfold k; lia).
  replace (Z.to_nat (Z.of_nat k - 0)) with k in * by lia.
  assert (Hwfin : isfinite_all w = true).
  { apply (finite_matrix w c k Hws Hwwf). intros i j Hi Hj.
    rewrite Hwg by assumption. simpl. rewrite Hvg by (unfold k in *; lia).
    apply (finite_entry a c n); try assumption. unfold k in *; lia. }
  destruct (audio_data_setter_keeps s w c k Hws Hwfin Hc)
    as [s' [Hset [Hdata [Hsl Hdef]]]].
  exists s', w. unfold truncate_samples. unfold_m.
  rewrite Hd. cbv beta iota delta [negb].
  rewrite Hlen. cbv beta iota. rewrite Hv. cbv beta iota.
  rewrite Hk, Hw. cbv beta iota.
  repeat split; try assumption.
  intros i j Hi Hj. rewrite Hwg by assumption. simpl.
  apply Hvg; [assumption|]. unfold k in *; lia.
Qed.

(** [crop_signal(before, after)] on the default region removes
    [before + after] samples. *)
Lemma crop_signal_default (s : AudioSignal A) (a : ndarray A)
  (c n : nat) (before after : Z) :
  active_region_is_default s = Ok true ->
  _audio_data s = Some a -> shape a = [c; n] ->
  well_formed a -> isfinite_all a = true ->
  (0 <= before)%Z -> (0 <= after)%Z -> (before + after <= Z.of_nat n)%Z ->
  c <= Z.to_nat (Z.of_nat n - before - after) ->
  exists s' w, crop_signal before after s = (s', Ok tt) /\
    _audio_data s' = Some w /\
    shape w = [c; Z.to_nat (Z.of_nat n - before - after)] /\
    (forall i j, i < c -> j < Z.to_nat (Z.of_nat n - before - after) ->
       get w [i; j] = get a [i; Z.to_nat before + j]) /\
    _signal_length s' = Ok (Some (Z.of_nat n - before - after)%Z) /\
    active_region_is_default s' = Ok true.
Proof.
  intros Hd Ha Hs Hwf Hfin Hb Haf Hsum Hc.
  destruct (audio_data_default s a c n Hd Ha Hs)
    as [v [Hv [Hvs [Hvwf [Hvg Hlen]]]]].
  set (k := Z.to_nat (Z.of_nat n - before - after)) in *.
  destruct (slice_cols_range v c n before (Z.of_nat n - after) Hvs)
    as [w [Hw [Hws [Hwwf Hwg]]]]; try lia.
  replace (Z.to_nat (Z.of_nat n - after - before)) with k in *
    by (unfold k; lia).
  assert (Hwfin : isfinite_all w = true).
  { apply (finite_matrix w c k Hws Hwwf). intros i j Hi Hj.
    rewrite Hwg by assumption. rewrite Hvg by (unfold k in *; lia).
    apply (finite_entry a c n); try assumption. unfold k in *; lia. }
  exists (with_active_end (Some (Z.of_nat k))
            (with_active_start (Some 0%Z) (with_audio_data (Some w) s))), w.
  unfold crop_signal. unfold_m.
  rewrite Hd. cbv beta iota delta [negb].
  rewrite Hlen. cbv beta iota. rewrite Hv. cbv beta iota.
  rewrite Hw. cbv beta iota.
  rewrite (audio_data_setter_matrix s w c k Hwfin Hws).
  destruct (Nat.ltb_spec k c); [lia|].
  unfold set_active_region_to_default. unfold_m. simpl.
  unfold _signal_length, shape_at. simpl. rewrite Hws. simpl.
  repeat split.
  - intros i j Hi Hj. rewrite Hwg by assumption.
    apply Hvg; [assumption|]. unfold k in *; lia.
  - do 2 f_equal. unfold k. lia.
  - unfold active_region_is_default, _signal_length, shape_at. simpl.
    rewrite Hws. simpl. rewrite bool_decide_eq_true_2 by reflexivity.
    reflexivity.
Qed.

Lemma pad_cols_matrix (a : ndarray A) (c n : nat) (before after : Z) :
  shape a = [c; n] -> (0 <= before)%Z -> (0 <= after)%Z ->
  exists w, pad_cols a before after = Ok w /\
    shape w = [c; Z.to_nat before + n + Z.to_nat after] /\
    well_formed w /\
    forall i j, i < c -> j < Z.to_nat before + n + Z.to_nat after ->
      get w [i; j] =
        if (j <? Z.to_nat before) || (Z.to_nat before + n <=? j) then s_zero
        else get a [i; j - Z.to_nat before].
Proof.
  intros Hs Hb Ha. unfold pad_cols. rewrite Hs.
  destruct (Z.ltb_spec before 0); [lia|].
  destruct (Z.ltb_spec after 0); [lia|]. simpl.
  eexists. split; [reflexivity|]. split; [reflexivity|].
  split; [apply tabulate_well_formed|].
  intros i j Hi Hj. rewrite get_tabulate by (apply valid2; assumption).
  reflexivity.
Qed.

(** X21. [zero_pad(before, after)] on the default region adds
    [before] samples in front of every channel and [after] behind, all
    of them zero, and leaves the samples in between as they were; the
    length grows by [before + after]. *)
Lemma zero_pad_default (s : AudioSignal A) (a : ndarray A)
  (c n : nat) (before after : Z) :
  active_region_is_default s = Ok true ->
  _audio_data s = Some a -> shape a = [c; n] ->
  well_formed a -> isfinite_all a = true -> s_isfinite s_zero = true ->
  (0 <= before)%Z -> (0 <= after)%Z ->
  c <= Z.to_nat before + n + Z.to_nat after ->
  exists s' w, zero_pad before after s = (s', Ok tt) /\
    _audio_data s' = Some w /\
    shape w = [c; Z.to_nat before + n + Z.to_nat after] /\
    (forall i j, i < c -> j < Z.to_nat before + n + Z.to_nat after ->
       get w [i; j] =
         if (j <? Z.to_nat before) || (Z.to_nat before + n <=? j) then s_zero
         else get a [i; j - Z.to_nat before]) /\
    _signal_length s' = Ok (Some (before + Z.of_nat n + after)%Z) /\
    active_region_is_default s' = Ok true.
Proof.
  intros Hd Ha Hs Hwf Hfin Hzero Hb Haf Hc.
  destruct (audio_data_default s a c n Hd Ha Hs)
    as [v [Hv [Hvs [Hvwf [Hvg Hlen]]]]].
  destruct (pad_cols_matrix v c n before after Hvs Hb Haf)
    as [w [Hw [Hws [Hwwf Hwg]]]].
  set (k := Z.to_nat before + n + Z.to_nat after) in *.
  assert (Hentry : forall i j, i < c -> j < k ->
            get w [i; j] =
              if (j <? Z.to_nat before) || (Z.to_nat before + n <=? j)
              then s_zero else get a [i; j - Z.to_nat before]).
  { intros i j Hi Hj. rewrite Hwg by assumption.
    destruct (Nat.ltb_spec j (Z.to_nat before)); [reflexivity|].
    destruct (Nat.leb_spec (Z.to_nat before + n) j); [reflexivity|].
    simpl. apply Hvg; lia. }
  assert (Hwfin : isfinite_all w = true).
  { apply (finite_matrix w c k Hws Hwwf). intros i j Hi Hj.
    rewrite Hentry by assumption.
    destruct (Nat.ltb_spec j (Z.to_nat before)); [assumption|].
    destruct (Nat.leb_spec (Z.to_nat before + n) j); [assumption|].
    simpl. apply (finite_entry a c n); try assumption. lia. }
  destruct (audio_data_setter_keeps s w c k Hws Hwfin Hc)
    as [s' [Hset [Hdata [Hsl Hdef]]]].
  exists s', w. unfold zero_pad. unfold_m.
  rewrite Hd. cbv beta iota delta [negb].
  rewrite Hv. cbv beta iota. rewrite Hw. cbv beta iota.
  repeat split; try assumption.
  rewrite Hsl. do 2 f_equal. unfold k. lia.
Qed.

(** X22. [concat] on the default region, for signals of one channel
    count and one sample rate, appends the samples of the other
    signal's active region to every channel. *)
Lemma concat_default (s o : AudioSignal A) (a b : ndarray A) (c n k' : nat) :
  active_region_is_default s = Ok true ->
  _audio_data s = Some a -> shape a = [c; n] ->
  audio_data o = Ok (Some b) -> shape b = [c; k'] ->
  sample_rate s = sample_rate o ->
  well_formed a -> well_formed b ->
  isfinite_all a = true -> isfinite_all b = true ->
  c <= n + k' ->
  exists s' w, concat o s = (s', Ok tt) /\
    _audio_data s' = Some w /\ shape w = [c; n + k'] /\
    (forall i j, i < c -> j < n + k' ->
       get w [i; j] = if j <? n then get a [i; j] else get b [i; j - n]) /\
    _signal_length s' = Ok (Some (Z.of_nat (n + k'))) /\
    active_region_is_default s' = Ok true.
Proof.
  intros Hd Ha Hs Hb Hsb Hsr Hwa Hwb Hfa Hfb Hc.
  destruct (audio_data_default s a c n Hd Ha Hs)
    as [v [Hv [Hvs [Hvwf [Hvg Hlen]]]]].
  assert (Hvfin : isfinite_all v = true).
  { apply (finite_matrix v c n Hvs Hvwf). intros i j Hi Hj.
    rewrite Hvg by assumption. apply (finite_entry a c n); assumption. }
  destruct (concatenate1_matrix v b c n k' Hvs Hsb) as [w [Hw [Hws Hwg]]].
  pose proof (concatenate1_finite v b w c n k' Hvs Hsb Hvwf Hwb Hvfin Hfb Hw)
    as Hwfin.
  destruct (audio_data_setter_keeps s w c (n + k') Hws Hwfin Hc)
    as [s' [Hset [Hdata [Hsl Hdef]]]].
  exists s', w.
  rewrite (concat_run s o v b w c n k' Hv Hvs Hb Hsb Hsr Hw).
  repeat split; try assumption.
  intros i j Hi Hj. rewrite Hwg by assumption.
  destruct (Nat.ltb_spec j n); [apply Hvg; assumption|reflexivity].
Qed.

End DefaultFacts.

(* ===================================================================== *)
(** * What the checks do refuse *)
(* ===================================================================== *)

Section RefusalFacts.
Context {A : Type} `{Scalar A}.
Import Np.

(** X24. An exception raised inside [check_COLA] is the one way the
    setter fails on an [STFTParams] value whose missing fields the
    defaults fill; the triple has been stored by then, so the refused
    parameters stay on the object. *)
Lemma stft_params_setter_raises (sp : SciPy A) (s : AudioSignal A)
  (d p : STFTParams) (wl hl : Z) (wt : string) (e : exn) :
  default_stft_params s = Ok d ->
  fill (window_length p) (window_length d) = Some wl ->
  fill (hop_length p) (hop_length d) = Some hl ->
  fill (window_type p) (window_type d) = Some wt ->
  check_COLA sp (if String.eqb wt "sqrt_hann" then WINDOW_HANN else wt)
    wl hl = Raise e ->
  stft_params_setter sp (PParams p) s =
    (with_stft_params (Some (mkSTFTParams (Some wl) (Some hl) (Some wt))) s,
     Raise e).
Proof.
  intros Hd Hwl Hhl Hwt Hcola. unfold stft_params_setter. unfold_m.
  rewrite Hd. simpl. rewrite Hwl, Hhl, Hwt, Hcola. reflexivity.
Qed.

(** Signals that differ in channel count, sample rate or length are
    refused by [add] and [subtract]. *)
Lemma _verify_audio_arithmetic_refuses (s o : AudioSignal A)
  (n m k k' : option Z) :
  num_channels s = Ok n -> num_channels o = Ok m ->
  signal_length s = Ok k -> signal_length o = Ok k' ->
  n <> m \/ sample_rate s <> sample_rate o \/ k <> k' ->
  _verify_audio_arithmetic o s = (s, Raise AudioSignalException).
Proof.
  intros Hn Hm Hk Hk' Hdiff.
  unfold _verify_audio_arithmetic, _verify_audio. unfold_m.
  rewrite Hn, Hm.
  destruct (decide (n = m)) as [Hnm|Hnm].
  - rewrite (bool_decide_eq_true_2 _ Hnm). simpl.
    destruct (decide (sample_rate s = sample_rate o)) as [Hsr|Hsr].
    + rewrite (bool_decide_eq_true_2 _ Hsr). simpl. rewrite Hk, Hk'.
      rewrite bool_decide_eq_false_2 by tauto. reflexivity.
    + rewrite (bool_decide_eq_false_2 _ Hsr). reflexivity.
  - rewrite (bool_decide_eq_false_2 _ Hnm). reflexivity.
Qed.

(** X23. [add] and [subtract] refuse operands that differ in the
    number of channels, in the sample rate or in the length of the
    active region, with [AudioSignalException]; nothing is allocated
    and neither operand changes. *)
Lemma add_refuses (h : gmap loc (AudioSignal A)) (self other : loc)
  (s o : AudioSignal A) (n m k k' : option Z) :
  h !! self = Some s -> h !! other = Some o ->
  num_channels s = Ok n -> num_channels o = Ok m ->
  signal_length s = Ok k -> signal_length o = Ok k' ->
  n <> m \/ sample_rate s <> sample_rate o \/ k <> k' ->
  add self (VRef other) h = (h, Raise AudioSignalException) /\
  subtract self (VRef other) h = (h, Raise AudioSignalException).
Proof.
  intros Hself Hother Hn Hm Hk Hk' Hdiff.
  pose proof (_verify_audio_arithmetic_refuses s o n m k k' Hn Hm Hk Hk' Hdiff)
    as Hv.
  split.
  - unfold add, signal_of, st_bind.
    rewrite (deref_lookup h other o Hother).
    rewrite (on_lookup h self s) by assumption.
    rewrite Hv. simpl. rewrite (insert_id h self s Hself). reflexivity.
  - unfold subtract, signal_of, st_bind.
    rewrite (deref_lookup h other o Hother).
    rewrite (on_lookup h self s) by assumption.
    rewrite Hv. simpl. rewrite (insert_id h self s Hself). reflexivity.
Qed.

(** The compound assignments are [apply_gain]: [*=] with the value
    itself, [/=] with its reciprocal. *)
Lemma compound_assignment_apply_gain (s : AudioSignal A) (value : pyobj A)
  (x r : A) :
  as_real value = Some x -> s_recip x = Some r ->
  __imul__ value s = apply_gain value s /\
  __itruediv__ value s = apply_gain (VFloat r) s.
Proof.
  intros Hx Hr. split; [reflexivity|].
  unfold __itruediv__, __idiv__. rewrite Hx, Hr. reflexivity.
Qed.

End RefusalFacts.
(* ===================================================================== *)
(** * Runs on sample objects *)
(* ===================================================================== *)

Module Runs.
Import Np Examples.
Local Open Scope Z_scope.

Lemma signal_of_array_init (a : ndarray Q) :
  snd (__init__ scipy_boxcar (Some a) None None (Some 44100)
         (PParams boxcar_4_2) (blank None)) = Ok tt ->
  reachable scipy_boxcar (signal_of_array a).
Proof.
  intros Hok. unfold signal_of_array.
  eapply reachable_init with (audio_data_array := Some a) (stft := None)
    (label_ := None) (sr := Some 44100) (stft_params := PParams boxcar_4_2).
  rewrite <- Hok. apply surjective_pairing.
Qed.

Lemma mono4_reachable : reachable scipy_boxcar mono4.
Proof. apply signal_of_array_init. reflexivity. Qed.

Lemma stereo4_reachable : reachable scipy_boxcar stereo4.
Proof. apply signal_of_array_init. reflexivity. Qed.

Lemma with_region_reachable (b e : Z) (s : AudioSignal Q) :
  reachable scipy_boxcar s -> reachable scipy_boxcar (with_region b e s).
Proof.
  intros Hs. unfold with_region.
  eapply reachable_call with (c := Call_set_active_region b e); [exact Hs|].
  simpl. apply surjective_pairing.
Qed.

(** The ordered bounds of the data model do not hold: after
    [set_active_region(3, 1)] on a signal of four samples the bounds are 3
    and 1. *)
Lemma set_active_region_unordered :
  reachable scipy_boxcar (with_region 3 1 mono4) /\
  _signal_length (with_region 3 1 mono4) = Ok (Some 4) /\
  _active_start (with_region 3 1 mono4) = Some 3 /\
  _active_end (with_region 3 1 mono4) = Some 1 /\
  ~ region_ordered (with_region 3 1 mono4).
Proof.
  split; [apply with_region_reachable, mono4_reachable|].
  repeat split.
  intros Hord. destruct (Hord 4) as [b [e [Hb [He Hr]]]]; [reflexivity|].
  vm_compute in Hb, He. inversion Hb; inversion He; subst. lia.
Qed.

Lemma active_region_clamped_witness :
  region_clamped (with_region 3 1 mono4) /\
  exists s', set_active_region 3 1 mono4 = (s', Ok tt) /\
    _active_start s' = Some (Z.max 0 3) /\
    _active_end s' = Some (Z.min 1 (Z.of_nat 4)) /\
    _audio_data s' = Some (row [1; 2; 3; 4]) /\
    (region_ordered s' <-> Z.max 0 3 <= Z.min 1 (Z.of_nat 4)).
Proof.
  destruct (active_region_clamped scipy_boxcar) as [Hreach Hset].
  split.
  - apply Hreach. apply with_region_reachable, mono4_reachable.
  - apply (Hset mono4 (row [1; 2; 3; 4]) 1%nat 4%nat 3 1); reflexivity.
Defined.

Lemma audio_data_setter_orientation_witness :
  isfinite_all (NdArray [5; 2]%nat (map q [1; 2; 3; 4; 5; 6; 7; 8; 9; 10]))
    = true /\
  exists s',
    audio_data_setter
      (VArray (NdArray [5; 2]%nat (map q [1; 2; 3; 4; 5; 6; 7; 8; 9; 10])))
      mono4 = (s', Ok tt) /\
    _audio_data s' =
      Some (NdArray [2; 5]%nat (map q [1; 3; 5; 7; 9; 2; 4; 6; 8; 10])).
Proof.
  assert (Hfin : isfinite_all
            (NdArray [5; 2]%nat (map q [1; 2; 3; 4; 5; 6; 7; 8; 9; 10]))
          = true) by reflexivity.
  split; [exact Hfin|].
  destruct (audio_data_setter_orientation mono4 _ Hfin) as [Htall _].
  destruct (Htall 5%nat 2%nat) as [s' [Hrun [Hdata _]]];
    [reflexivity | lia |].
  exists s'. split; [exact Hrun|]. rewrite Hdata. reflexivity.
Defined.

(** C1 at [STFTParams(5, 2, 'boxcar')]: a step of three does not divide
    a segment of five, [check_COLA] answers [False], and the triple is
    stored. *)
Lemma stft_params_setter_accepts_non_cola_witness :
  default_stft_params mono4
    = Ok (mkSTFTParams (Some 2048) (Some 512) (Some "hann"%string)) /\
  check_COLA scipy_boxcar "boxcar" 5 2 = Ok false /\
  stft_params_setter scipy_boxcar (PParams boxcar_5_2) mono4 =
    (with_stft_params (Some boxcar_5_2) mono4, Ok tt).
Proof.
  split; [reflexivity|]. split; [reflexivity|].
  apply (stft_params_setter_accepts_non_cola scipy_boxcar mono4
           (mkSTFTParams (Some 2048) (Some 512) (Some "hann"%string))
           boxcar_5_2 5 2 "boxcar"); reflexivity.
Defined.

(** One object, with a spectrogram of shape (2, 3, 2). *)
Lemma apply_mask_rejects_channel_broadcast_witness :
  ({[0%nat := signal_of_stft stft_2_3_2]} : gmap loc (AudioSignal Q))
    !! 0%nat = Some (signal_of_stft stft_2_3_2) /\
  stft_data (signal_of_stft stft_2_3_2) = Some stft_2_3_2 /\
  apply_mask 0%nat (VMask (ones [2; 3]%nat)) false
    {[0%nat := signal_of_stft stft_2_3_2]}
  = ({[0%nat := signal_of_stft stft_2_3_2]}, Raise AudioSignalException).
Proof.
  split; [reflexivity|]. split; [reflexivity|].
  apply (apply_mask_rejects_channel_broadcast
           {[0%nat := signal_of_stft stft_2_3_2]} 0%nat
           (signal_of_stft stft_2_3_2) stft_2_3_2 (ones [2; 3]%nat)
           2%nat 3%nat 2%nat false); reflexivity.
Defined.

(** C3 at a signal of four samples with the region [1, 3) and a signal
    of two samples. *)
Lemma concat_ignores_active_region_witness :
  active_region_is_default (with_region 1 3 mono4) = Ok false /\
  exists s' v, concat mono2 (with_region 1 3 mono4) = (s', Ok tt) /\
    _audio_data s' = Some v /\ shape v = [1; 4]%nat /\
    _signal_length s' = Ok (Some 4) /\
    active_region_is_default s' = Ok true.
Proof.
  split; [reflexivity|].
  destruct (concat_ignores_active_region (with_region 1 3 mono4) mono2
              (row [2; 3]) (row [10; 20]) 1%nat 2%nat 2%nat)
    as [s' [v [Hrun [Hdata [Hshape [_ [Hlen Hdef]]]]]]];
    try reflexivity; try (simpl; lia).
  exists s', v. repeat split; assumption.
Defined.

(** C4 at the same two signals. *)
Lemma add_ignores_active_region_witness :
  let h : gmap loc (AudioSignal Q) :=
    <[1%nat := mono2]> {[0%nat := with_region 1 3 mono4]} in
  active_region_is_default (with_region 1 3 mono4) = Ok false /\
  add 0%nat (VRef 1%nat) h =
    (<[fresh (dom h) :=
         with_active_end (Some 2)
           (with_active_start (Some 0)
              (with_audio_data (Some (row [12; 23]))
                 (with_region 1 3 mono4)))]> h,
     Ok (VRef (fresh (dom h)))).
Proof.
  intros h. split; [reflexivity|].
  pose proof (add_ignores_active_region h 0%nat 1%nat
                (with_region 1 3 mono4) mono2
                (row [2; 3]) (row [10; 20]) (row [12; 23]) 1%nat 2%nat)
    as Hadd.
  apply Hadd; try reflexivity. simpl. lia.
Defined.

(** The four guarded mutators, on the signal of four samples with the
    region [1, 3). *)
Lemma guarded_mutators_raise :
  truncate_samples 2 (with_region 1 3 mono4)
    = (with_region 1 3 mono4, Raise AudioSignalException) /\
  truncate_seconds (1 # 44100) (with_region 1 3 mono4)
    = (with_region 1 3 mono4, Raise AudioSignalException) /\
  crop_signal 1 1 (with_region 1 3 mono4)
    = (with_region 1 3 mono4, Raise AudioSignalException) /\
  zero_pad 1 1 (with_region 1 3 mono4)
    = (with_region 1 3 mono4, Raise AudioSignalException).
Proof.
  split; [|split; [|split]].
  - apply truncate_samples_guard. reflexivity.
  - apply (truncate_seconds_guard _ _ 44100); reflexivity.
  - apply crop_signal_guard. reflexivity.
  - apply zero_pad_guard. reflexivity.
Qed.

(** [subtract] on the same two signals: the difference of the two
    active slices, in a new object. *)
Lemma subtract_ignores_active_region :
  let h : gmap loc (AudioSignal Q) :=
    <[1%nat := mono2]> {[0%nat := with_region 1 3 mono4]} in
  exists l s',
    snd (subtract 0%nat (VRef 1%nat) h) = Ok (VRef l) /\
    fst (subtract 0%nat (VRef 1%nat) h) !! l = Some s' /\
    _audio_data s' = Some (row [-8; -17]).
Proof.
  intros h. eexists _, _. split; [vm_compute; reflexivity|].
  split; vm_compute; reflexivity.
Qed.

Lemma mono4_stft_reachable : reachable scipy_boxcar mono4_stft.
Proof.
  unfold mono4_stft.
  eapply reachable_call with (c := Call_stft_data_setter (VArray stft_2_3_1));
    [apply mono4_reachable|].
  simpl. apply surjective_pairing.
Qed.

(** Truncation to the length of the sample buffer does not always
    happen: with the region [2, 2) there are four samples of audio data,
    none of them inside the region, and all six reconstructed samples come
    back. *)
Lemma istft_empty_region_not_truncated :
  reachable scipy_boxcar (with_region 2 2 mono4_stft) /\
  _audio_data (with_region 2 2 mono4_stft) = Some (row [1; 2; 3; 4]) /\
  _signal_length (with_region 2 2 mono4_stft) = Ok (Some 4) /\
  signal_length (with_region 2 2 mono4_stft) = Ok (Some 0) /\
  snd (istft scipy_boxcar None None None false None
         (with_region 2 2 mono4_stft)) = Ok (row [1; 2; 3; 4; 5; 6]).
Proof.
  split; [apply with_region_reachable, mono4_stft_reachable|].
  repeat split.
Qed.

Lemma istft_truncation_policy_witness :
  istft_calculate scipy_boxcar None None None (with_region 1 3 mono4_stft)
    = Ok (row [1; 2; 3; 4; 5; 6]) /\
  signal_length (with_region 1 3 mono4_stft) = Ok (Some 2) /\
  (exists v,
     snd (istft scipy_boxcar None None None true None
            (with_region 1 3 mono4_stft)) = Ok v /\
     shape v = [1; 2]%nat) /\
  snd (istft scipy_boxcar None None None true None
         (with_region 2 2 mono4_stft)) = Ok (row [1; 2; 3; 4; 5; 6]) /\
  snd (istft scipy_boxcar None None None true None stft_only)
    = Ok (row [1; 2; 3; 4; 5; 6]).
Proof.
  assert (Hfin : isfinite_all (row [1; 2; 3; 4; 5; 6]) = true) by reflexivity.
  assert (Hshape : shape (row [1; 2; 3; 4; 5; 6]) = [1; 6]%nat)
    by reflexivity.
  split; [reflexivity|]. split; [reflexivity|]. split; [|split].
  - assert (Hc : istft_calculate scipy_boxcar None None None
                   (with_region 1 3 mono4_stft) = Ok (row [1; 2; 3; 4; 5; 6]))
      by reflexivity.
    destruct (istft_truncation_policy scipy_boxcar None None None true
                _ _ 1%nat 6%nat Hc Hshape Hfin) as [Haudio _].
    destruct (Haudio (row [1; 2; 3; 4]) 2) as [Hpos _];
      [reflexivity | reflexivity |].
    destruct Hpos as [v [Hv [Hs _]]]; [lia|].
    exists v. split; assumption.
  - assert (Hc : istft_calculate scipy_boxcar None None None
                   (with_region 2 2 mono4_stft) = Ok (row [1; 2; 3; 4; 5; 6]))
      by reflexivity.
    destruct (istft_truncation_policy scipy_boxcar None None None true
                _ _ 1%nat 6%nat Hc Hshape Hfin) as [Haudio _].
    destruct (Haudio (row [1; 2; 3; 4]) 0) as [_ Hzero];
      [reflexivity | reflexivity |].
    apply Hzero. lia.
  - assert (Hc : istft_calculate scipy_boxcar None None None stft_only
                 = Ok (row [1; 2; 3; 4; 5; 6])) by reflexivity.
    destruct (istft_truncation_policy scipy_boxcar None None None true
                _ _ 1%nat 6%nat Hc Hshape Hfin) as [_ [_ Hnone]].
    apply Hnone; reflexivity.
Defined.

(** The total length after [apply_gain] is not always that of the
    former region: two channels with the region [1, 2) have one sample
    inside the region, and after [apply_gain] the total length is two. *)
Lemma apply_gain_short_region_transposed :
  reachable scipy_boxcar (with_region 1 2 stereo4) /\
  active_region_is_default (with_region 1 2 stereo4) = Ok false /\
  signal_length (with_region 1 2 stereo4) = Ok (Some 1) /\
  snd (apply_gain (VInt 2) (with_region 1 2 stereo4)) = Ok tt /\
  _audio_data (fst (apply_gain (VInt 2) (with_region 1 2 stereo4)))
    = Some (row [4; 12]) /\
  _signal_length (fst (apply_gain (VInt 2) (with_region 1 2 stereo4)))
    = Ok (Some 2).
Proof.
  split; [apply with_region_reachable, stereo4_reachable|].
  repeat split.
Qed.

Lemma apply_gain_keeps_active_slice_witness :
  active_region_is_default (with_region 1 3 mono4) = Ok false /\
  audio_data (with_region 1 3 mono4) = Ok (Some (row [2; 3])) /\
  exists s', apply_gain (VInt 2) (with_region 1 3 mono4) = (s', Ok tt) /\
    active_region_is_default s' = Ok true /\
    _audio_data s' = Some (row [4; 6]) /\
    _signal_length s' = Ok (Some 2).
Proof.
  split; [reflexivity|]. split; [reflexivity|].
  assert (Hfin : isfinite_all (scale (row [2; 3]) (q 2)) = true)
    by reflexivity.
  assert (Ha : audio_data (with_region 1 3 mono4) = Ok (Some (row [2; 3])))
    by reflexivity.
  assert (Hs : shape (row [2; 3]) = [1; 2]%nat) by reflexivity.
  assert (Hg : as_real (VInt 2) = Some (q 2)) by reflexivity.
  destruct (apply_gain_keeps_active_slice (with_region 1 3 mono4) (VInt 2)
              (q 2) (row [2; 3]) 1%nat 2%nat Ha Hs Hg Hfin)
    as [s' [Hrun [Hdef [Hkeep _]]]].
  destruct Hkeep as [Hdata Hlen]; [lia|].
  exists s'. repeat split; assumption.
Defined.

Lemma signal_length_cases_witness :
  signal_length stft_only = Ok None /\
  signal_length (with_region 1 3 mono4) = Ok (Some (3 - 1)) /\
  exists s',
    fst (make_copy_with_stft_data 0%nat (VArray stft_2_3_1) false
           {[0%nat := mono4_stft]}) !! 1%nat = Some s' /\
    _audio_data s' = None /\
    signal_length s' = Ok (Some 4).
Proof.
  destruct (signal_length_cases (A := Q)) as [Hnone [Hcopy [_ Hwindow]]].
  split; [apply (Hnone stft_only); reflexivity|].
  split.
  - apply (Hwindow (with_region 1 3 mono4) (row [1; 2; 3; 4]) 1%nat 4%nat);
      try reflexivity; simpl; lia.
  - apply (Hcopy {[0%nat := mono4_stft]} _ 0%nat 1%nat mono4_stft
             (VArray stft_2_3_1) false); [reflexivity|].
    vm_compute. reflexivity.
Defined.

End Runs.

(* ===================================================================== *)
(** * More facts about arrays *)
(* ===================================================================== *)

Section MoreArrayFacts.
Context {A : Type} `{Scalar A}.
Import Np Np2.

(** Well-formed arrays of one shape with the same entries are equal. *)
Lemma array_ext (a b : ndarray A) :
  shape a = shape b -> well_formed a -> well_formed b ->
  (forall idx, valid (shape a) idx -> get a idx = get b idx) ->
  a = b.
Proof.
  destruct a as [sa da], b as [sb db]. unfold well_formed. simpl.
  intros <- Ha Hb Hget. f_equal.
  apply (nth_ext _ _ s_zero s_zero); [congruence|].
  intros k Hk. rewrite Ha in Hk.
  specialize (Hget (unravel sa k) (unravel_valid sa k Hk)).
  unfold get in Hget. simpl in Hget.
  rewrite ravel_unravel in Hget by assumption. exact Hget.
Qed.

Lemma nth_concat_uniform (ls : list (list A)) (p i r : nat) :
  Forall (fun l => length l = p) ls -> i < length ls -> r < p ->
  nth (i * p + r) (List.concat ls) s_zero = nth r (nth i ls []) s_zero.
Proof.
  intros Hall. revert i. induction Hall as [|l ls Hl _ IH]; intros i Hi Hr.
  - simpl in Hi. lia.
  - simpl List.concat. destruct i as [|i].
    + simpl. rewrite app_nth1 by lia. reflexivity.
    + rewrite app_nth2 by (rewrite Hl; simpl; lia).
      replace (S i * p + r - length l) with (i * p + r)
        by (rewrite Hl; simpl; lia).
      simpl in Hi. simpl nth. apply IH; [lia|assumption].
Qed.

Lemma length_concat_uniform (ls : list (list A)) (p : nat) :
  Forall (fun l => length l = p) ls ->
  length (List.concat ls) = length ls * p.
Proof.
  induction 1 as [|l ls Hl _ IH]; simpl; [reflexivity|].
  rewrite length_app, IH, Hl. reflexivity.
Qed.

(** Stacking well-formed arrays of shape [s]: the result is well formed
    and its sub-array at [i] is the [i]-th array. *)
Lemma stack_entries (arrays : list (ndarray A)) (s : list nat) :
  arrays <> [] ->
  Forall (fun a => shape a = s /\ well_formed a) arrays ->
  exists v, stack arrays = Ok v /\ shape v = length arrays :: s /\
    well_formed v /\
    forall i idx, i < length arrays -> valid s idx ->
      get v (i :: idx) = get (nth i arrays (NdArray s [])) idx.
Proof.
  intros Hne Hall. destruct arrays as [|a0 rest]; [congruence|].
  assert (Hs0 : shape a0 = s) by (inversion Hall; tauto).
  assert (Hsame : forallb (fun x => bool_decide (shape x = shape a0))
                    (a0 :: rest) = true).
  { apply forallb_forall. intros x Hx.
    apply bool_decide_eq_true_2.
    rewrite List.Forall_forall in Hall. destruct (Hall x Hx). congruence. }
  assert (Hlens : Forall (fun l => length l = prod s) (map data (a0 :: rest))).
  { apply List.Forall_forall. intros l Hl. apply in_map_iff in Hl.
    destruct Hl as [x [<- Hx]]. rewrite List.Forall_forall in Hall.
    destruct (Hall x Hx) as [Hsx Hwx]. unfold well_formed in Hwx. congruence. }
  unfold stack. rewrite Hsame. eexists. split; [reflexivity|].
  rewrite Hs0. split; [reflexivity|]. split.
  - unfold well_formed. cbn [shape data prod].
    rewrite (length_concat_uniform _ _ Hlens), length_map. reflexivity.
  - intros i idx Hi Hidx. unfold get. cbn [shape data ravel].
    pose proof (ravel_lt s idx Hidx) as Hr.
    rewrite (nth_concat_uniform _ (prod s) i (ravel s idx) Hlens)
      by (rewrite ?length_map; assumption).
    replace (nth i (map data (a0 :: rest)) [])
      with (data (nth i (a0 :: rest) (NdArray s [])))
      by (symmetry; apply (map_nth data (a0 :: rest) (NdArray s []) i)).
    assert (Hsi : shape (nth i (a0 :: rest) (NdArray s [])) = s).
    { rewrite List.Forall_forall in Hall.
      destruct (Hall (nth i (a0 :: rest) (NdArray s []))) as [Hsx _];
        [apply nth_In; assumption|assumption]. }
    rewrite Hsi. reflexivity.
Qed.

End MoreArrayFacts.

(* ===================================================================== *)
(** * Channels *)
(* ===================================================================== *)

Section ChannelFacts.
Context {A : Type} `{Scalar A}.
Import Np Np2.

Lemma for_each_map {T U} (f : T -> result U) (g : T -> U) (l : list T) :
  (forall x, In x l -> f x = Ok (g x)) -> for_each f l = Ok (map g l).
Proof.
  induction l as [|x xs IH]; intros Hf; simpl; [reflexivity|].
  rewrite (Hf x) by (left; reflexivity). simpl.
  rewrite IH by (intros y Hy; apply Hf; right; assumption). reflexivity.
Qed.

Lemma valid1 (k j : nat) : j < k -> valid [k] [j].
Proof. intros. repeat constructor; assumption. Qed.

Lemma valid1_inv (k : nat) (idx : list nat) :
  valid [k] idx -> exists j, idx = [j] /\ j < k.
Proof.
  unfold valid. intros Hidx.
  inversion Hidx as [|j d js ds Hj Hnil]; subst.
  inversion Hnil; subst. eauto.
Qed.

(** The row [n] of a matrix, by [_get_axis]. *)
Lemma get_axis_row (v : ndarray A) (c k n : nat) :
  shape v = [c; k] -> n < c ->
  get_axis v CHAN_INDEX n = Ok (tabulate [k] (fun idx => get v (n :: idx))).
Proof.
  intros Hs Hn. unfold get_axis, CHAN_INDEX. rewrite Hs. simpl.
  destruct (Nat.ltb_spec n c); [reflexivity|lia].
Qed.

Lemma channel_range_audio (s : AudioSignal A) (v : ndarray A) (c k : nat) :
  audio_data s = Ok (Some v) -> shape v = [c; k] ->
  channel_range s = Ok (map Z.of_nat (seq 0 c)).
Proof.
  intros Hv Hs. unfold channel_range.
  destruct (num_channels_audio s v c k Hv Hs) as [Hn _]. rewrite Hn. simpl.
  rewrite Nat2Z.id. reflexivity.
Qed.

Lemma get_channel_row (s : AudioSignal A) (v : ndarray A) (c k n : nat) :
  audio_data s = Ok (Some v) -> shape v = [c; k] -> n < c ->
  get_channel (Z.of_nat n) s
    = Ok (tabulate [k] (fun idx => get v (n :: idx))).
Proof.
  intros Hv Hs Hn. unfold get_channel, _verify_get_channel.
  destruct (num_channels_audio s v c k Hv Hs) as [Hc _]. rewrite Hc. simpl.
  destruct (Z.leb_spec (Z.of_nat c) (Z.of_nat n)); [lia|].
  destruct (Z.ltb_spec (Z.of_nat n) 0); [lia|]. simpl.
  rewrite Hv. simpl. rewrite Nat2Z.id. apply (get_axis_row v c k n Hs Hn).
Qed.

(** X1. [get_channel(n)] checks the index against the number of
    channels of the active slice: a negative index, or one that is not
    below the count [c], raises; an index within bounds gives the
    samples of that channel inside the active region, as a vector of
    [k] entries. *)
Theorem get_channel_bounds (s : AudioSignal A) (v : ndarray A) (c k : nat)
  (n : Z) :
  audio_data s = Ok (Some v) -> shape v = [c; k] ->
  ((n < 0)%Z \/ (Z.of_nat c <= n)%Z ->
     get_channel n s = Raise AudioSignalException) /\
  ((0 <= n)%Z -> (n < Z.of_nat c)%Z ->
     exists ch, get_channel n s = Ok ch /\ shape ch = [k] /\
       forall j, j < k -> get ch [j] = get v [Z.to_nat n; j]).
Proof.
  intros Hv Hs. split.
  - intros Hout. unfold get_channel, _verify_get_channel.
    destruct (num_channels_audio s v c k Hv Hs) as [Hc _]. rewrite Hc. simpl.
    destruct (Z.leb_spec (Z.of_nat c) n); [reflexivity|].
    destruct (Z.ltb_spec n 0); [reflexivity|lia].
  - intros H0 Hn.
    pose proof (get_channel_row s v c k (Z.to_nat n) Hv Hs) as Hrow.
    rewrite Z2Nat.id in Hrow by assumption.
    rewrite Hrow by lia. eexists. split; [reflexivity|].
    split; [reflexivity|].
    intros j Hj. rewrite get_tabulate by (apply valid1; assumption).
    reflexivity.
Qed.

Lemma get_channels_rows (s : AudioSignal A) (v : ndarray A) (c k : nat) :
  audio_data s = Ok (Some v) -> shape v = [c; k] ->
  get_channels s
    = Ok (map (fun n => tabulate [k] (fun idx => get v (n :: idx)))
              (seq 0 c)).
Proof.
  intros Hv Hs. unfold get_channels.
  rewrite (channel_range_audio s v c k Hv Hs). simpl.
  rewrite (for_each_map _
             (fun i => tabulate [k] (fun idx => get v (Z.to_nat i :: idx)))).
  - rewrite map_map. f_equal. apply map_ext. intros n.
    rewrite Nat2Z.id. reflexivity.
  - intros x Hx. apply in_map_iff in Hx. destruct Hx as [n [<- Hn]].
    apply in_seq in Hn. rewrite Nat2Z.id.
    apply (get_channel_row s v c k n Hv Hs). lia.
Qed.

(** X2. [get_channels()] yields one vector per channel of the active
    slice, in order, and stacking them with [np.array] gives the active
    slice back. *)
Theorem get_channels_stack (s : AudioSignal A) (v : ndarray A) (c k : nat) :
  audio_data s = Ok (Some v) -> shape v = [c; k] -> well_formed v ->
  0 < c ->
  exists chans, get_channels s = Ok chans /\ length chans = c /\
    (forall n, n < c -> get_channel (Z.of_nat n) s
                        = Ok (nth n chans (NdArray [k] []))) /\
    stack chans = Ok v.
Proof.
  intros Hv Hs Hwf Hc.
  set (g := fun n => tabulate [k] (fun idx => get v (n :: idx))).
  exists (map g (seq 0 c)).
  split; [apply (get_channels_rows s v c k Hv Hs)|].
  split; [rewrite length_map, length_seq; reflexivity|].
  assert (Hnth : forall n, n < c ->
            nth n (map g (seq 0 c)) (NdArray [k] []) = g n).
  { intros n Hn.
    rewrite (nth_indep _ (NdArray [k] []) (g 0))
      by (rewrite length_map, length_seq; assumption).
    rewrite (map_nth g (seq 0 c) 0 n), seq_nth by assumption. reflexivity. }
  split.
  - intros n Hn. rewrite (Hnth n Hn).
    apply (get_channel_row s v c k n Hv Hs Hn).
  - destruct (stack_entries (map g (seq 0 c)) [k]) as [w [Hw [Hws [Hwwf Hwg]]]].
    + destruct c; [lia|]. simpl. discriminate.
    + apply List.Forall_forall. intros x Hx. apply in_map_iff in Hx.
      destruct Hx as [n [<- _]]. split; [reflexivity|].
      apply tabulate_well_formed.
    + rewrite Hw. f_equal. rewrite length_map, length_seq in Hws, Hwg.
      apply array_ext; try assumption; [congruence|].
      rewrite Hws. intros idx Hidx.
      destruct (valid2_inv c k idx Hidx) as [i [j [-> [Hi Hj]]]].
      rewrite (Hwg i [j] Hi (valid1 k j Hj)).
      rewrite (Hnth i Hi). unfold g.
      rewrite get_tabulate by (apply valid1; assumption). reflexivity.
Qed.

End ChannelFacts.

(* ===================================================================== *)
(** * Reading through the active region *)
(* ===================================================================== *)

Section WindowFacts.
Context {A : Type} `{Scalar A}.
Import Np.

Lemma audio_data_window (s : AudioSignal A) (a : ndarray A) (c n : nat)
  (b e : Z) :
  _audio_data s = Some a -> shape a = [c; n] ->
  _active_start s = Some b -> _active_end s = Some e ->
  (0 <= b)%Z -> (b <= e)%Z -> (e <= Z.of_nat n)%Z ->
  exists v, audio_data s = Ok (Some v) /\
    shape v = [c; Z.to_nat (e - b)] /\ well_formed v /\
    forall i j, i < c -> j < Z.to_nat (e - b) ->
      get v [i; j] = get a [i; Z.to_nat b + j].
Proof.
  intros Ha Hs Hb He H0 Hbe Hen.
  destruct (slice_cols_range a c n b e Hs H0 Hbe Hen) as [v [Hv Hrest]].
  exists v. split; [|exact Hrest].
  unfold audio_data. rewrite Ha, Hb, He. unfold shape_at. rewrite Hs. simpl.
  replace (if (e <? Z.of_nat n)%Z then e else Z.of_nat n) with e
    by (destruct (Z.ltb_spec e (Z.of_nat n)); lia).
  replace (if (0 <? b)%Z then b else 0%Z) with b
    by (destruct (Z.ltb_spec 0 b); lia).
  rewrite Hv. reflexivity.
Qed.

(** X3. [set_active_region(b, e)] with [0 <= b <= e <= n] hides the
    samples outside [b, e) without touching them: [audio_data] then reads
    the [e - b] columns from [b] on, and
    [set_active_region_to_default()] makes every stored sample readable
    again. *)
Theorem set_active_region_isolates (s : AudioSignal A) (a : ndarray A)
  (c n : nat) (b e : Z) :
  _audio_data s = Some a -> shape a = [c; n] ->
  (0 <= b)%Z -> (b <= e)%Z -> (e <= Z.of_nat n)%Z ->
  exists s1 v,
    set_active_region b e s = (s1, Ok tt) /\
    _audio_data s1 = Some a /\
    audio_data s1 = Ok (Some v) /\
    shape v = [c; Z.to_nat (e - b)] /\
    (forall i j, i < c -> j < Z.to_nat (e - b) ->
       get v [i; j] = get a [i; Z.to_nat b + j]) /\
    exists s2 w,
      set_active_region_to_default s1 = (s2, Ok tt) /\
      _audio_data s2 = Some a /\
      active_region_is_default s2 = Ok true /\
      audio_data s2 = Ok (Some w) /\
      shape w = [c; n] /\
      forall i j, i < c -> j < n -> get w [i; j] = get a [i; j].
Proof.
  intros Ha Hs H0 Hbe Hen.
  pose proof (set_active_region_stores s a c n b e Ha Hs) as Hset.
  rewrite Z.max_r in Hset by assumption.
  rewrite Z.min_l in Hset by assumption.
  set (s1 := with_active_end (Some e) (with_active_start (Some b) s)) in *.
  destruct (audio_data_window s1 a c n b e) as [v [Hv [Hvs [_ Hvg]]]];
    try assumption; try reflexivity.
  exists s1, v. split; [exact Hset|]. split; [exact Ha|].
  split; [exact Hv|]. split; [exact Hvs|]. split; [exact Hvg|].
  set (s2 := with_active_end (Some (Z.of_nat n))
               (with_active_start (Some 0%Z) s1)).
  assert (Hdef : active_region_is_default s2 = Ok true).
  { unfold active_region_is_default, _signal_length, shape_at. simpl.
    rewrite Ha. simpl. rewrite Hs. simpl.
    rewrite bool_decide_eq_true_2 by reflexivity. reflexivity. }
  destruct (audio_data_default s2 a c n Hdef Ha Hs)
    as [w [Hw [Hws [_ [Hwg _]]]]].
  exists s2, w. split.
  - unfold set_active_region_to_default. unfold_m. simpl.
    unfold _signal_length, shape_at. simpl. rewrite Ha. simpl. rewrite Hs.
    reflexivity.
  - repeat split; assumption.
Qed.

(** Padding on the default region, with what is needed to go on. *)
Lemma zero_pad_stored (s : AudioSignal A) (a : ndarray A)
  (c n : nat) (before after : Z) :
  active_region_is_default s = Ok true ->
  _audio_data s = Some a -> shape a = [c; n] ->
  well_formed a -> isfinite_all a = true -> s_isfinite s_zero = true ->
  (0 <= before)%Z -> (0 <= after)%Z ->
  c <= Z.to_nat before + n + Z.to_nat after ->
  exists s' w, zero_pad before after s = (s', Ok tt) /\
    _audio_data s' = Some w /\
    shape w = [c; Z.to_nat before + n + Z.to_nat after] /\
    well_formed w /\ isfinite_all w = true /\
    (forall i j, i < c -> j < Z.to_nat before + n + Z.to_nat after ->
       get w [i; j] =
         if (j <? Z.to_nat before) || (Z.to_nat before + n <=? j) then s_zero
         else get a [i; j - Z.to_nat before]) /\
    active_region_is_default s' = Ok true.
Proof.
  intros Hd Ha Hs Hwf Hfin Hzero Hb Haf Hc.
  destruct (audio_data_default s a c n Hd Ha Hs)
    as [v [Hv [Hvs [Hvwf [Hvg Hlen]]]]].
  destruct (pad_cols_matrix v c n before after Hvs Hb Haf)
    as [w [Hw [Hws [Hwwf Hwg]]]].
  set (k := Z.to_nat before + n + Z.to_nat after) in *.
  assert (Hentry : forall i j, i < c -> j < k ->
            get w [i; j] =
              if (j <? Z.to_nat before) || (Z.to_nat before + n <=? j)
              then s_zero else get a [i; j - Z.to_nat before]).
  { intros i j Hi Hj. rewrite Hwg by assumption.
    destruct (Nat.ltb_spec j (Z.to_nat before)); [reflexivity|].
    destruct (Nat.leb_spec (Z.to_nat before + n) j); [reflexivity|].
    simpl. apply Hvg; lia. }
  assert (Hwfin : isfinite_all w = true).
  { apply (finite_matrix w c k Hws Hwwf). intros i j Hi Hj.
    rewrite Hentry by assumption.
    destruct (Nat.ltb_spec j (Z.to_nat before)); [assumption|].
    destruct (Nat.leb_spec (Z.to_nat before + n) j); [assumption|].
    simpl. apply (finite_entry a c n); try assumption. lia. }
  destruct (audio_data_setter_keeps s w c k Hws Hwfin Hc)
    as [s' [Hset [Hdata [Hsl Hdef]]]].
  exists s', w. unfold zero_pad. unfold_m.
  rewrite Hd. cbv beta iota delta [negb].
  rewrite Hv. cbv beta iota. rewrite Hw. cbv beta iota.
  repeat split; assumption.
Qed.

(** X4. [crop_signal(before, after)] undoes
    [zero_pad(before, after)]: on the default region, with no more
    channels than samples, the two calls in a row give back a matrix of
    the same shape and the same samples, and the region is the default
    one again. *)
Theorem zero_pad_crop_signal (s : AudioSignal A) (a : ndarray A)
  (c n : nat) (before after : Z) :
  active_region_is_default s = Ok true ->
  _audio_data s = Some a -> shape a = [c; n] ->
  well_formed a -> isfinite_all a = true -> s_isfinite s_zero = true ->
  (0 <= before)%Z -> (0 <= after)%Z -> c <= n ->
  exists s1 s2 w,
    zero_pad before after s = (s1, Ok tt) /\
    _signal_length s1 = Ok (Some (before + Z.of_nat n + after)%Z) /\
    crop_signal before after s1 = (s2, Ok tt) /\
    _audio_data s2 = Some w /\ shape w = [c; n] /\
    (forall i j, i < c -> j < n -> get w [i; j] = get a [i; j]) /\
    active_region_is_default s2 = Ok true.
Proof.
  intros Hd Ha Hs Hwf Hfin Hzero Hb Haf Hc.
  destruct (zero_pad_stored s a c n before after)
    as [s1 [p [Hpad [Hp [Hps [Hpwf [Hpfin [Hpg Hpd]]]]]]]];
    try assumption; try lia.
  set (k := Z.to_nat before + n + Z.to_nat after) in *.
  assert (Hk : Z.to_nat (Z.of_nat k - before - after) = n)
    by (unfold k; lia).
  destruct (crop_signal_default s1 p c k before after)
    as [s2 [w [Hcrop [Hw [Hws [Hwg [_ Hwd]]]]]]];
    try assumption; try (unfold k; lia).
  rewrite Hk in Hws, Hwg.
  exists s1, s2, w. split; [exact Hpad|]. split.
  - unfold _signal_length, shape_at. rewrite Hp, Hps. simpl.
    do 2 f_equal. unfold k. lia.
  - split; [exact Hcrop|]. split; [exact Hw|]. split; [exact Hws|].
    split; [|exact Hwd].
    intros i j Hi Hj. rewrite Hwg by assumption.
    rewrite Hpg by (unfold k; lia).
    destruct (Nat.ltb_spec (Z.to_nat before + j) (Z.to_nat before)); [lia|].
    destruct (Nat.leb_spec (Z.to_nat before + n) (Z.to_nat before + j));
      [lia|].
    simpl. f_equal. f_equal. f_equal. lia.
Qed.

End WindowFacts.

(* ===================================================================== *)
(** * Methods that return a new object *)
(* ===================================================================== *)

Section CopyFacts.
Context {A : Type} `{Scalar A}.
Import Np Np2.

Lemma slice_cols_well_formed (a v : ndarray A) (b e : Z) :
  slice_cols a b e = Ok v -> well_formed v.
Proof.
  unfold slice_cols. destruct (shape a) as [|r [|n rest]]; try discriminate.
  destruct (slice_bounds n b e) as [lo len]. intros Hv.
  inversion Hv; subst. apply tabulate_well_formed.
Qed.

(** What the getter returns fills its shape. *)
Lemma audio_data_well_formed (s : AudioSignal A) (v : ndarray A) :
  audio_data s = Ok (Some v) -> well_formed v.
Proof.
  unfold audio_data. destruct (_audio_data s) as [a|]; [|discriminate].
  destruct (shape_at a LEN_INDEX) as [n|]; [|discriminate]. simpl.
  match goal with
  | |- context [slice_cols a ?b ?e] =>
      destruct (slice_cols a b e) as [w|] eqn:Hw; [|discriminate]
  end.
  simpl. intros Hv. inversion Hv; subst.
  apply (slice_cols_well_formed _ _ _ _ Hw).
Qed.

Lemma get_scale (v : ndarray A) (g : A) (idx : list nat) :
  well_formed v -> valid (shape v) idx ->
  get (scale v g) idx = s_mul (get v idx) g.
Proof.
  intros Hwf Hidx. unfold get, scale. simpl.
  pose proof (ravel_lt _ _ Hidx) as Hlt. rewrite <- Hwf in Hlt.
  rewrite (nth_indep _ s_zero (s_mul s_zero g))
    by (rewrite length_map; assumption).
  apply (map_nth (fun x => s_mul x g)).
Qed.

Lemma scale_well_formed (v : ndarray A) (g : A) :
  well_formed v -> well_formed (scale v g).
Proof. unfold well_formed, scale. simpl. rewrite length_map. auto. Qed.

Lemma fresh_None (h : gmap loc (AudioSignal A)) : h !! fresh (dom h) = None.
Proof. apply not_elem_of_dom. apply is_fresh. Qed.

(** X5. [signal * value] leaves [signal] as it is and returns a new
    object: a copy whose audio data are the active slice, every sample
    multiplied by the value, whose region is the default one and whose
    STFT data are gone.  A value that is not a number is refused, and
    so is a signal without audio data; neither allocates. *)
Theorem mul_returns_scaled_copy (h : gmap loc (AudioSignal A)) (self : loc)
  (s : AudioSignal A) (value : pyobj A) :
  h !! self = Some s ->
  (as_real value = None ->
     __mul__ self value h = (h, Raise AudioSignalException)) /\
  (forall g, as_real value = Some g -> _audio_data s = None ->
     __mul__ self value h = (h, Raise TypeError)) /\
  (forall g v c k,
     as_real value = Some g ->
     audio_data s = Ok (Some v) -> shape v = [c; k] -> c <= k ->
     isfinite_all (scale v g) = true ->
     let l := fresh (dom h) in
     h !! l = None /\
     __mul__ self value h =
       (<[l := with_stft_data None
                 (with_active_end (Some (Z.of_nat k))
                    (with_active_start (Some 0%Z)
                       (with_audio_data (Some (scale v g)) s)))]> h,
        Ok (VRef l)) /\
     forall i j, i < c -> j < k ->
       get (scale v g) [i; j] = s_mul (get v [i; j]) g).
Proof.
  intros Hself. split; [|split].
  - intros Hreal. unfold __mul__. rewrite Hreal. reflexivity.
  - intros g Hreal Hnone. unfold __mul__. rewrite Hreal.
    unfold st_bind. rewrite (deref_lookup h self s Hself).
    unfold audio_data. rewrite Hnone. reflexivity.
  - intros g v c k Hreal Hv Hs Hck Hfin l.
    split; [apply fresh_None|]. split.
    + unfold __mul__. rewrite Hreal.
      unfold st_bind. rewrite (deref_lookup h self s Hself). rewrite Hv.
      unfold make_copy_with_audio_data, st_bind, st_ret.
      rewrite (deepcopy_lookup h self s Hself). fold l.
      rewrite (on_lookup _ l s) by apply lookup_insert_eq.
      rewrite (audio_data_setter_matrix s (scale v g) c k Hfin Hs).
      destruct (Nat.ltb_spec k c); [lia|]. cbn [fst snd].
      rewrite insert_insert_eq.
      match goal with
      | |- context [on l (stft_data_setter VNone) (<[l := ?x]> h)] =>
          rewrite (on_lookup _ l x) by apply lookup_insert_eq
      end.
      cbn [stft_data_setter assign fst snd].
      rewrite insert_insert_eq. reflexivity.
    + intros i j Hi Hj. apply get_scale.
      * apply (audio_data_well_formed s v Hv).
      * rewrite Hs. apply valid2; assumption.
Qed.

Lemma get_row_matrix (l : list A) (k j : nat) :
  get (NdArray [1; k] l) [0; j] = get (NdArray [k] l) [j].
Proof. unfold get. simpl. reflexivity. Qed.

(** X6. [make_audio_signal_from_channel(n)] returns a new object with
    one channel, the samples of channel [n] inside the active region;
    its region is the default one.  Everything else is copied as it is,
    the STFT data of all the channels included, and the signal itself
    does not change. *)
Theorem make_audio_signal_from_channel_mono (h : gmap loc (AudioSignal A))
  (self : loc) (s : AudioSignal A) (v : ndarray A) (c k n : nat) :
  h !! self = Some s ->
  audio_data s = Ok (Some v) -> shape v = [c; k] -> n < c ->
  isfinite_all v = true ->
  exists h' l s' w,
    make_audio_signal_from_channel self (Z.of_nat n) h = (h', Ok (VRef l)) /\
    h !! l = None /\ h' !! self = Some s /\ h' !! l = Some s' /\
    _audio_data s' = Some w /\ shape w = [1; k] /\
    (forall j, j < k -> get w [0; j] = get v [n; j]) /\
    active_region_is_default s' = Ok true /\
    is_mono s' = Ok true /\
    _stft_data s' = _stft_data s /\
    _sample_rate s' = _sample_rate s /\
    _stft_params s' = _stft_params s.
Proof.
  intros Hself Hv Hs Hn Hfin.
  pose proof (audio_data_well_formed s v Hv) as Hwf.
  set (ch := tabulate [k] (fun idx => get v (n :: idx))).
  assert (Hchfin : isfinite_all ch = true).
  { apply finite_entries; [apply tabulate_well_formed|].
    intros idx Hidx. destruct (valid1_inv k idx Hidx) as [j [-> Hj]].
    unfold ch. rewrite get_tabulate by (apply valid1; assumption).
    apply (finite_entry v c k); assumption. }
  set (l := fresh (dom h)).
  set (w := NdArray [1; k] (data ch)).
  set (s' := with_active_end (Some (Z.of_nat k))
               (with_active_start (Some 0%Z) (with_audio_data (Some w) s))).
  assert (Hsl : self <> l) by (apply (fresh_loc_ne h self s Hself)).
  exists (<[l := s']> h), l, s', w.
  split.
  { unfold make_audio_signal_from_channel, st_bind, st_ret.
    rewrite (deepcopy_lookup h self s Hself). fold l.
    rewrite (deref_lookup _ self s) by (rewrite lookup_insert_ne; congruence).
    rewrite (get_channel_row s v c k n Hv Hs Hn). fold ch.
    rewrite (on_lookup _ l s) by apply lookup_insert_eq.
    rewrite (audio_data_setter_vector s ch k Hchfin) by reflexivity.
    cbn [fst snd]. rewrite insert_insert_eq. reflexivity. }
  split; [apply fresh_None|].
  split; [rewrite lookup_insert_ne by congruence; assumption|].
  split; [apply lookup_insert_eq|].
  split; [reflexivity|]. split; [reflexivity|].
  split.
  { intros j Hj. unfold w. rewrite get_row_matrix.
    change (NdArray [k] (data ch)) with ch. unfold ch.
    rewrite get_tabulate by (apply valid1; assumption). reflexivity. }
  assert (Hdef : active_region_is_default s' = Ok true)
    by (apply (default_region_is_default s w 1 k); reflexivity).
  split; [exact Hdef|].
  split.
  { destruct (audio_data_default s' w 1 k Hdef) as [u [Hu [Hus _]]];
      [reflexivity|reflexivity|].
    unfold is_mono.
    rewrite (proj1 (num_channels_audio s' u 1 k Hu Hus)). reflexivity. }
  repeat split.
Qed.

End CopyFacts.

Section MaskCopyFacts.
Context {A : Type} `{Scalar A}.
Import Np Np2.

(** X7. [apply_mask(mask)] with [overwrite=False] and a mask of the
    shape of the STFT data leaves the signal as it is and returns a new
    object that holds the product, element by element, has no audio
    data and keeps the recorded length; with [overwrite=True] the
    product is stored in the signal itself, nothing is allocated and
    [None] is returned. *)
Theorem apply_mask_product (h : gmap loc (AudioSignal A)) (self : loc)
  (s : AudioSignal A) (d m : ndarray A) (F T C : nat) :
  h !! self = Some s -> stft_data s = Some d ->
  shape d = [F; T; C] -> shape m = [F; T; C] ->
  exists v,
    shape v = [F; T; C] /\
    (forall f t c, f < F -> t < T -> c < C ->
       get v [f; t; c] = s_mul (get d [f; t; c]) (get m [f; t; c])) /\
    apply_mask self (VMask m) true h =
      (<[self := with_stft_data (Some v) s]> h, Ok VNone) /\
    let l := fresh (dom h) in
    h !! l = None /\
    apply_mask self (VMask m) false h =
      (<[l := with_audio_data None (with_stft_data (Some v) s)]> h,
       Ok (VRef l)).
Proof.
  intros Hself Hd Hsd Hsm.
  destruct (apply_mask_same_shape h self s d m F T C Hself Hd Hsd Hsm)
    as [v [Hv [Hvs [Hvg Hrun]]]].
  exists v. split; [exact Hvs|]. split.
  { intros f t c Hf Ht Hc. apply Hvg. repeat constructor; assumption. }
  split; [exact Hrun|].
  intros l. split; [apply fresh_None|].
  assert (Hsl : self <> l) by (apply (fresh_loc_ne h self s Hself)).
  unfold apply_mask, st_bind.
  rewrite (deref_lookup h self s Hself). rewrite Hd.
  rewrite Hsm, Hsd. rewrite bool_decide_eq_true_2 by reflexivity.
  cbn [negb andb]. rewrite Hv.
  unfold make_copy_with_stft_data, st_bind, st_ret.
  rewrite (deepcopy_lookup h self s Hself). fold l.
  rewrite (on_lookup _ l s) by apply lookup_insert_eq.
  rewrite (stft_data_setter_spectrogram s v F T C Hvs). cbn [fst snd].
  rewrite insert_insert_eq.
  rewrite (deref_lookup _ self s) by (rewrite lookup_insert_ne; congruence).
  match goal with
  | |- context [on l (assign ?f) (<[l := ?x]> h)] =>
      rewrite (on_lookup _ l x (assign f)) by apply lookup_insert_eq
  end.
  cbn [assign fst snd]. rewrite insert_insert_eq.
  match goal with
  | |- context [on l (audio_data_setter VNone) (<[l := ?x]> h)] =>
      rewrite (on_lookup _ l x) by apply lookup_insert_eq
  end.
  cbn [audio_data_setter assign fst snd]. rewrite insert_insert_eq.
  reflexivity.
Qed.

End MaskCopyFacts.

Section SubtractFacts.
Context {A : Type} `{Scalar A}.
Import Np Np2.

(** X8. [subtract] negates a copy of the right operand with [*= -1]
    and adds it: for operands of one shape, one sample rate and no more
    channels than samples, whose negated samples and differences are
    finite, it returns a new object, a copy of the left operand, whose
    samples are [a + b * -1].  Both operands stay as they were. *)
Theorem subtract_returns_difference (h : gmap loc (AudioSignal A))
  (self other : loc) (s o : AudioSignal A) (a b : ndarray A) (c k : nat) :
  h !! self = Some s -> h !! other = Some o ->
  audio_data s = Ok (Some a) -> shape a = [c; k] ->
  audio_data o = Ok (Some b) -> shape b = [c; k] ->
  sample_rate s = sample_rate o -> c <= k ->
  (forall i j, i < c -> j < k ->
     s_isfinite (s_mul (get b [i; j]) (s_of_int (-1))) = true /\
     s_isfinite (s_add (get a [i; j])
                   (s_mul (get b [i; j]) (s_of_int (-1)))) = true) ->
  exists h' l s' v,
    subtract self (VRef other) h = (h', Ok (VRef l)) /\
    h !! l = None /\
    h' !! self = Some s /\ h' !! other = Some o /\
    h' !! l = Some s' /\
    s' = with_active_end (Some (Z.of_nat k))
           (with_active_start (Some 0%Z) (with_audio_data (Some v) s)) /\
    shape v = [c; k] /\
    forall i j, i < c -> j < k ->
      get v [i; j] =
        s_add (get a [i; j]) (s_mul (get b [i; j]) (s_of_int (-1))).
Proof.
  intros Hself Hother Ha Hsa Hb Hsb Hsr Hck Hfin.
  pose proof (audio_data_well_formed o b Hb) as Hbwf.
  set (g := s_of_int (-1)) in *.
  (* the negated copy *)
  set (l1 := fresh (dom h)).
  assert (Hl1 : h !! l1 = None) by apply fresh_None.
  assert (Hself1 : self <> l1) by (apply (fresh_loc_ne h self s Hself)).
  assert (Hother1 : other <> l1) by (apply (fresh_loc_ne h other o Hother)).
  assert (Hnfin : isfinite_all (scale b g) = true).
  { apply (finite_matrix (scale b g) c k Hsb (scale_well_formed b g Hbwf)).
    intros i j Hi Hj.
    rewrite get_scale by (try assumption; rewrite Hsb; apply valid2; assumption).
    apply (Hfin i j Hi Hj). }
  set (o' := with_active_end (Some (Z.of_nat k))
               (with_active_start (Some 0%Z)
                  (with_audio_data (Some (scale b g)) o))).
  assert (Hdef : active_region_is_default o' = Ok true)
    by (apply (default_region_is_default o (scale b g) c k Hsb)).
  destruct (audio_data_default o' (scale b g) c k Hdef)
    as [nb [Hnb [Hnbs [_ [Hnbg _]]]]]; [reflexivity|exact Hsb|].
  assert (Hgain : __imul__ (VInt (-1)) o = (o', Ok tt)).
  { unfold __imul__, apply_gain. cbn [as_real]. fold g. unfold_m.
    rewrite Hb.
    rewrite (audio_data_setter_matrix o (scale b g) c k Hnfin Hsb).
    destruct (Nat.ltb_spec k c); [lia|]. reflexivity. }
  set (h2 := <[l1 := o']> h).
  assert (Hself2 : h2 !! self = Some s)
    by (unfold h2; rewrite lookup_insert_ne by congruence; assumption).
  assert (Hother2 : h2 !! other = Some o)
    by (unfold h2; rewrite lookup_insert_ne by congruence; assumption).
  assert (Hl12 : h2 !! l1 = Some o') by apply lookup_insert_eq.
  (* the sum *)
  destruct (sum_audio_data_matrix s o' a nb c k Ha Hsa Hnb Hnbs)
    as [v [Hv [Hvs Hvg]]].
  assert (Hentry : forall i j, i < c -> j < k ->
            get v [i; j] = s_add (get a [i; j]) (s_mul (get b [i; j]) g)).
  { intros i j Hi Hj. rewrite Hvg by assumption.
    rewrite Hnbg by assumption.
    rewrite get_scale by (try assumption; rewrite Hsb; apply valid2; assumption).
    reflexivity. }
  assert (Hvwf : well_formed v).
  { unfold sum_audio_data in Hv. rewrite Ha, Hnb in Hv. simpl in Hv.
    unfold binop in Hv. destruct (broadcast_shapes (shape a) (shape nb));
      [|discriminate].
    inversion Hv; subst. apply tabulate_well_formed. }
  assert (Hvfin : isfinite_all v = true).
  { apply (finite_matrix v c k Hvs Hvwf). intros i j Hi Hj.
    rewrite Hentry by assumption. apply (Hfin i j Hi Hj). }
  set (l2 := fresh (dom h2)).
  assert (Hl2 : h2 !! l2 = None) by apply fresh_None.
  assert (Hself2' : self <> l2) by (apply (fresh_loc_ne h2 self s Hself2)).
  assert (Hother2' : other <> l2) by (apply (fresh_loc_ne h2 other o Hother2)).
  assert (Hl12' : l1 <> l2) by (apply (fresh_loc_ne h2 l1 o' Hl12)).
  set (s' := with_active_end (Some (Z.of_nat k))
               (with_active_start (Some 0%Z) (with_audio_data (Some v) s))).
  exists (<[l2 := s']> h2), l2, s', v.
  split.
  { unfold subtract, signal_of, st_bind.
    rewrite (deref_lookup h other o Hother).
    rewrite (on_lookup h self s) by assumption.
    rewrite (_verify_audio_arithmetic_ok s o a b c k Ha Hsa Hb Hsb Hsr).
    cbn [fst snd]. rewrite (insert_id h self s Hself).
    rewrite (deepcopy_lookup h other o Hother). fold l1.
    rewrite (on_lookup _ l1 o) by apply lookup_insert_eq.
    rewrite Hgain. cbn [fst snd].
    rewrite insert_insert_eq. fold h2.
    unfold add, signal_of, st_bind, st_ret. cbv beta iota.
    rewrite (deref_lookup h2 l1 o' Hl12).
    rewrite (on_lookup h2 self s) by assumption.
    rewrite (_verify_audio_arithmetic_ok s o' a nb c k Ha Hsa Hnb Hnbs)
      by exact Hsr.
    cbn [fst snd]. rewrite (insert_id h2 self s Hself2).
    rewrite (deepcopy_lookup h2 self s Hself2). fold l2.
    rewrite (deref_lookup _ self s)
      by (rewrite lookup_insert_ne; congruence).
    rewrite (deref_lookup _ l1 o')
      by (rewrite lookup_insert_ne; congruence).
    rewrite Hv.
    rewrite (on_lookup _ l2 s) by apply lookup_insert_eq.
    rewrite (audio_data_setter_matrix s v c k Hvfin Hvs).
    destruct (Nat.ltb_spec k c); [lia|]. cbn [fst snd].
    rewrite insert_insert_eq. reflexivity. }
  split.
  { destruct (h !! l2) as [x|] eqn:Hx; [|reflexivity].
    exfalso. assert (Hx2 : h2 !! l2 = Some x)
      by (unfold h2; rewrite lookup_insert_ne by congruence; assumption).
    congruence. }
  split; [rewrite lookup_insert_ne by congruence; assumption|].
  split; [rewrite lookup_insert_ne by congruence; assumption|].
  split; [apply lookup_insert_eq|].
  split; [reflexivity|]. split; [exact Hvs|exact Hentry].
Qed.

End SubtractFacts.

(* ===================================================================== *)
(** * What the transforms store *)
(* ===================================================================== *)

Section TransformFacts.
Context {A : Type} `{Scalar A}.
Import Np Np2.

(** [istft], once the reconstruction [c] and the cut signal [out] are
    known. *)
Lemma istft_run (sp : SciPy A) (wl hl : option Z) (wt : option string)
  (overwrite : bool) (t : option Z) (s : AudioSignal A) (c out : ndarray A)
  (len : option Z) (a : option (ndarray A)) :
  istft_calculate sp wl hl wt s = Ok c ->
  istft_truncate_to_length t s = Ok len ->
  match len with
  | Some t => if (0 <? t)%Z then slice_cols c 0 t else Ok c
  | None => Ok c
  end = Ok out ->
  audio_data s = Ok a ->
  istft sp wl hl wt overwrite t s =
    if overwrite || bool_decide (a = None)
    then bind (audio_data_setter (VArray out)) (fun _ => ret out) s
    else (s, Ok out).
Proof.
  intros Hc Hlen Hout Ha. unfold istft.
  unfold bind at 1. unfold read at 1. rewrite Hc.
  unfold bind at 1. unfold read at 1. rewrite Hlen.
  unfold bind at 1. unfold lift at 1. rewrite Hout.
  unfold bind at 1. unfold read at 1. rewrite Ha.
  destruct (overwrite || bool_decide (a = None)); [reflexivity|].
  reflexivity.
Qed.

(** X9. [istft] stores what it returns when [overwrite] is set or when
    there is no audio data, and only then.  With a positive length [t]
    and a finite reconstruction of [r] channels and [n] samples,
    [r <= min(t, n)], the result is the first [min(t, n)] samples of
    each channel.  When audio data are present and [overwrite] is
    [False] the object is left as it is; otherwise the result replaces
    all the stored audio data and the active region becomes the default
    one. *)
Theorem istft_overwrite (sp : SciPy A) (wl hl : option Z)
  (wt : option string) (s : AudioSignal A) (c : ndarray A) (r n : nat)
  (t : Z) :
  istft_calculate sp wl hl wt s = Ok c -> shape c = [r; n] ->
  isfinite_all c = true ->
  (0 < t)%Z -> r <= Nat.min (Z.to_nat t) n ->
  exists out,
    shape out = [r; Nat.min (Z.to_nat t) n] /\
    (forall i j, i < r -> j < Nat.min (Z.to_nat t) n ->
       get out [i; j] = get c [i; j]) /\
    let stored :=
      with_active_end (Some (Z.of_nat (Nat.min (Z.to_nat t) n)))
        (with_active_start (Some 0%Z) (with_audio_data (Some out) s)) in
    active_region_is_default stored = Ok true /\
    (forall v, audio_data s = Ok (Some v) ->
       istft sp wl hl wt false (Some t) s = (s, Ok out) /\
       istft sp wl hl wt true (Some t) s = (stored, Ok out)) /\
    (forall overwrite, _audio_data s = None ->
       istft sp wl hl wt overwrite (Some t) s = (stored, Ok out)).
Proof.
  intros Hc Hs Hfin Ht Hr.
  destruct (istft_calculate_matrix sp wl hl wt s c Hc)
    as [r' [n' [Hs' Hwf]]].
  destruct (slice_cols_prefix c r n t Hs Ht) as [out [Hout [Hos Hog]]].
  pose proof (slice_cols_finite c out r n 0 t Hs Hwf Hfin Hout) as Hofin.
  set (m := Nat.min (Z.to_nat t) n) in *.
  assert (Hcut : (if (0 <? t)%Z then slice_cols c 0 t else Ok c) = Ok out).
  { destruct (Z.ltb_spec 0 t); [assumption|lia]. }
  assert (Hstore : bind (audio_data_setter (VArray out))
                     (fun _ => ret out) s
            = (with_active_end (Some (Z.of_nat m))
                 (with_active_start (Some 0%Z)
                    (with_audio_data (Some out) s)), Ok out)).
  { unfold bind.
    rewrite (audio_data_setter_matrix s out r m Hofin Hos).
    destruct (Nat.ltb_spec m r); [lia|]. reflexivity. }
  exists out. split; [exact Hos|]. split; [exact Hog|].
  intros stored. split.
  { apply (default_region_is_default s out r m Hos). }
  split.
  - intros v Hv. split.
    + rewrite (istft_run sp wl hl wt false (Some t) s c out (Some t) (Some v));
        try assumption; reflexivity.
    + rewrite (istft_run sp wl hl wt true (Some t) s c out (Some t) (Some v))
        by (try assumption; reflexivity).
      cbn [orb]. apply Hstore.
  - intros overwrite Hnone.
    assert (Ha : audio_data s = Ok None)
      by (unfold audio_data; rewrite Hnone; reflexivity).
    rewrite (istft_run sp wl hl wt overwrite (Some t) s c out (Some t) None)
      by (try assumption; reflexivity).
    rewrite bool_decide_eq_true_2 by reflexivity.
    rewrite orb_true_r. apply Hstore.
Qed.

End TransformFacts.

Section ForwardFacts.
Context {A : Type} `{Scalar A}.
Import Np Np2.

Lemma valid3 (a b c i j k : nat) :
  i < a -> j < b -> k < c -> valid [a; b; c] [i; j; k].
Proof. intros. repeat constructor; assumption. Qed.

Lemma valid3_inv (a b c : nat) (idx : list nat) :
  valid [a; b; c] idx ->
  exists i j k, idx = [i; j; k] /\ i < a /\ j < b /\ k < c.
Proof.
  unfold valid. intros Hidx.
  inversion Hidx as [|i d is_ ds Hi H1]; subst.
  inversion H1 as [|j d' js ds' Hj H2]; subst.
  inversion H2 as [|k d'' ks ds'' Hk H3]; subst.
  inversion H3; subst. exists i, j, k. auto.
Qed.

(** The channel [n] of a spectrogram, by [_get_axis]. *)
Lemma get_axis_channel (d : ndarray A) (F T C n : nat) :
  shape d = [F; T; C] -> n < C ->
  exists ch, get_axis d STFT_CHAN_INDEX n = Ok ch /\ shape ch = [F; T] /\
    well_formed ch /\
    forall f t, f < F -> t < T -> get ch [f; t] = get d [f; t; n].
Proof.
  intros Hs Hn. unfold get_axis, STFT_CHAN_INDEX. rewrite Hs. simpl.
  destruct (Nat.ltb_spec n C); [|lia].
  eexists. split; [reflexivity|]. split; [reflexivity|].
  split; [apply tabulate_well_formed|].
  intros f t Hf Ht. rewrite get_tabulate by (apply valid2; assumption).
  reflexivity.
Qed.

Lemma transpose_120_entries (a : ndarray A) (c f t : nat) :
  shape a = [c; f; t] ->
  exists d, transpose_120 a = Ok d /\ shape d = [f; t; c] /\
    well_formed d /\
    forall i j n, i < f -> j < t -> n < c ->
      get d [i; j; n] = get a [n; i; j].
Proof.
  intros Hs. unfold transpose_120. rewrite Hs.
  eexists. split; [reflexivity|]. split; [reflexivity|].
  split; [apply tabulate_well_formed|].
  intros i j n Hi Hj Hn. rewrite get_tabulate by (apply valid3; assumption).
  reflexivity.
Qed.

Lemma audio_data_with_stft_data (s : AudioSignal A) (x : option (ndarray A)) :
  audio_data (with_stft_data x s) = audio_data s.
Proof. reflexivity. Qed.

Lemma nth_map_seq {T} (g : nat -> T) (c n : nat) (d : T) :
  n < c -> nth n (map g (seq 0 c)) d = g n.
Proof.
  intros Hn. rewrite (nth_indep _ d (g 0))
    by (rewrite length_map, length_seq; assumption).
  rewrite (map_nth g (seq 0 c) 0 n), seq_nth by assumption. reflexivity.
Qed.

(** The part of [stft] that reads: the transforms [Zs n] of the
    channels, stacked and with the channel axis moved to the end. *)
Lemma stft_calculate_channels (sp : SciPy A) (kernel : stft_kernel)
  (wl hl : option Z) (wt : option string) (s : AudioSignal A)
  (v : ndarray A) (c k : nat) (w hp : Z) (ty : string) (win : list A)
  (Zs : nat -> ndarray A) (F T : nat) :
  audio_data s = Ok (Some v) -> shape v = [c; k] -> 0 < c -> 0 < k ->
  param wl window_length s = Ok w -> param hl hop_length s = Ok hp ->
  param wt window_type s = Ok ty -> get_window sp ty w = Ok win ->
  (forall n ch, n < c -> get_channel (Z.of_nat n) s = Ok ch ->
     kernel (sample_rate s) win w (w - hp)%Z ch = Ok (Zs n) /\
     shape (Zs n) = [F; T] /\ well_formed (Zs n)) ->
  exists d, stft_calculate sp kernel wl hl wt s = Ok d /\
    shape d = [F; T; c] /\ well_formed d /\
    forall n f t, n < c -> f < F -> t < T ->
      get d [f; t; n] = get (Zs n) [f; t].
Proof.
  intros Hv Hs Hc Hk Hw Hh Ht Hwin Hker.
  assert (Hsize : (size v =? 0) = false).
  { unfold size. rewrite Hs. simpl. apply Nat.eqb_neq. nia. }
  assert (Hloop : for_each (fun i =>
            let? chan := get_channel i s in
            kernel (sample_rate s) win w (w - hp)%Z chan)
            (map Z.of_nat (seq 0 c)) = Ok (map Zs (seq 0 c))).
  { rewrite (for_each_map _ (fun i => Zs (Z.to_nat i))).
    - rewrite map_map. f_equal. apply map_ext. intros n.
      rewrite Nat2Z.id. reflexivity.
    - intros x Hx. apply in_map_iff in Hx. destruct Hx as [n [<- Hn]].
      apply in_seq in Hn. rewrite Nat2Z.id.
      assert (Hnc : n < c) by lia.
      rewrite (get_channel_row s v c k n Hv Hs Hnc). cbn [rbind].
      apply (Hker n _ Hnc (get_channel_row s v c k n Hv Hs Hnc)). }
  destruct (stack_entries (map Zs (seq 0 c)) [F; T])
    as [st [Hst [Hsts [Hstwf Hstg]]]].
  { destruct c; [lia|]. simpl. discriminate. }
  { apply List.Forall_forall. intros x Hx. apply in_map_iff in Hx.
    destruct Hx as [n [<- Hn]]. apply in_seq in Hn.
    assert (Hnc : n < c) by lia.
    apply (Hker n _ Hnc (get_channel_row s v c k n Hv Hs Hnc)). }
  rewrite length_map, length_seq in Hsts, Hstg.
  destruct (transpose_120_entries st c F T Hsts) as [d [Hd [Hds [Hdwf Hdg]]]].
  exists d. split.
  { unfold stft_calculate. rewrite Hv. cbn [rbind]. rewrite Hsize.
    cbn [rbind]. rewrite Hw, Hh, Ht. cbn [rbind]. rewrite Hwin.
    cbn [rbind]. rewrite (channel_range_audio s v c k Hv Hs). cbn [rbind].
    rewrite Hloop. cbn [rbind]. rewrite Hst. cbn [rbind]. exact Hd. }
  split; [exact Hds|]. split; [exact Hdwf|].
  intros n f t Hn Hf Ht'. rewrite Hdg by assumption.
  rewrite (Hstg n [f; t] Hn (valid2 F T f t Hf Ht')).
  rewrite nth_map_seq by assumption. reflexivity.
Qed.

(** A channel of stored STFT data, when the audio data tell the number
    of channels. *)
Lemma get_stft_channel_stored (s : AudioSignal A) (v d z : ndarray A)
  (c k F T n : nat) :
  audio_data s = Ok (Some v) -> shape v = [c; k] ->
  shape d = [F; T; c] -> n < c ->
  shape z = [F; T] -> well_formed z ->
  (forall f t, f < F -> t < T -> get d [f; t; n] = get z [f; t]) ->
  get_stft_channel (Z.of_nat n) (with_stft_data (Some d) s) = Ok z.
Proof.
  intros Hv Hs Hds Hn Hzs Hzwf Hz.
  unfold get_stft_channel, _verify_get_channel. cbn [stft_data _stft_data
    with_stft_data].
  assert (Hnc : num_channels (with_stft_data (Some d) s)
                = Ok (Some (Z.of_nat c))).
  { apply (num_channels_audio (with_stft_data (Some d) s) v c k);
      [rewrite audio_data_with_stft_data|]; assumption. }
  rewrite Hnc. cbn [rbind].
  destruct (Z.leb_spec (Z.of_nat c) (Z.of_nat n)); [lia|].
  destruct (Z.ltb_spec (Z.of_nat n) 0); [lia|]. cbn [rbind].
  rewrite Nat2Z.id.
  destruct (get_axis_channel d F T c n Hds Hn) as [ch [Hch [Hchs [Hchwf Hchg]]]].
  rewrite Hch. f_equal. apply array_ext; try assumption; [congruence|].
  rewrite Hchs. intros idx Hidx.
  destruct (valid2_inv F T idx Hidx) as [f [t [-> [Hf Ht]]]].
  rewrite Hchg by assumption. apply Hz; assumption.
Qed.

(** X10. [stft] runs the transform on every channel of the active
    slice, with the window and the lengths of [stft_params] unless they
    are given, and lays the results, [F] bins by [T] hops each, along a
    last axis.  It returns the array in either case and stores it only
    when [overwrite] is set; [get_stft_channel(n)] then gives the
    transform of channel [n] back, and [get_stft_channels()] all of them
    in order. *)
Theorem stft_channels (sp : SciPy A) (kernel : stft_kernel)
  (wl hl : option Z) (wt : option string) (s : AudioSignal A)
  (v : ndarray A) (c k : nat) (w hp : Z) (ty : string) (win : list A)
  (Zs : nat -> ndarray A) (F T : nat) :
  audio_data s = Ok (Some v) -> shape v = [c; k] -> 0 < c -> 0 < k ->
  param wl window_length s = Ok w -> param hl hop_length s = Ok hp ->
  param wt window_type s = Ok ty -> get_window sp ty w = Ok win ->
  (forall n ch, n < c -> get_channel (Z.of_nat n) s = Ok ch ->
     kernel (sample_rate s) win w (w - hp)%Z ch = Ok (Zs n) /\
     shape (Zs n) = [F; T] /\ well_formed (Zs n)) ->
  exists d,
    shape d = [F; T; c] /\
    (forall n f t, n < c -> f < F -> t < T ->
       get d [f; t; n] = get (Zs n) [f; t]) /\
    stft sp kernel wl hl wt false s = (s, Ok d) /\
    stft sp kernel wl hl wt true s = (with_stft_data (Some d) s, Ok d) /\
    (forall n, n < c ->
       get_stft_channel (Z.of_nat n) (with_stft_data (Some d) s)
         = Ok (Zs n)) /\
    get_stft_channels (with_stft_data (Some d) s) = Ok (map Zs (seq 0 c)).
Proof.
  intros Hv Hs Hc Hk Hw Hh Ht Hwin Hker.
  destruct (stft_calculate_channels sp kernel wl hl wt s v c k w hp ty win
              Zs F T Hv Hs Hc Hk Hw Hh Ht Hwin Hker)
    as [d [Hd [Hds [Hdwf Hdg]]]].
  exists d. split; [exact Hds|]. split; [exact Hdg|].
  split; [|split].
  - unfold stft. unfold_m. rewrite Hd. reflexivity.
  - unfold stft. unfold_m. rewrite Hd.
    rewrite (stft_data_setter_spectrogram s d F T c Hds). reflexivity.
  - assert (Hchan : forall n, n < c ->
              get_stft_channel (Z.of_nat n) (with_stft_data (Some d) s)
                = Ok (Zs n)).
    { intros n Hn.
      destruct (Hker n _ Hn (get_channel_row s v c k n Hv Hs Hn))
        as [_ [Hzs Hzwf]].
      apply (get_stft_channel_stored s v d (Zs n) c k F T n); try assumption.
      intros f t Hf Ht'. apply Hdg; assumption. }
    split; [exact Hchan|].
    unfold get_stft_channels.
    rewrite (channel_range_audio (with_stft_data (Some d) s) v c k Hv Hs).
    cbn [rbind].
    rewrite (for_each_map _ (fun i => Zs (Z.to_nat i))).
    + rewrite map_map. f_equal. apply map_ext. intros n.
      rewrite Nat2Z.id. reflexivity.
    + intros x Hx. apply in_map_iff in Hx. destruct Hx as [n [<- Hn]].
      apply in_seq in Hn. rewrite Nat2Z.id. apply Hchan. lia.
Qed.


Lemma array_of_rows_entries (rows : list (list A)) (p : nat) :
  rows <> [] -> Forall (fun l => length l = p) rows ->
  exists m, array_of_rows rows = Ok m /\ shape m = [length rows; p] /\
    well_formed m /\
    forall i j, i < length rows -> j < p ->
      get m [i; j] = nth j (nth i rows []) s_zero.
Proof.
  intros Hne Hall. destruct rows as [|r0 rest]; [congruence|].
  assert (Hr0 : length r0 = p) by (inversion Hall; assumption).
  assert (Hsame : forallb (fun x => length x =? length r0) (r0 :: rest)
                  = true).
  { apply forallb_forall. intros x Hx. apply Nat.eqb_eq.
    rewrite List.Forall_forall in Hall. rewrite (Hall x Hx). congruence. }
  unfold array_of_rows. rewrite Hsame. rewrite Hr0.
  eexists. split; [reflexivity|]. split; [reflexivity|]. split.
  - unfold well_formed. cbn [shape data prod].
    rewrite (length_concat_uniform _ _ Hall). lia.
  - intros i j Hi Hj. unfold get. cbn [shape data ravel prod].
    replace (i * (p * 1) + (j * 1 + 0)) with (i * p + j) by lia.
    apply nth_concat_uniform; assumption.
Qed.

(** X11. Round trip.  When the inverse transform of SciPy gives, for the
    transform [Zs n] of each channel, the samples of the channel
    followed by [p] samples of padding, [stft()] and then [istft()]
    reconstruct the active slice [v] exactly: the padding is cut off
    at [signal_length].  With [overwrite=True] the slice then replaces
    all the stored audio data, and the active region is the default
    one. *)
Theorem stft_istft_round_trip (sp : SciPy A) (kernel : stft_kernel)
  (wl hl : option Z) (wt : option string) (s : AudioSignal A)
  (v : ndarray A) (c k : nat) (w hp : Z) (ty : string) (win : list A)
  (Zs : nat -> ndarray A) (pads : nat -> list A) (F T p : nat) :
  audio_data s = Ok (Some v) -> shape v = [c; k] -> 0 < c -> c <= k ->
  isfinite_all v = true -> 0 < F -> 0 < T ->
  param wl window_length s = Ok w -> param hl hop_length s = Ok hp ->
  param wt window_type s = Ok ty -> get_window sp ty w = Ok win ->
  (forall n ch, n < c -> get_channel (Z.of_nat n) s = Ok ch ->
     kernel (sample_rate s) win w (w - hp)%Z ch = Ok (Zs n) /\
     shape (Zs n) = [F; T] /\ well_formed (Zs n) /\
     sp_istft sp (sample_rate s) win w (w - hp)%Z (Zs n)
       = Ok (data ch ++ pads n) /\
     length (pads n) = p) ->
  exists d,
    stft sp kernel wl hl wt true s = (with_stft_data (Some d) s, Ok d) /\
    istft sp wl hl wt false None (with_stft_data (Some d) s)
      = (with_stft_data (Some d) s, Ok v) /\
    istft sp wl hl wt true None (with_stft_data (Some d) s)
      = (with_active_end (Some (Z.of_nat k))
           (with_active_start (Some 0%Z)
              (with_audio_data (Some v) (with_stft_data (Some d) s))),
         Ok v).
Proof.
  intros Hv Hs Hc Hck Hfin HF HT Hw Hh Ht Hwin Hker.
  assert (Hk : 0 < k) by lia.
  pose proof (audio_data_well_formed s v Hv) as Hvwf.
  assert (Hker' : forall n ch, n < c -> get_channel (Z.of_nat n) s = Ok ch ->
     kernel (sample_rate s) win w (w - hp)%Z ch = Ok (Zs n) /\
     shape (Zs n) = [F; T] /\ well_formed (Zs n)).
  { intros n ch Hn Hch. destruct (Hker n ch Hn Hch) as [H1 [H2 [H3 _]]].
    auto. }
  destruct (stft_calculate_channels sp kernel wl hl wt s v c k w hp ty win
              Zs F T Hv Hs Hc Hk Hw Hh Ht Hwin Hker')
    as [d [Hd [Hds [Hdwf Hdg]]]].
  set (s1 := with_stft_data (Some d) s).
  assert (Hv1 : audio_data s1 = Ok (Some v)) by exact Hv.
  set (row := fun n => tabulate [k] (fun idx => get v (n :: idx))).
  set (rows := map (fun n => data (row n) ++ pads n) (seq 0 c)).
  assert (Hrowlen : forall n, length (data (row n)) = k).
  { intros n. unfold row, tabulate. cbn [data prod].
    rewrite length_map, length_seq. lia. }
  assert (Hrows : Forall (fun l => length l = k + p) rows).
  { apply List.Forall_forall. intros l Hl. apply in_map_iff in Hl.
    destruct Hl as [n [<- Hn]]. apply in_seq in Hn.
    assert (Hnc : n < c) by lia.
    destruct (Hker n _ Hnc (get_channel_row s v c k n Hv Hs Hnc))
      as [_ [_ [_ [_ Hp]]]].
    rewrite length_app, Hrowlen, Hp. reflexivity. }
  destruct (array_of_rows_entries rows (k + p)) as [m [Hm [Hms [Hmwf Hmg]]]].
  { unfold rows. destruct c; [lia|]. simpl. discriminate. }
  { exact Hrows. }
  unfold rows in Hms, Hmg. rewrite length_map, length_seq in Hms, Hmg.
  fold rows in Hmg.
  assert (Hmv : forall i j, i < c -> j < k -> get m [i; j] = get v [i; j]).
  { intros i j Hi Hj. rewrite Hmg by lia. unfold rows.
    rewrite nth_map_seq by assumption.
    rewrite app_nth1 by (rewrite Hrowlen; assumption).
    assert (Hget : get (row i) [j] = nth j (data (row i)) s_zero).
    { unfold get. f_equal. simpl. lia. }
    rewrite <- Hget.
    unfold row. rewrite get_tabulate by (apply valid1; assumption).
    reflexivity. }
  assert (Hcalc : istft_calculate sp wl hl wt s1 = Ok m).
  { unfold istft_calculate. cbn [stft_data _stft_data s1 with_stft_data].
    assert (Hsize : (size d =? 0) = false).
    { unfold size. rewrite Hds. simpl. apply Nat.eqb_neq. nia. }
    rewrite Hsize. cbn [rbind].
    change (param wl window_length s1) with (param wl window_length s).
    change (param hl hop_length s1) with (param hl hop_length s).
    change (param wt window_type s1) with (param wt window_type s).
    rewrite Hw, Hh, Ht. cbn [rbind]. rewrite Hwin. cbn [rbind].
    rewrite (channel_range_audio s1 v c k Hv1 Hs). cbn [rbind].
    rewrite (for_each_map _
               (fun i => data (row (Z.to_nat i)) ++ pads (Z.to_nat i))).
    - cbn [rbind]. rewrite map_map.
      replace (map (fun x => data (row (Z.to_nat (Z.of_nat x)))
                               ++ pads (Z.to_nat (Z.of_nat x))) (seq 0 c))
        with rows
        by (unfold rows; apply map_ext; intros n; rewrite Nat2Z.id;
            reflexivity).
      rewrite Hm. cbn [rbind]. unfold ndim. rewrite Hms.
      destruct (decide (length [c; k + p] = 1)) as [Hbad|_];
        [discriminate|reflexivity].
    - intros x Hx. apply in_map_iff in Hx. destruct Hx as [n [<- Hn]].
      apply in_seq in Hn. rewrite Nat2Z.id.
      assert (Hnc : n < c) by lia.
      destruct (Hker n _ Hnc (get_channel_row s v c k n Hv Hs Hnc))
        as [_ [Hzs [Hzwf [Hinv _]]]].
      unfold s1.
      rewrite (get_stft_channel_stored s v d (Zs n) c k F T n)
        by (try assumption; intros f t Hf Ht'; apply Hdg; assumption).
      cbn [rbind]. exact Hinv. }
  destruct (num_channels_audio s1 v c k Hv1 Hs) as [_ Hlen].
  assert (Hpos : (0 < Z.of_nat k)%Z) by lia.
  destruct (slice_cols_prefix m c (k + p) (Z.of_nat k) Hms Hpos)
    as [out [Hout [Hos Hog]]].
  replace (Nat.min (Z.to_nat (Z.of_nat k)) (k + p)) with k in * by lia.
  assert (Hov : out = v).
  { apply array_ext; [congruence| |assumption|].
    - apply (slice_cols_well_formed _ _ _ _ Hout).
    - rewrite Hos. intros idx Hidx.
      destruct (valid2_inv c k idx Hidx) as [i [j [-> [Hi Hj]]]].
      rewrite Hog by assumption. apply Hmv; assumption. }
  subst out.
  assert (Htrunc : istft_truncate_to_length None s1 = Ok (Some (Z.of_nat k))).
  { unfold istft_truncate_to_length. rewrite Hlen. reflexivity. }
  assert (Hcut : (if (0 <? Z.of_nat k)%Z then slice_cols m 0 (Z.of_nat k)
                  else Ok m) = Ok v).
  { destruct (Z.ltb_spec 0 (Z.of_nat k)); [assumption|lia]. }
  exists d. split; [|split].
  - unfold stft. unfold_m. rewrite Hd.
    rewrite (stft_data_setter_spectrogram s d F T c Hds). reflexivity.
  - fold s1.
    rewrite (istft_run sp wl hl wt false None s1 m v (Some (Z.of_nat k))
               (Some v)) by assumption.
    reflexivity.
  - fold s1.
    rewrite (istft_run sp wl hl wt true None s1 m v (Some (Z.of_nat k))
               (Some v)) by assumption.
    cbn [orb]. unfold bind.
    rewrite (audio_data_setter_matrix s1 v c k Hfin Hs).
    destruct (Nat.ltb_spec k c); [lia|]. reflexivity.
Qed.

End ForwardFacts.

(* ===================================================================== *)
(** * Construction *)
(* ===================================================================== *)

Section ConstructionFacts.
Context {A : Type} `{Scalar A}.
Import Np Np2.

(** The setter of [stft_params] writes nothing but [_stft_params]. *)
Lemma stft_params_setter_frame (sp : SciPy A) (p : params_arg)
  (s s' : AudioSignal A) (r : result unit) :
  stft_params_setter sp p s = (s', r) ->
  s' = with_stft_params (_stft_params s') s.
Proof.
  assert (Hid : s = with_stft_params (_stft_params s) s)
    by (destruct s; reflexivity).
  unfold stft_params_setter. unfold_m. destruct p.
  - destruct (default_stft_params s) as [d|e]; cbn [fill].
    + repeat match goal with
             | |- context [match ?x with _ => _ end] => destruct x
             end; intros Heq; inversion Heq; reflexivity.
    + intros Heq. inversion Heq; subst. exact Hid.
  - destruct (default_stft_params s) as [d|e]; cbn [fill].
    + repeat match goal with
             | |- context [match ?x with _ => _ end] => destruct x
             end; intros Heq; inversion Heq; reflexivity.
    + intros Heq. inversion Heq; subst. exact Hid.
  - destruct (default_stft_params s) as [d|e]; cbn [fill].
    + repeat match goal with
             | |- context [match ?x with _ => _ end] => destruct x
             end; intros Heq; inversion Heq; reflexivity.
    + intros Heq. inversion Heq; subst. exact Hid.
  - intros Heq. inversion Heq; subst. exact Hid.
Qed.



(** X13. [AudioSignal(stft=d)] for a spectrogram of [F] bins, [T] hops
    and [C] channels: the object has no audio data and no recorded
    length, so [signal_length] is [None] and [len()] fails with a
    [TypeError]; the channels and the hops are counted on the STFT
    data; [has_data] tells whether the spectrogram has an element; and
    [set_active_region] fails with a [TypeError], there being no length
    to compare the end with. *)
Theorem init_from_stft (sp : SciPy A) (d : ndarray A) (F T C : nat)
  (lab : option string) (sr : option Z) (p : params_arg) :
  shape d = [F; T; C] ->
  forall s r,
    __init__ sp None (Some d) lab sr p (blank lab) = (s, r) ->
    _audio_data s = None /\
    _stft_data s = Some d /\
    _sample_rate s = Some (match sr with
                           | Some x => x
                           | None => DEFAULT_SAMPLE_RATE
                           end) /\
    signal_length s = Ok None /\
    __len__ s = Raise TypeError /\
    num_channels s = Ok (Some (Z.of_nat C)) /\
    stft_length s = Ok (Z.of_nat T) /\
    has_data s = Ok (negb (F * T * C =? 0)) /\
    forall b e, snd (set_active_region b e s) = Raise TypeError.
Proof.
  intros Hs s r Hrun.
  unfold __init__ in Hrun.
  unfold bind at 1 in Hrun. cbn [ret] in Hrun.
  unfold bind at 1 in Hrun. unfold bind at 1 in Hrun.
  unfold read at 1 in Hrun. cbn [_sample_rate blank assign] in Hrun.
  unfold bind at 1 in Hrun.
  rewrite (stft_data_setter_spectrogram _ d F T C Hs) in Hrun.
  pose proof (stft_params_setter_frame sp p _ s r Hrun) as Hframe.
  rewrite Hframe.
  split; [reflexivity|]. split; [reflexivity|]. split; [reflexivity|].
  split; [reflexivity|]. split; [reflexivity|].
  split.
  { unfold num_channels, audio_data, stft_data, shape_at. simpl.
    rewrite Hs. reflexivity. }
  split.
  { unfold stft_length, stft_data, shape_at, STFT_LEN_INDEX. simpl.
    rewrite Hs. reflexivity. }
  split.
  { unfold has_data, audio_data, stft_data, size. simpl. rewrite Hs.
    simpl. do 3 f_equal. lia. }
  intros b e. reflexivity.
Qed.

End ConstructionFacts.

(* ===================================================================== *)
(** * Defaults and guards *)
(* ===================================================================== *)

Section DefaultParamFacts.
Context {A : Type} `{Scalar A}.
Import Np Np2.


(** X15. An object for which [has_data] is false has nothing to
    transform: [stft] and [istft] raise [AudioSignalException],
    whatever their arguments, and change nothing. *)
Theorem no_data_no_transform (sp : SciPy A) (kernel : stft_kernel)
  (wl hl : option Z) (wt : option string) (overwrite : bool)
  (t : option Z) (s : AudioSignal A) :
  has_data s = Ok false ->
  stft sp kernel wl hl wt overwrite s = (s, Raise AudioSignalException) /\
  istft sp wl hl wt overwrite t s = (s, Raise AudioSignalException).
Proof.
  unfold has_data. destruct (audio_data s) as [a|e] eqn:Ha; [|discriminate].
  cbn [rbind]. intros Hno. inversion Hno as [Hor]. clear Hno.
  apply orb_false_iff in Hor. destruct Hor as [Haudio Hstft].
  split.
  - unfold stft. unfold_m. unfold stft_calculate. rewrite Ha. cbn [rbind].
    destruct a as [v|]; [|reflexivity].
    apply negb_false_iff in Haudio. rewrite Haudio. reflexivity.
  - unfold istft. unfold_m. unfold istft_calculate.
    destruct (stft_data s) as [d|]; [|reflexivity].
    apply negb_false_iff in Hstft. rewrite Hstft. reflexivity.
Qed.

End DefaultParamFacts.

(* ===================================================================== *)
(** * What every object satisfies *)
(* ===================================================================== *)

Section InvariantFacts.
Context {A : Type} `{Scalar A}.
Import Np Np2.

Lemma keeps_ret (P : AudioSignal A -> Prop) {T} (v : T) : keeps P (ret v).
Proof. intros s s' r HP Heq. inversion Heq; subst. exact HP. Qed.

Lemma keeps_raise (P : AudioSignal A -> Prop) {T} (e : exn) :
  keeps P (raise (T := T) e).
Proof. intros s s' r HP Heq. inversion Heq; subst. exact HP. Qed.

Lemma keeps_lift (P : AudioSignal A -> Prop) {T} (x : result T) :
  keeps P (lift x).
Proof. intros s s' r HP Heq. inversion Heq; subst. exact HP. Qed.

Lemma keeps_read (P : AudioSignal A -> Prop) {T}
  (f : AudioSignal A -> result T) : keeps P (read f).
Proof. intros s s' r HP Heq. inversion Heq; subst. exact HP. Qed.

Lemma keeps_bind (P : AudioSignal A -> Prop) {T U} (m : M A T)
  (k : T -> M A U) :
  keeps P m -> (forall v, keeps P (k v)) -> keeps P (bind m k).
Proof.
  intros Hm Hk s s' r HP Heq. unfold bind in Heq.
  destruct (m s) as [s1 [v|e]] eqn:Hms.
  - apply (Hk v s1 s' r); [apply (Hm s s1 (Ok v)); assumption|assumption].
  - inversion Heq; subst. apply (Hm s s' (Raise e)); assumption.
Qed.

Lemma keeps_assign (P : AudioSignal A -> Prop)
  (f : AudioSignal A -> AudioSignal A) :
  (forall s, P s -> P (f s)) -> keeps P (assign f).
Proof. intros Hf s s' r HP Heq. inversion Heq; subst. auto. Qed.

Lemma keeps_and (P Q : AudioSignal A -> Prop) {T} (m : M A T) :
  keeps P m -> keeps Q m -> keeps (fun s => P s /\ Q s) m.
Proof.
  intros HP HQ s s' r [Hp Hq] Heq. split; [eapply HP|eapply HQ]; eassumption.
Qed.

Section Kept.
Variable P : AudioSignal A -> Prop.
Hypothesis P_audio : forall v, keeps P (audio_data_setter v).
Hypothesis P_stft : forall v, keeps P (stft_data_setter v).
Hypothesis P_start : forall v s, P s -> P (with_active_start v s).
Hypothesis P_end : forall v s, P s -> P (with_active_end v s).
Hypothesis P_path : forall v s, P s -> P (with_path v s).
Hypothesis P_original :
  forall v s, P s -> P (with_original_signal_length v s).
Hypothesis P_params : forall v s, P s -> P (with_stft_params v s).
Hypothesis P_rate : forall v s, P s -> P (with_sample_rate (Some v) s).

Ltac kept_step :=
  match goal with
  | |- keeps _ (bind _ _) => apply keeps_bind; [|intros ?]
  | |- keeps _ (ret _) => apply keeps_ret
  | |- keeps _ (raise _) => apply keeps_raise
  | |- keeps _ (lift _) => apply keeps_lift
  | |- keeps _ (read _) => apply keeps_read
  | |- keeps _ (assign _) => apply keeps_assign; solve [auto]
  | |- keeps _ (audio_data_setter _) => apply P_audio
  | |- keeps _ (stft_data_setter _) => apply P_stft
  | |- keeps _ (match ?x with _ => _ end) => destruct x
  | |- keeps _ _ => solve [auto]
  end.

Ltac kept := repeat kept_step.

Lemma kept_set_active_region_to_default :
  keeps P set_active_region_to_default.
Proof. unfold set_active_region_to_default. kept. Qed.

Lemma kept_set_active_region (b e : Z) : keeps P (set_active_region b e).
Proof. unfold set_active_region. kept. Qed.

Lemma kept_stft_params_setter (sp : SciPy A) (v : params_arg) :
  keeps P (stft_params_setter sp v).
Proof. unfold stft_params_setter. kept. Qed.

Lemma kept_load_audio_from_array (a : ndarray A) (sr : option Z) :
  keeps P (load_audio_from_array a sr).
Proof.
  pose proof kept_set_active_region_to_default.
  unfold load_audio_from_array. kept.
Qed.

Lemma kept_istft (sp : SciPy A) (wl hl : option Z) (wt : option string)
  (overwrite : bool) (t : option Z) :
  keeps P (istft sp wl hl wt overwrite t).
Proof. unfold istft. kept. Qed.

Lemma kept_stft (sp : SciPy A) (kernel : stft_kernel) (wl hl : option Z)
  (wt : option string) (overwrite : bool) :
  keeps P (stft sp kernel wl hl wt overwrite).
Proof. unfold stft. kept. Qed.

Lemma kept_concat (o : AudioSignal A) : keeps P (concat o).
Proof. unfold concat, _verify_audio. kept. Qed.

Lemma kept_truncate_samples (n : Z) : keeps P (truncate_samples n).
Proof. unfold truncate_samples. kept. Qed.

Lemma kept_truncate_seconds (x : Q) : keeps P (truncate_seconds x).
Proof.
  pose proof kept_truncate_samples. unfold truncate_seconds. kept.
Qed.

Lemma kept_crop_signal (b a : Z) : keeps P (crop_signal b a).
Proof.
  pose proof kept_set_active_region_to_default.
  unfold crop_signal. kept.
Qed.

Lemma kept_zero_pad (b a : Z) : keeps P (zero_pad b a).
Proof. unfold zero_pad. kept. Qed.

Lemma kept_apply_gain (v : pyobj A) : keeps P (apply_gain v).
Proof. unfold apply_gain. kept. Qed.

Lemma kept_itruediv (v : pyobj A) : keeps P (__itruediv__ v).
Proof.
  pose proof kept_apply_gain. unfold __itruediv__, __idiv__. kept.
Qed.

Lemma kept_run (sp : SciPy A) (c : call) : keeps P (run sp c).
Proof.
  destruct c; simpl;
    auto using kept_set_active_region_to_default, kept_set_active_region,
      kept_stft_params_setter, kept_load_audio_from_array, kept_concat,
      kept_truncate_samples, kept_truncate_seconds, kept_crop_signal,
      kept_zero_pad, kept_apply_gain, kept_itruediv.
  apply keeps_bind; [apply kept_istft|intros ?; apply keeps_ret].
Qed.

Lemma kept_init (sp : SciPy A) (a d : option (ndarray A))
  (l : option string) (sr : option Z) (p : params_arg) :
  keeps P (__init__ sp a d l sr p).
Proof.
  pose proof kept_load_audio_from_array.
  pose proof kept_stft_params_setter.
  unfold __init__. kept.
Qed.

End Kept.

(** The setter of the audio data: what it stores is a matrix with no
    more channels than samples, the empty channel apart, or the vector
    of one element that a scalar becomes. *)
Lemma audio_data_setter_oriented (value : pyobj A) :
  keeps audio_oriented (audio_data_setter value).
Proof.
  assert (Hregion : keeps audio_oriented
                      (set_active_region_to_default (A := A)))
    by (apply kept_set_active_region_to_default; intros v s Hs; exact Hs).
  unfold audio_data_setter. destruct value; try apply keeps_raise.
  - apply keeps_assign. intros s _ a' Ha'. discriminate.
  - destruct (negb (isfinite_all a)); [apply keeps_raise|].
    cbv zeta.
    match goal with
    | |- context [2 <? ndim ?x] =>
        set (value := x); destruct (2 <? ndim value) eqn:Hnd
    end; [apply keeps_raise|].
    apply Nat.ltb_ge in Hnd.
    apply keeps_bind; [|intros _; exact Hregion].
    apply keeps_assign. intros s _ a' Ha'. simpl in Ha'.
    inversion Ha'; subst a'. clear Ha'.
    unfold value in *. clear value. unfold ndim in *.
    destruct (shape a) as [|c [|l rest]] eqn:Hs.
    + right. rewrite Hs. simpl. unfold expand_dims. rewrite Hs. reflexivity.
    + left. exists 1, c. rewrite Hs. simpl. unfold expand_dims. rewrite Hs.
      simpl. split; [reflexivity|right; reflexivity].
    + left. destruct (Nat.ltb_spec l c) as [Hlt|Hge].
      * unfold transpose in *. cbn [shape tabulate] in *. rewrite Hs in *.
        rewrite length_rev in Hnd. simpl in Hnd.
        destruct rest; [|simpl in Hnd; lia].
        simpl. exists l, c. split; [reflexivity|left; lia].
      * rewrite Hs in Hnd. simpl in Hnd.
        destruct rest; [|simpl in Hnd; lia].
        rewrite Hs. simpl. exists c, l. split; [exact Hs|left; lia].
Qed.

(** The setter of the STFT data: what it stores has three axes, or
    none. *)
Lemma stft_data_setter_ranked (value : pyobj A) :
  keeps stft_ranked (stft_data_setter value).
Proof.
  unfold stft_data_setter. destruct value; try apply keeps_raise.
  - apply keeps_assign. intros s _ d Hd. discriminate.
  - destruct (decide (ndim a = 1)) as [H1|H1]; [apply keeps_raise|].
    cbv zeta.
    destruct (decide (ndim a = 2)) as [H2|H2].
    + assert (Hn : ndim (expand_dims a STFT_CHAN_INDEX) = 3).
      { unfold ndim, expand_dims, STFT_CHAN_INDEX in *. simpl.
        destruct (shape a) as [|x [|y [|z rest]]]; simpl in *;
          first [lia | reflexivity]. }
      rewrite Hn. simpl. apply keeps_assign. intros s _ d Hd.
      simpl in Hd. inversion Hd; subst. left. exact Hn.
    + destruct (3 <? ndim a) eqn:H3; [apply keeps_raise|].
      apply Nat.ltb_ge in H3.
      apply keeps_assign. intros s _ d Hd. simpl in Hd.
      inversion Hd; subst. lia.
Qed.

(** A property that does not depend on the audio data or on the
    region is kept by the setter of the audio data; likewise for the
    STFT data. *)
Lemma keeps_audio_data_setter (P : AudioSignal A -> Prop) :
  (forall v s, P s -> P (with_audio_data v s)) ->
  (forall v s, P s -> P (with_active_start v s)) ->
  (forall v s, P s -> P (with_active_end v s)) ->
  forall v, keeps P (audio_data_setter v).
Proof.
  intros Ha Hb He v.
  assert (Hregion : keeps P set_active_region_to_default).
  { unfold set_active_region_to_default.
    apply keeps_bind; [apply keeps_assign; auto|intros _].
    apply keeps_bind; [apply keeps_read|intros n].
    apply keeps_assign; auto. }
  unfold audio_data_setter. destruct v; try apply keeps_raise.
  - apply keeps_assign; auto.
  - destruct (negb (isfinite_all a)); [apply keeps_raise|]. cbv zeta.
    match goal with
    | |- keeps _ (if ?b then _ else _) => destruct b
    end; [apply keeps_raise|].
    apply keeps_bind; [apply keeps_assign; auto|intros _; exact Hregion].
Qed.

Lemma keeps_stft_data_setter (P : AudioSignal A -> Prop) :
  (forall v s, P s -> P (with_stft_data v s)) ->
  forall v, keeps P (stft_data_setter v).
Proof.
  intros Hd v. unfold stft_data_setter. destruct v; try apply keeps_raise.
  - apply keeps_assign; auto.
  - destruct (decide (ndim a = 1)); [apply keeps_raise|]. cbv zeta.
    match goal with
    | |- keeps _ (if ?b then _ else _) => destruct b
    end; [apply keeps_raise|apply keeps_assign; auto].
Qed.

Ltac same_fields := intros ? ? Hsame; exact Hsame.

Lemma kept_audio_oriented :
  (forall sp (c : call), keeps audio_oriented (run sp c)) /\
  (forall sp a d l sr p, keeps audio_oriented (__init__ (A := A) sp a d l sr p)) /\
  (forall sp kernel wl hl wt ow,
     keeps audio_oriented (stft (A := A) sp kernel wl hl wt ow)).
Proof.
  assert (Hstft : forall v : pyobj A,
            keeps audio_oriented (stft_data_setter v))
    by (apply keeps_stft_data_setter; same_fields).
  split; [|split]; intros.
  - apply kept_run;
      first [exact audio_data_setter_oriented | exact Hstft | same_fields].
  - apply kept_init;
      first [exact audio_data_setter_oriented | exact Hstft | same_fields].
  - apply kept_stft;
      first [exact audio_data_setter_oriented | exact Hstft | same_fields].
Qed.

Lemma kept_stft_ranked :
  (forall sp (c : call), keeps stft_ranked (run sp c)) /\
  (forall sp a d l sr p, keeps stft_ranked (__init__ (A := A) sp a d l sr p)) /\
  (forall sp kernel wl hl wt ow,
     keeps stft_ranked (stft (A := A) sp kernel wl hl wt ow)).
Proof.
  assert (Haudio : forall v : pyobj A,
            keeps stft_ranked (audio_data_setter v))
    by (apply keeps_audio_data_setter; same_fields).
  split; [|split]; intros.
  - apply kept_run;
      first [exact Haudio | exact stft_data_setter_ranked | same_fields].
  - apply kept_init;
      first [exact Haudio | exact stft_data_setter_ranked | same_fields].
  - apply kept_stft;
      first [exact Haudio | exact stft_data_setter_ranked | same_fields].
Qed.

Lemma kept_rate_set :
  (forall sp (c : call), keeps rate_set (run sp c)) /\
  (forall sp a d l sr p, keeps rate_set (__init__ (A := A) sp a d l sr p)) /\
  (forall sp kernel wl hl wt ow,
     keeps rate_set (stft (A := A) sp kernel wl hl wt ow)).
Proof.
  assert (Haudio : forall v : pyobj A, keeps rate_set (audio_data_setter v))
    by (apply keeps_audio_data_setter; same_fields).
  assert (Hstft : forall v : pyobj A, keeps rate_set (stft_data_setter v))
    by (apply keeps_stft_data_setter; same_fields).
  assert (Hrate : forall (v : Z) (s : AudioSignal A),
            rate_set s -> rate_set (with_sample_rate (Some v) s))
    by (intros v s _ Hx; discriminate Hx).
  split; [|split]; intros.
  - apply kept_run;
      first [exact Haudio | exact Hstft | exact Hrate | same_fields].
  - apply kept_init;
      first [exact Haudio | exact Hstft | exact Hrate | same_fields].
  - apply kept_stft;
      first [exact Haudio | exact Hstft | exact Hrate | same_fields].
Qed.

(** The constructor sets the sample rate before it returns. *)
Lemma init_rate_set (sp : SciPy A) (a d : option (ndarray A))
  (l : option string) (sr : option Z) (p : params_arg)
  (s0 s : AudioSignal A) :
  __init__ sp a d l sr p s0 = (s, Ok tt) -> rate_set s.
Proof.
  assert (Hrest : forall v s2 s3 r,
            rate_set s2 ->
            bind (stft_data_setter v) (fun _ => stft_params_setter sp p) s2
              = (s3, r) -> rate_set s3).
  { intros v s2 s3 r Hs2 Hrun.
    refine (keeps_bind rate_set _ _ _ _ s2 s3 r Hs2 Hrun).
    - apply keeps_stft_data_setter. same_fields.
    - intros _. apply kept_stft_params_setter. same_fields. }
  assert (Hmid : forall (s1 : AudioSignal A) v,
            bind (bind (read (fun s => Ok (_sample_rate s)))
                    (fun r => match r with
                              | None =>
                                  assign (with_sample_rate
                                    (Some (match sr with
                                           | Some r => r
                                           | None => DEFAULT_SAMPLE_RATE
                                           end)))
                              | Some _ => ret tt
                              end))
                 (fun _ => bind (stft_data_setter v)
                             (fun _ => stft_params_setter sp p)) s1
              = (s, Ok tt) -> rate_set s).
  { intros s1 v. unfold bind at 1. unfold bind at 1. unfold read at 1.
    destruct (_sample_rate s1) as [x|] eqn:Hx; cbn [ret assign].
    - apply Hrest. unfold rate_set. rewrite Hx. discriminate.
    - apply Hrest. unfold rate_set. simpl. discriminate. }
  unfold __init__. destruct a as [a|], d as [d|]; try discriminate.
  - unfold bind at 1.
    destruct (load_audio_from_array a sr s0) as [s1 [[]|e]];
      [apply Hmid|discriminate].
  - unfold bind at 1. cbn [ret]. apply Hmid.
  - unfold bind at 1. cbn [ret]. apply Hmid.
Qed.

(** X16. Every object, however it was built and whatever has been
    called on it since, keeps its arrays in shape: the stored audio data
    are a matrix with no more channels than samples (a single channel
    may be empty) or the vector of one element a scalar becomes, the
    stored STFT data have three axes or none, and the sample rate is
    set.  [stft] keeps all that too. *)
Theorem reachable_well_kept (sp : SciPy A) (s : AudioSignal A) :
  reachable sp s ->
  well_kept s /\
  forall kernel wl hl wt overwrite s' r,
    stft sp kernel wl hl wt overwrite s = (s', r) -> well_kept s'.
Proof.
  destruct kept_audio_oriented as [Ra [Ia Sa]].
  destruct kept_stft_ranked as [Rr [Ir Sr]].
  destruct kept_rate_set as [Rs [_ Ss]].
  intros Hreach.
  assert (Hs : well_kept s).
  { induction Hreach as [a d l sr p s Hinit|s c s' r _ IH Hrun].
    - split; [|split].
      + apply (Ia sp a d l sr p (blank l) s (Ok tt)); [|exact Hinit].
        intros x Hx. discriminate.
      + apply (Ir sp a d l sr p (blank l) s (Ok tt)); [|exact Hinit].
        intros x Hx. discriminate.
      + apply (init_rate_set sp a d l sr p (blank l) s Hinit).
    - destruct IH as [Ha [Hr Hsr]]. split; [|split].
      + apply (Ra sp c s s' r Ha Hrun).
      + apply (Rr sp c s s' r Hr Hrun).
      + apply (Rs sp c s s' r Hsr Hrun). }
  split; [exact Hs|].
  intros kernel wl hl wt ow s' r Hrun. destruct Hs as [Ha [Hr Hsr]].
  split; [|split].
  - apply (Sa sp kernel wl hl wt ow s s' r Ha Hrun).
  - apply (Sr sp kernel wl hl wt ow s s' r Hr Hrun).
  - apply (Ss sp kernel wl hl wt ow s s' r Hsr Hrun).
Qed.

End InvariantFacts.

(* ===================================================================== *)
(** * Equality of signals *)
(* ===================================================================== *)

Section EqualityFacts.
Context {A : Type} `{Scalar A}.
Import Np Np2.

Variable eqb : A -> A -> bool.
Hypothesis eqb_eq : forall x y, eqb x y = true <-> x = y.

Lemma list_eqb_eq (l l' : list A) : list_eqb eqb l l' = true <-> l = l'.
Proof.
  revert l'. induction l as [|x xs IH]; intros [|y ys]; simpl;
    try (split; [discriminate|discriminate]); [tauto|].
  rewrite andb_true_iff, eqb_eq, IH. split.
  - intros [-> ->]. reflexivity.
  - intros Heq. inversion Heq. auto.
Qed.

Lemma array_equal_eq (a b : ndarray A) : array_equal eqb a b = true <-> a = b.
Proof.
  unfold array_equal. rewrite andb_true_iff, bool_decide_eq_true, list_eqb_eq.
  destruct a as [sa da], b as [sb db]. simpl. split.
  - intros [-> ->]. reflexivity.
  - intros Heq. inversion Heq. auto.
Qed.

Lemma array_field_differs_spec (v w : option (ndarray A)) :
  (v = None -> w = None) ->
  exists b, array_field_differs eqb v w = Ok b /\ (b = false <-> v = w).
Proof.
  intros Hnone. destruct v as [a|], w as [b|]; simpl.
  - exists (negb (array_equal eqb a b)). split; [reflexivity|].
    rewrite negb_false_iff, array_equal_eq. split.
    + intros ->. reflexivity.
    + intros Heq. inversion Heq. reflexivity.
  - exists true. split; [reflexivity|]. split; discriminate.
  - specialize (Hnone eq_refl). discriminate.
  - exists false. split; [reflexivity|]. tauto.
Qed.

(** X17. [==] goes through the attributes in the order [__init__]
    creates them and answers at the first that differs.  When the test
    of the scalars decides their equality, and [self] has each array
    that [other] has, the answer is [True] exactly when all the
    attributes are equal, and [!=] is its negation. *)
Theorem eq_decides_equality (self other : AudioSignal A) :
  (_audio_data self = None -> _audio_data other = None) ->
  (_stft_data self = None -> _stft_data other = None) ->
  exists b, __eq__ eqb self other = Ok b /\
            (b = true <-> self = other) /\
            __ne__ eqb self other = Ok (negb b).
Proof.
  intros Haudio Hstft.
  assert (Hne : forall b, __eq__ eqb self other = Ok b ->
            __ne__ eqb self other = Ok (negb b))
    by (intros b Hb; unfold __ne__; rewrite Hb; reflexivity).
  assert (Hfalse : __eq__ eqb self other = Ok false -> self <> other ->
            exists b, __eq__ eqb self other = Ok b /\
              (b = true <-> self = other) /\
              __ne__ eqb self other = Ok (negb b)).
  { intros Hrun Hdiff. exists false. split; [exact Hrun|].
    split; [|apply (Hne false Hrun)].
    split; [discriminate|intros Heq; contradiction]. }
  destruct (array_field_differs_spec (_audio_data self) (_audio_data other)
              Haudio) as [ba [Hba Hba']].
  destruct (array_field_differs_spec (_stft_data self) (_stft_data other)
              Hstft) as [bs [Hbs Hbs']].
  unfold __eq__ in *. rewrite Hba, Hbs in *. cbn [rbind] in *.
  destruct (decide (path_to_input_file self = path_to_input_file other))
    as [E1|N1];
    [rewrite (bool_decide_eq_true_2 _ E1) in *
    |rewrite (bool_decide_eq_false_2 _ N1) in *;
     apply Hfalse; [reflexivity|congruence]].
  cbn [negb] in *.
  destruct ba;
    [apply Hfalse; [reflexivity|];
     intros Heq; assert (Hx : true = false) by (apply Hba'; congruence);
     discriminate|].
  destruct (decide (original_signal_length self = original_signal_length other))
    as [E2|N2];
    [rewrite (bool_decide_eq_true_2 _ E2) in *
    |rewrite (bool_decide_eq_false_2 _ N2) in *;
     apply Hfalse; [reflexivity|congruence]].
  cbn [negb] in *.
  destruct bs;
    [apply Hfalse; [reflexivity|];
     intros Heq; assert (Hx : true = false) by (apply Hbs'; congruence);
     discriminate|].
  destruct (decide (_sample_rate self = _sample_rate other)) as [E3|N3];
    [rewrite (bool_decide_eq_true_2 _ E3) in *
    |rewrite (bool_decide_eq_false_2 _ N3) in *;
     apply Hfalse; [reflexivity|congruence]].
  cbn [negb] in *.
  destruct (decide (_active_start self = _active_start other)) as [E4|N4];
    [rewrite (bool_decide_eq_true_2 _ E4) in *
    |rewrite (bool_decide_eq_false_2 _ N4) in *;
     apply Hfalse; [reflexivity|congruence]].
  cbn [negb] in *.
  destruct (decide (_active_end self = _active_end other)) as [E5|N5];
    [rewrite (bool_decide_eq_true_2 _ E5) in *
    |rewrite (bool_decide_eq_false_2 _ N5) in *;
     apply Hfalse; [reflexivity|congruence]].
  cbn [negb] in *.
  destruct (decide (label self = label other)) as [E6|N6];
    [rewrite (bool_decide_eq_true_2 _ E6) in *
    |rewrite (bool_decide_eq_false_2 _ N6) in *;
     apply Hfalse; [reflexivity|congruence]].
  cbn [negb] in *.
  destruct (decide (_stft_params self = _stft_params other)) as [E7|N7];
    [rewrite (bool_decide_eq_true_2 _ E7) in *
    |rewrite (bool_decide_eq_false_2 _ N7) in *;
     apply Hfalse; [reflexivity|congruence]].
  cbn [negb] in *.
  exists true. split; [reflexivity|]. split; [|apply Hne; reflexivity].
  split; [intros _|reflexivity].
  assert (Ea : _audio_data self = _audio_data other)
    by (apply Hba'; reflexivity).
  assert (Es : _stft_data self = _stft_data other)
    by (apply Hbs'; reflexivity).
  destruct self, other. simpl in *. congruence.
Qed.

(** X18. Comparing a signal that has no audio data with one that has,
    the paths being equal, does not answer [False]: with more than one
    sample on the other side the comparison of [None] with the array
    has no truth value and [==] raises [ValueError]; so does [!=].  The
    other way round the answer is [False]. *)
Theorem eq_without_audio_raises (self other : AudioSignal A)
  (b : ndarray A) :
  path_to_input_file self = path_to_input_file other ->
  _audio_data self = None -> _audio_data other = Some b -> 1 < size b ->
  __eq__ eqb self other = Raise ValueError /\
  __ne__ eqb self other = Raise ValueError /\
  __eq__ eqb other self = Ok false /\
  __ne__ eqb other self = Ok true.
Proof.
  intros Hpath Hself Hother Hsize.
  assert (Hraise : __eq__ eqb self other = Raise ValueError).
  { unfold __eq__. rewrite (bool_decide_eq_true_2 _ Hpath). cbn [negb].
    rewrite Hself, Hother. cbn [array_field_differs].
    destruct (Nat.eqb_spec (size b) 0); [lia|].
    destruct (Nat.eqb_spec (size b) 1); [lia|]. reflexivity. }
  assert (Hback : __eq__ eqb other self = Ok false).
  { unfold __eq__. rewrite (bool_decide_eq_true_2 _ (eq_sym Hpath)).
    cbn [negb]. rewrite Hself, Hother. reflexivity. }
  split; [exact Hraise|]. split; [|split; [exact Hback|]].
  - unfold __ne__. rewrite Hraise. reflexivity.
  - unfold __ne__. rewrite Hback. reflexivity.
Qed.

End EqualityFacts.

(* ===================================================================== *)
(** * What the setters refuse *)
(* ===================================================================== *)

Section SetterFacts.
Context {A : Type} `{Scalar A}.
Import Np Np2.

(** X19. The setter of [audio_data] refuses an array with an entry that
    is not finite and an array of more than two axes; the setter of
    [stft_data] refuses an array of one axis and an array of more than
    three.  A refused assignment changes nothing.  A spectrogram of two
    axes is stored with a channel axis of length one added at the end,
    its elements as they are. *)
Theorem data_setters_refuse (s : AudioSignal A) (v : ndarray A) :
  (isfinite_all v = false ->
     audio_data_setter (VArray v) s = (s, Raise AudioSignalException)) /\
  (2 < ndim v ->
     audio_data_setter (VArray v) s = (s, Raise AudioSignalException)) /\
  (ndim v = 1 \/ 3 < ndim v ->
     stft_data_setter (VArray v) s = (s, Raise AudioSignalException)) /\
  (forall F T, shape v = [F; T] ->
     stft_data_setter (VArray v) s =
       (with_stft_data (Some (NdArray [F; T; 1] (data v))) s, Ok tt)).
Proof.
  split; [|split; [|split]].
  - intros Hfin. unfold audio_data_setter. rewrite Hfin. reflexivity.
  - intros Hnd. unfold audio_data_setter.
    destruct (negb (isfinite_all v)); [reflexivity|]. cbv zeta.
    assert (Hrank : ndim (match shape v with
                          | c :: l :: _ => if l <? c then transpose v else v
                          | _ => v
                          end) = ndim v).
    { unfold ndim. destruct (shape v) as [|c [|l rest]] eqn:Hs;
        try (rewrite Hs; reflexivity).
      destruct (l <? c); [|rewrite Hs; reflexivity].
      unfold transpose. cbn [shape tabulate]. rewrite Hs.
      apply length_rev. }
    rewrite Hrank. destruct (Nat.ltb_spec 2 (ndim v)); [reflexivity|lia].
  - intros Hnd. unfold stft_data_setter.
    destruct (decide (ndim v = 1)) as [H1|H1]; [reflexivity|]. cbv zeta.
    destruct (decide (ndim v = 2)) as [H2|H2]; [lia|].
    destruct (Nat.ltb_spec 3 (ndim v)); [reflexivity|lia].
  - intros F T Hs. unfold stft_data_setter, ndim. rewrite Hs. simpl.
    unfold expand_dims, STFT_CHAN_INDEX. rewrite Hs. reflexivity.
Qed.

End SetterFacts.

(* ===================================================================== *)
(** * Down to one channel *)
(* ===================================================================== *)

Section MonoFacts.
Context {A : Type} `{Scalar A}.
Import Np Np2.

(** X25. [to_mono] averages the channels of the active slice sample by
    sample.  With [keep_dims=False] it returns a vector of [k] samples,
    with [keep_dims=True] a matrix of one row; with [overwrite=False]
    the object is left as it is.  With [overwrite=True] and finite
    means the result becomes the audio data, one channel of [k > 0]
    samples, whatever [keep_dims] is; the samples outside the active
    region are gone and the region is the default one. *)
Theorem to_mono_averages (avg : list A -> A) (s : AudioSignal A)
  (v : ndarray A) (c k : nat) :
  audio_data s = Ok (Some v) -> shape v = [c; k] -> 0 < k ->
  (forall j, j < k ->
     s_isfinite (avg (map (fun i => get v [i; j]) (seq 0 c))) = true) ->
  exists flat kept,
    shape flat = [k] /\ shape kept = [1; k] /\ data kept = data flat /\
    (forall j, j < k ->
       get flat [j] = avg (map (fun i => get v [i; j]) (seq 0 c))) /\
    to_mono avg false false s = (s, Ok flat) /\
    to_mono avg false true s = (s, Ok kept) /\
    let stored :=
      with_active_end (Some (Z.of_nat k))
        (with_active_start (Some 0%Z) (with_audio_data (Some kept) s)) in
    to_mono avg true false s = (stored, Ok flat) /\
    to_mono avg true true s = (stored, Ok kept) /\
    is_mono stored = Ok true /\
    active_region_is_default stored = Ok true.
Proof.
  intros Hv Hs Hk Hfin.
  set (f := fun idx : list nat =>
              avg (map (fun i => get v (i :: idx)) (seq 0 c))).
  set (flat := tabulate [k] f).
  set (kept := tabulate [1; k] (fun idx => f (tl idx))).
  assert (Hdata : data kept = data flat).
  { unfold kept, flat, tabulate. cbn [data prod].
    replace (1 * (k * 1)) with (k * 1) by lia.
    apply map_ext_in. intros n Hn. apply in_seq in Hn.
    cbn [unravel tl]. rewrite Nat.mod_small by (cbn [prod]; lia).
    reflexivity. }
  assert (Hflat : forall j, j < k -> get flat [j] = f [j]).
  { intros j Hj. unfold flat. apply get_tabulate. apply valid1; assumption. }
  assert (Hflatfin : isfinite_all flat = true).
  { apply finite_entries; [apply tabulate_well_formed|].
    intros idx Hidx. destruct (valid1_inv k idx Hidx) as [j [-> Hj]].
    rewrite Hflat by assumption. apply Hfin; assumption. }
  assert (Hkeptfin : isfinite_all kept = true).
  { unfold isfinite_all in *. rewrite Hdata. exact Hflatfin. }
  assert (Hmean : forall b, mean_axis0 avg v b
                            = Ok (if b then kept else flat)).
  { intros b. unfold mean_axis0. rewrite Hs. destruct b; reflexivity. }
  assert (Hkeptflat : NdArray [1; k] (data flat) = kept).
  { rewrite <- Hdata. reflexivity. }
  exists flat, kept.
  split; [reflexivity|]. split; [reflexivity|]. split; [exact Hdata|].
  split; [exact Hflat|].
  split; [|split].
  - unfold to_mono. unfold_m. rewrite Hv, (Hmean false). reflexivity.
  - unfold to_mono. unfold_m. rewrite Hv, (Hmean true). reflexivity.
  - intros stored. split; [|split; [|split]].
    + unfold to_mono. unfold_m. rewrite Hv, (Hmean false).
      rewrite (audio_data_setter_vector s flat k Hflatfin eq_refl).
      rewrite Hkeptflat. reflexivity.
    + unfold to_mono. unfold_m. rewrite Hv, (Hmean true).
      rewrite (audio_data_setter_matrix s kept 1 k Hkeptfin eq_refl).
      destruct (Nat.ltb_spec k 1) as [Hk0|Hk1]; [lia|reflexivity].
    + assert (Hdef : active_region_is_default stored = Ok true)
        by (apply (default_region_is_default s kept 1 k); reflexivity).
      destruct (audio_data_default stored kept 1 k Hdef)
        as [u [Hu [Hus _]]]; [reflexivity|reflexivity|].
      unfold is_mono.
      rewrite (proj1 (num_channels_audio stored u 1 k Hu Hus)). reflexivity.
    + apply (default_region_is_default s kept 1 k). reflexivity.
Qed.

End MonoFacts.

(* ===================================================================== *)
(** * More runs on sample objects *)
(* ===================================================================== *)

Module MoreRuns.
Import Np Np2 Examples MoreExamples.
Local Open Scope Z_scope.

Lemma stereo4_audio_data : audio_data stereo4 = Ok (Some stereo4_data).
Proof. reflexivity. Qed.

(** The channels of [stereo4]: index 1 is the second one, index 2 is
    out of range. *)
Lemma get_channel_bounds_witness :
  get_channel 2 stereo4 = Raise AudioSignalException /\
  exists ch, get_channel 1 stereo4 = Ok ch /\ shape ch = [4%nat] /\
    get ch [2%nat] = q 7.
Proof.
  split.
  - apply (get_channel_bounds stereo4 stereo4_data 2 4 2 stereo4_audio_data);
      [reflexivity|]. right. simpl. lia.
  - destruct (get_channel_bounds stereo4 stereo4_data 2 4 1
                stereo4_audio_data eq_refl) as [_ Hin].
    destruct Hin as [ch [Hch [Hs Hg]]]; [lia|simpl; lia|].
    exists ch. split; [exact Hch|]. split; [exact Hs|].
    rewrite (Hg 2%nat) by lia. reflexivity.
Defined.

Lemma get_channels_stack_witness :
  exists chans, get_channels stereo4 = Ok chans /\ length chans = 2%nat /\
    stack chans = Ok stereo4_data.
Proof.
  destruct (get_channels_stack stereo4 stereo4_data 2 4 stereo4_audio_data)
    as [chans [Hrun [Hlen [_ Hstack]]]];
    [reflexivity|reflexivity|lia|].
  exists chans. auto.
Defined.

(** The region [1, 3) of four samples, and back. *)
Lemma set_active_region_isolates_witness :
  exists s1 v,
    set_active_region 1 3 mono4 = (s1, Ok tt) /\
    _audio_data s1 = Some (row [1; 2; 3; 4]) /\
    audio_data s1 = Ok (Some v) /\ shape v = [1; 2]%nat /\
    get v [0; 0]%nat = q 2 /\ get v [0; 1]%nat = q 3 /\
    exists s2 w,
      set_active_region_to_default s1 = (s2, Ok tt) /\
      active_region_is_default s2 = Ok true /\
      audio_data s2 = Ok (Some w) /\ shape w = [1; 4]%nat.
Proof.
  destruct (set_active_region_isolates mono4 (row [1; 2; 3; 4]) 1 4 1 3)
    as [s1 [v [Hset [Hdata [Hv [Hs [Hg Hback]]]]]]];
    [reflexivity|reflexivity|lia|lia|simpl; lia|].
  destruct Hback as [s2 [w [Hdef [_ [Hd [Hw [Hws _]]]]]]].
  exists s1, v. split; [exact Hset|]. split; [exact Hdata|].
  split; [exact Hv|]. split; [exact Hs|].
  split; [rewrite (Hg 0%nat 0%nat) by (simpl; lia); reflexivity|].
  split; [rewrite (Hg 0%nat 1%nat) by (simpl; lia); reflexivity|].
  exists s2, w. auto.
Defined.

Lemma zero_pad_crop_signal_witness :
  exists s1 s2 w,
    zero_pad 2 1 mono4 = (s1, Ok tt) /\
    _signal_length s1 = Ok (Some 7) /\
    crop_signal 2 1 s1 = (s2, Ok tt) /\
    _audio_data s2 = Some w /\ shape w = [1; 4]%nat /\
    get w [0; 3]%nat = q 4.
Proof.
  destruct (zero_pad_crop_signal mono4 (row [1; 2; 3; 4]) 1 4 2 1)
    as [s1 [s2 [w [Hpad [Hlen [Hcrop [Hw [Hs [Hg _]]]]]]]]];
    try reflexivity; try lia.
  exists s1, s2, w. split; [exact Hpad|]. split; [exact Hlen|].
  split; [exact Hcrop|]. split; [exact Hw|]. split; [exact Hs|].
  rewrite (Hg 0%nat 3%nat) by lia. reflexivity.
Defined.


(** [stereo4 * 2] in a store that holds [stereo4] alone. *)
Lemma mul_returns_scaled_copy_witness :
  let h : gmap loc (AudioSignal Q) := {[0%nat := stereo4]} in
  __mul__ 0%nat VNone h = (h, Raise AudioSignalException) /\
  exists h' s',
    __mul__ 0%nat (VInt 2) h = (h', Ok (VRef 1%nat)) /\
    h' !! 0%nat = Some stereo4 /\ h' !! 1%nat = Some s' /\
    _audio_data s' = Some (scale stereo4_data (q 2)) /\
    _stft_data s' = None /\
    get (scale stereo4_data (q 2)) [1; 2]%nat = (q 7 * q 2)%Q.
Proof.
  intros h.
  assert (Hself : h !! 0%nat = Some stereo4) by reflexivity.
  destruct (mul_returns_scaled_copy h 0%nat stereo4 VNone Hself)
    as [Hnone _].
  split; [apply Hnone; reflexivity|].
  destruct (mul_returns_scaled_copy h 0%nat stereo4 (VInt 2) Hself)
    as [_ [_ Hmul]].
  destruct (Hmul (q 2) stereo4_data 2%nat 4%nat) as [_ [Hrun Hg]];
    try reflexivity; try lia.
  eexists _, _. split; [exact Hrun|].
  split; [reflexivity|]. split; [reflexivity|].
  split; [reflexivity|]. split; [reflexivity|].
  apply (Hg 1%nat 2%nat); lia.
Defined.

(** The second channel of [stereo4] as a signal of its own. *)
Lemma make_audio_signal_from_channel_mono_witness :
  exists h' l s' w,
    make_audio_signal_from_channel 0%nat 1 {[0%nat := stereo4]}
      = (h', Ok (VRef l)) /\
    h' !! 0%nat = Some stereo4 /\ h' !! l = Some s' /\
    _audio_data s' = Some w /\ shape w = [1; 4]%nat /\
    get w [0; 2]%nat = q 7 /\
    is_mono s' = Ok true.
Proof.
  destruct (make_audio_signal_from_channel_mono {[0%nat := stereo4]} 0%nat
              stereo4 stereo4_data 2 4 1)
    as [h' [l [s' [w [Hrun [_ [Hself [Hl [Hw [Hs [Hg [_ [Hm _]]]]]]]]]]]]];
    try reflexivity; try lia.
  exists h', l, s', w. split; [exact Hrun|]. split; [exact Hself|].
  split; [exact Hl|]. split; [exact Hw|]. split; [exact Hs|].
  split; [|exact Hm].
  rewrite (Hg 2%nat) by lia. reflexivity.
Defined.

(** A mask of ones and twos on a spectrogram of shape (2, 3, 2). *)
Lemma apply_mask_product_witness :
  let h : gmap loc (AudioSignal Q) :=
    {[0%nat := signal_of_stft stft_2_3_2]} in
  exists v,
    shape v = [2; 3; 2]%nat /\
    get v [1; 2; 1]%nat = (q 12 * q 1)%Q /\
    apply_mask 0%nat (VMask (ones [2; 3; 2]%nat)) true h =
      (<[0%nat := with_stft_data (Some v) (signal_of_stft stft_2_3_2)]> h,
       Ok VNone) /\
    apply_mask 0%nat (VMask (ones [2; 3; 2]%nat)) false h =
      (<[1%nat := with_audio_data None
                    (with_stft_data (Some v) (signal_of_stft stft_2_3_2))]> h,
       Ok (VRef 1%nat)).
Proof.
  intros h.
  destruct (apply_mask_product h 0%nat (signal_of_stft stft_2_3_2)
              stft_2_3_2 (ones [2; 3; 2]%nat) 2 3 2)
    as [v [Hs [Hg [Hover [_ Hcopy]]]]]; try reflexivity.
  exists v. split; [exact Hs|].
  split; [rewrite (Hg 1%nat 2%nat 1%nat) by lia; reflexivity|].
  split; [exact Hover|exact Hcopy].
Defined.

(** [mono4 - mono4'] for two signals of four samples. *)
Lemma subtract_returns_difference_witness :
  let h : gmap loc (AudioSignal Q) :=
    <[1%nat := signal_of_array (row [10; 20; 30; 40])]> {[0%nat := mono4]} in
  exists h' l s' v,
    subtract 0%nat (VRef 1%nat) h = (h', Ok (VRef l)) /\
    h' !! 0%nat = Some mono4 /\
    h' !! 1%nat = Some (signal_of_array (row [10; 20; 30; 40])) /\
    h' !! l = Some s' /\ _audio_data s' = Some v /\
    shape v = [1; 4]%nat /\
    get v [0; 1]%nat = (q 2 + q 20 * q (-1))%Q.
Proof.
  intros h.
  destruct (subtract_returns_difference h 0%nat 1%nat mono4
              (signal_of_array (row [10; 20; 30; 40]))
              (row [1; 2; 3; 4]) (row [10; 20; 30; 40]) 1 4)
    as [h' [l [s' [v [Hrun [_ [Hself [Hother [Hl [Hs' [Hs Hg]]]]]]]]]]];
    try reflexivity; try lia.
  { intros i j Hi Hj. split; reflexivity. }
  exists h', l, s', v. split; [exact Hrun|]. split; [exact Hself|].
  split; [exact Hother|]. split; [exact Hl|].
  split; [rewrite Hs'; reflexivity|]. split; [exact Hs|].
  apply (Hg 0%nat 1%nat); lia.
Defined.


(** [istft] with a length of three on the signal of four samples that
    holds a spectrogram worth six. *)
Lemma istft_overwrite_witness :
  exists out,
    shape out = [1; 3]%nat /\ get out [0; 2]%nat = q 3 /\
    istft scipy_boxcar None None None false (Some 3) mono4_stft
      = (mono4_stft, Ok out) /\
    istft scipy_boxcar None None None true (Some 3) mono4_stft
      = (with_active_end (Some 3)
           (with_active_start (Some 0)
              (with_audio_data (Some out) mono4_stft)), Ok out).
Proof.
  destruct (istft_overwrite scipy_boxcar None None None mono4_stft
              (row [1; 2; 3; 4; 5; 6]) 1 6 3)
    as [out [Hs [Hg [_ [Haudio _]]]]];
    try reflexivity; try lia.
  destruct (Haudio (row [1; 2; 3; 4]) eq_refl) as [Hkeep Hstore].
  exists out. split; [exact Hs|].
  split; [rewrite (Hg 0%nat 2%nat) by (simpl; lia); reflexivity|].
  split; [exact Hkeep|exact Hstore].
Defined.

Lemma stereo4_kernel (n : nat) (ch : ndarray Q) :
  (n < 2)%nat -> get_channel (Z.of_nat n) stereo4 = Ok ch ->
  padded_stft (sample_rate stereo4) (repeat 1%Q 4) 4 (4 - 2) ch
    = Ok (stereo4_transforms n) /\
  shape (stereo4_transforms n) = [1; 6]%nat /\
  well_formed (stereo4_transforms n) /\
  sp_istft scipy_boxcar (sample_rate stereo4) (repeat 1%Q 4) 4 (4 - 2)
    (stereo4_transforms n) = Ok (data ch ++ [0%Q; 0%Q]) /\
  length [0%Q; 0%Q] = 2%nat.
Proof.
  intros Hn Hch. destruct n as [|[|n]]; [| |lia];
    vm_compute in Hch; inversion Hch; subst; repeat split.
Qed.

(** The forward transform of [stereo4] with a kernel that pads each
    channel with two zeros. *)
Lemma stft_channels_witness :
  exists d,
    shape d = [1; 6; 2]%nat /\ get d [0; 1; 1]%nat = q 6 /\
    stft scipy_boxcar padded_stft None None None false stereo4
      = (stereo4, Ok d) /\
    stft scipy_boxcar padded_stft None None None true stereo4
      = (with_stft_data (Some d) stereo4, Ok d) /\
    get_stft_channels (with_stft_data (Some d) stereo4)
      = Ok [stereo4_transforms 0; stereo4_transforms 1].
Proof.
  destruct (stft_channels scipy_boxcar padded_stft None None None stereo4
              stereo4_data 2 4 4 2 "boxcar" (repeat 1%Q 4)
              stereo4_transforms 1 6 stereo4_audio_data)
    as [d [Hs [Hg [Hkeep [Hstore [_ Hall]]]]]];
    try reflexivity; try lia.
  { intros n ch Hn Hch.
    destruct (stereo4_kernel n ch Hn Hch) as [H1 [H2 [H3 _]]]. auto. }
  exists d. split; [exact Hs|].
  split; [rewrite (Hg 1%nat 0%nat 1%nat) by lia; reflexivity|].
  split; [exact Hkeep|]. split; [exact Hstore|exact Hall].
Defined.

(** [stft()] and then [istft()] on [stereo4], with that kernel and the
    inverse that hands the coefficients back. *)
Lemma stft_istft_round_trip_witness :
  exists d,
    stft scipy_boxcar padded_stft None None None true stereo4
      = (with_stft_data (Some d) stereo4, Ok d) /\
    istft scipy_boxcar None None None false None
      (with_stft_data (Some d) stereo4)
      = (with_stft_data (Some d) stereo4, Ok stereo4_data) /\
    snd (istft scipy_boxcar None None None true None
           (with_stft_data (Some d) stereo4)) = Ok stereo4_data.
Proof.
  destruct (stft_istft_round_trip scipy_boxcar padded_stft None None None
              stereo4 stereo4_data 2 4 4 2 "boxcar" (repeat 1%Q 4)
              stereo4_transforms (fun _ => [0%Q; 0%Q]) 1 6 2
              stereo4_audio_data)
    as [d [Hstft [Hkeep Hstore]]];
    try reflexivity; try lia.
  { intros n ch Hn Hch. apply (stereo4_kernel n ch Hn Hch). }
  exists d. split; [exact Hstft|]. split; [exact Hkeep|].
  rewrite Hstore. reflexivity.
Defined.


(** [AudioSignal(stft=d, sample_rate=8000)] for a spectrogram of shape
    (2, 3, 2). *)
Lemma init_from_stft_witness :
  let s := fst (__init__ scipy_boxcar None (Some stft_2_3_2) None
                  (Some 8000) (PParams boxcar_4_2) (blank None)) in
  _audio_data s = None /\ _stft_data s = Some stft_2_3_2 /\
  _sample_rate s = Some 8000 /\
  signal_length s = Ok None /\ __len__ s = Raise TypeError /\
  num_channels s = Ok (Some 2) /\ stft_length s = Ok 3 /\
  has_data s = Ok true /\
  snd (set_active_region 0 2 s) = Raise TypeError.
Proof.
  intros s.
  destruct (init_from_stft scipy_boxcar stft_2_3_2 2 3 2 None (Some 8000)
              (PParams boxcar_4_2) eq_refl s
              (snd (__init__ scipy_boxcar None (Some stft_2_3_2) None
                      (Some 8000) (PParams boxcar_4_2) (blank None))))
    as [Ha [Hd [Hr [Hl [Hlen [Hn [Hh [Hhas Hset]]]]]]]];
    [apply surjective_pairing|].
  split; [exact Ha|]. split; [exact Hd|]. split; [exact Hr|].
  split; [exact Hl|]. split; [exact Hlen|]. split; [exact Hn|].
  split; [exact Hh|]. split; [exact Hhas|apply Hset].
Defined.



Lemma no_data_no_transform_witness :
  has_data empty_signal = Ok false /\
  stft scipy_boxcar padded_stft None None None true empty_signal
    = (empty_signal, Raise AudioSignalException) /\
  istft scipy_boxcar None None None true None empty_signal
    = (empty_signal, Raise AudioSignalException).
Proof.
  split; [reflexivity|].
  apply (no_data_no_transform scipy_boxcar padded_stft None None None true
           None empty_signal).
  reflexivity.
Defined.

(** The signal of four samples, after a spectrogram has been assigned
    and the region set to [3, 1). *)
Lemma reachable_well_kept_witness :
  well_kept (with_region 3 1 mono4_stft) /\
  forall kernel wl hl wt overwrite s' r,
    stft scipy_boxcar kernel wl hl wt overwrite (with_region 3 1 mono4_stft)
      = (s', r) -> well_kept s'.
Proof.
  apply (reachable_well_kept scipy_boxcar (with_region 3 1 mono4_stft)).
  apply Runs.with_region_reachable, Runs.mono4_stft_reachable.
Defined.

Lemma Q_eqb_eq (x y : Q) : Q_eqb x y = true <-> x = y.
Proof.
  unfold Q_eqb. rewrite andb_true_iff, Z.eqb_eq, Pos.eqb_eq.
  destruct x, y. simpl. split.
  - intros [-> ->]. reflexivity.
  - intros Heq. inversion Heq. auto.
Qed.

Lemma eq_decides_equality_witness :
  __eq__ Q_eqb mono4 mono4 = Ok true /\
  __ne__ Q_eqb mono4 mono4 = Ok false /\
  __eq__ Q_eqb mono4 mono2 = Ok false.
Proof.
  destruct (eq_decides_equality Q_eqb Q_eqb_eq mono4 mono4)
    as [b [Hb [Hiff Hne]]]; [auto|auto|].
  assert (Htrue : b = true) by (apply Hiff; reflexivity).
  rewrite Htrue in Hb, Hne.
  split; [exact Hb|]. split; [exact Hne|].
  destruct (eq_decides_equality Q_eqb Q_eqb_eq mono4 mono2)
    as [b' [Hb' [Hiff' _]]]; [discriminate|auto|].
  destruct b'; [|exact Hb'].
  assert (Hsame : mono4 = mono2) by (apply Hiff'; reflexivity).
  apply (f_equal original_signal_length) in Hsame. discriminate Hsame.
Defined.

(** An object made from a spectrogram against the signal of four
    samples. *)
Lemma eq_without_audio_raises_witness :
  __eq__ Q_eqb stft_only mono4 = Raise ValueError /\
  __ne__ Q_eqb stft_only mono4 = Raise ValueError /\
  __eq__ Q_eqb mono4 stft_only = Ok false /\
  __ne__ Q_eqb mono4 stft_only = Ok true.
Proof.
  apply (eq_without_audio_raises Q_eqb stft_only mono4 (row [1; 2; 3; 4]));
    [reflexivity|reflexivity|reflexivity|].
  unfold size, row. simpl. lia.
Defined.

Lemma truncate_samples_default_witness :
  exists s' w, truncate_samples 2 mono4 = (s', Ok tt) /\
    _audio_data s' = Some w /\ shape w = [1; 2]%nat /\
    get w [0; 1]%nat = q 2 /\
    _signal_length s' = Ok (Some 2).
Proof.
  destruct (truncate_samples_default mono4 (row [1; 2; 3; 4]) 1 4 2)
    as [s' [w [Hrun [Hw [Hs [Hg [Hlen _]]]]]]];
    try reflexivity; try lia.
  exists s', w. split; [exact Hrun|]. split; [exact Hw|].
  split; [exact Hs|]. split; [|exact Hlen].
  rewrite (Hg 0%nat 1%nat) by (simpl; lia). reflexivity.
Defined.

Lemma zero_pad_default_witness :
  exists s' w, zero_pad 1 2 mono4 = (s', Ok tt) /\
    _audio_data s' = Some w /\ shape w = [1; 7]%nat /\
    get w [0; 0]%nat = q 0 /\ get w [0; 1]%nat = q 1 /\
    get w [0; 5]%nat = q 0 /\
    _signal_length s' = Ok (Some 7).
Proof.
  destruct (zero_pad_default mono4 (row [1; 2; 3; 4]) 1 4 1 2)
    as [s' [w [Hrun [Hw [Hs [Hg [Hlen _]]]]]]];
    try reflexivity; try lia.
  exists s', w. split; [exact Hrun|]. split; [exact Hw|].
  split; [exact Hs|].
  split; [rewrite (Hg 0%nat 0%nat) by (simpl; lia); reflexivity|].
  split; [rewrite (Hg 0%nat 1%nat) by (simpl; lia); reflexivity|].
  split; [rewrite (Hg 0%nat 5%nat) by (simpl; lia); reflexivity|].
  exact Hlen.
Defined.

Lemma concat_default_witness :
  exists s' w, concat mono2 mono4 = (s', Ok tt) /\
    _audio_data s' = Some w /\ shape w = [1; 6]%nat /\
    get w [0; 3]%nat = q 4 /\ get w [0; 4]%nat = q 10 /\
    _signal_length s' = Ok (Some 6).
Proof.
  destruct (concat_default mono4 mono2 (row [1; 2; 3; 4]) (row [10; 20])
              1 4 2)
    as [s' [w [Hrun [Hw [Hs [Hg [Hlen _]]]]]]];
    try reflexivity; try lia.
  exists s', w. split; [exact Hrun|]. split; [exact Hw|].
  split; [exact Hs|].
  split; [rewrite (Hg 0%nat 3%nat) by (simpl; lia); reflexivity|].
  split; [rewrite (Hg 0%nat 4%nat) by (simpl; lia); reflexivity|].
  exact Hlen.
Defined.

(** Four samples against two. *)
Lemma add_refuses_witness :
  let h : gmap loc (AudioSignal Q) :=
    <[1%nat := mono2]> {[0%nat := mono4]} in
  add 0%nat (VRef 1%nat) h = (h, Raise AudioSignalException) /\
  subtract 0%nat (VRef 1%nat) h = (h, Raise AudioSignalException).
Proof.
  intros h.
  apply (add_refuses h 0%nat 1%nat mono4 mono2 (Some 1) (Some 1)
           (Some 4) (Some 2)); try reflexivity.
  right. right. discriminate.
Defined.

(** [STFTParams(4, 4, 'boxcar')]: [check_COLA] refuses a step as long as
    the segment. *)
Lemma stft_params_setter_raises_witness :
  stft_params_setter scipy_boxcar
    (PParams (mkSTFTParams (Some 4) (Some 4) (Some "boxcar"%string))) mono4 =
    (with_stft_params
       (Some (mkSTFTParams (Some 4) (Some 4) (Some "boxcar"%string))) mono4,
     Raise ValueError).
Proof.
  apply (stft_params_setter_raises scipy_boxcar mono4
           (mkSTFTParams (Some 2048) (Some 512) (Some "hann"%string))
           (mkSTFTParams (Some 4) (Some 4) (Some "boxcar"%string))
           4 4 "boxcar" ValueError); reflexivity.
Defined.

(** The two channels of [stereo4] averaged. *)
Lemma to_mono_averages_witness :
  exists flat kept,
    shape flat = [4%nat] /\ shape kept = [1; 4]%nat /\
    (get flat [1%nat] == 4)%Q /\
    to_mono Q_mean false false stereo4 = (stereo4, Ok flat) /\
    to_mono Q_mean true false stereo4
      = (with_active_end (Some 4)
           (with_active_start (Some 0)
              (with_audio_data (Some kept) stereo4)), Ok flat) /\
    is_mono (fst (to_mono Q_mean true true stereo4)) = Ok true.
Proof.
  destruct (to_mono_averages Q_mean stereo4 stereo4_data 2 4
              stereo4_audio_data)
    as [flat [kept [Hf [Hk [_ [Hg [Hkeep [_ Hstore]]]]]]]];
    [reflexivity|lia|intros j Hj; reflexivity|].
  destruct Hstore as [Hflat [Hkept [Hmono _]]].
  exists flat, kept. split; [exact Hf|]. split; [exact Hk|].
  split; [rewrite (Hg 1%nat) by lia; reflexivity|].
  split; [exact Hkeep|]. split; [exact Hflat|].
  rewrite Hkept. exact Hmono.
Defined.

(** A spectrogram offered as audio data, and a matrix offered as STFT
    data. *)
Lemma data_setters_refuse_witness :
  audio_data_setter (VArray stft_2_3_2) mono4
    = (mono4, Raise AudioSignalException) /\
  stft_data_setter (VArray (row [1; 2; 3])) mono4
    = (with_stft_data (Some (NdArray [1; 3; 1]%nat (map q [1; 2; 3]))) mono4,
       Ok tt).
Proof.
  destruct (data_setters_refuse mono4 stft_2_3_2) as [_ [Hrank _]].
  split; [apply Hrank; unfold ndim; simpl; lia|].
  destruct (data_setters_refuse mono4 (row [1; 2; 3])) as [_ [_ [_ Hflat]]].
  apply (Hflat 1%nat 3%nat). reflexivity.
Defined.

End MoreRuns.
